(** * The AceNet catalog check ([automate_search]) as a shallow embedding

    The Python script drives a browser through Selenium.  Every driver
    call either returns a value or raises; the embedding makes the
    answers of the browser an explicit input (a record of [outcome]s,
    one field per call site of the loop body) and threads the program
    variables, the rows appended to the output sheet and the list of
    driver commands issued through a small state-and-exception monad.
    The answers are given per position in the list of part numbers;
    since every pass of the loop either ends the loop or moves to the
    next position, each position is visited once, and a statement
    about all answers covers a browser whose answers depend on what
    the script did before.

    Texts read from the page are modelled as ASCII strings.  Only
    subclasses of [Exception] are modelled as exceptions.  *)

From Stdlib Require Import String Ascii List Bool Arith ZArith NArith Lia Sorted.
Import ListNotations.
Local Open Scope string_scope.
Local Open Scope list_scope.
Local Open Scope nat_scope.

(** ** Python strings *)

Module Py.

(** [str.isspace] restricted to ASCII: TAB, LF, VT, FF, CR, the four
    separators FS, GS, RS, US, and the space. *)
Definition isspace (c : ascii) : bool :=
  let n := nat_of_ascii c in
  ((9 <=? n) && (n <=? 13)) || ((28 <=? n) && (n <=? 32)).

(** The whitespace [float] skips around a number: TAB, LF, VT, FF, CR
    and the space, not the four separators. *)
Definition c_isspace (c : ascii) : bool :=
  let n := nat_of_ascii c in
  ((9 <=? n) && (n <=? 13)) || (n =? 32).

Fixpoint lstrip_by (space : ascii -> bool) (s : string) : string :=
  match s with
  | EmptyString => EmptyString
  | String c t => if space c then lstrip_by space t else s
  end.

Fixpoint rstrip_by (space : ascii -> bool) (s : string) : string :=
  match s with
  | EmptyString => EmptyString
  | String c t =>
      match rstrip_by space t with
      | EmptyString => if space c then EmptyString else String c EmptyString
      | t' => String c t'
      end
  end.

Definition strip_by (space : ascii -> bool) (s : string) : string :=
  rstrip_by space (lstrip_by space s).

(** [s.strip()] *)
Definition strip (s : string) : string := strip_by isspace s.

(** Truth value of a string: [if s:] *)
Definition truthy (s : string) : bool :=
  match s with EmptyString => false | String _ _ => true end.

(** [needle in hay] *)
Fixpoint contains (needle hay : string) : bool :=
  String.prefix needle hay ||
  match hay with
  | EmptyString => false
  | String _ t => contains needle t
  end.

Definition is_upper (c : ascii) : bool :=
  let n := nat_of_ascii c in (65 <=? n) && (n <=? 90).

(** ASCII case folding, as [re.IGNORECASE] applies it to ASCII text. *)
Definition lower (c : ascii) : ascii :=
  if is_upper c then ascii_of_nat (nat_of_ascii c + 32) else c.

Definition is_digit (c : ascii) : bool :=
  let n := nat_of_ascii c in (48 <=? n) && (n <=? 57).

Definition digit_value (c : ascii) : N := N.of_nat (nat_of_ascii c - 48).

(** *** The regular expressions of the script

    Only the constructs the script's patterns use: literal characters,
    [\s], concatenation, alternation, and repetition (for [+] and [?]).
    Matching is by derivatives, always ignoring case, since every
    [re.search] of the script passes [re.IGNORECASE]. *)

Inductive regex : Type :=
| Void
| Eps
| Lit (c : ascii)
| Space
| Cat (r1 r2 : regex)
| Alt (r1 r2 : regex)
| Star (r : regex).

Definition Plus (r : regex) : regex := Cat r (Star r).
Definition Opt (r : regex) : regex := Alt r Eps.

Fixpoint word (s : string) : regex :=
  match s with
  | EmptyString => Eps
  | String c t => Cat (Lit c) (word t)
  end.

Fixpoint nullable (r : regex) : bool :=
  match r with
  | Void => false
  | Eps => true
  | Lit _ => false
  | Space => false
  | Cat r1 r2 => nullable r1 && nullable r2
  | Alt r1 r2 => nullable r1 || nullable r2
  | Star _ => true
  end.

Fixpoint deriv (a : ascii) (r : regex) : regex :=
  match r with
  | Void => Void
  | Eps => Void
  | Lit c => if Ascii.eqb (lower a) (lower c) then Eps else Void
  | Space => if isspace a then Eps else Void
  | Cat r1 r2 =>
      if nullable r1
      then Alt (Cat (deriv a r1) r2) (deriv a r2)
      else Cat (deriv a r1) r2
  | Alt r1 r2 => Alt (deriv a r1) (deriv a r2)
  | Star r1 => Cat (deriv a r1) (Star r1)
  end.

(** Some prefix of [s] is matched by [r] ([re.match] as a test). *)
Fixpoint match_prefix (r : regex) (s : string) : bool :=
  nullable r ||
  match s with
  | EmptyString => false
  | String a t => match_prefix (deriv a r) t
  end.

(** [re.search(r, s, re.IGNORECASE)] as a test: [r] matches at some
    position of [s]. *)
Fixpoint re_search (r : regex) (s : string) : bool :=
  match_prefix r s ||
  match s with
  | EmptyString => false
  | String _ t => re_search r t
  end.

(** *** [float(text)]

    The grammar of [float] on an ASCII string: surrounding whitespace
    (as [c_isspace] has it) is dropped, an underscore may stand between
    two digits, then an
    optional sign and either [inf], [infinity], [nan] (any case) or a
    decimal number with an optional exponent.  [None] is ValueError.

    The script only compares the value with zero, so a decimal is kept
    exactly, as sign, integer mantissa and power of ten; the comparison
    accounts for the rounding to a double. *)

Inductive pyfloat : Type :=
| FNan
| FInf (negative : bool)
| FDec (negative : bool) (mantissa : N) (exp10 : Z).

Fixpoint lower_string (s : string) : string :=
  match s with
  | EmptyString => EmptyString
  | String c t => String (lower c) (lower_string t)
  end.

(** Every underscore stands directly after a digit and directly before
    one. [prev] is the character before [s]. *)
Fixpoint underscores_ok (prev : ascii) (s : string) : bool :=
  match s with
  | EmptyString => negb (Ascii.eqb prev "_")
  | String c t =>
      (if Ascii.eqb c "_" then is_digit prev
       else if Ascii.eqb prev "_" then is_digit c else true)
      && underscores_ok c t
  end.

Fixpoint remove_underscores (s : string) : string :=
  match s with
  | EmptyString => EmptyString
  | String c t =>
      if Ascii.eqb c "_" then remove_underscores t
      else String c (remove_underscores t)
  end.

(** The leading digits of [s] as (their value continuing [acc], how
    many there are, the rest of [s]). *)
Fixpoint take_digits (acc : N) (s : string) : N * nat * string :=
  match s with
  | String c t =>
      if is_digit c then
        let '(v, n, rest) := take_digits (acc * 10 + digit_value c) t in
        (v, S n, rest)
      else (acc, 0, s)
  | EmptyString => (acc, 0, s)
  end.

Definition split_sign (s : string) : bool * string :=
  match s with
  | String "-" t => (true, t)
  | String "+" t => (false, t)
  | _ => (false, s)
  end.

(** The exponent part: empty, or [e], an optional sign and digits, up
    to the end of the string. *)
Definition parse_exponent (s : string) : option Z :=
  match s with
  | EmptyString => Some 0%Z
  | String c t =>
      if Ascii.eqb (lower c) "e" then
        let (neg, u) := split_sign t in
        match take_digits 0 u with
        | (_, 0, _) => None
        | (v, S _, EmptyString) =>
            Some (if neg then Z.opp (Z.of_N v) else Z.of_N v)
        | (_, S _, String _ _) => None
        end
      else None
  end.

Definition parse_decimal (negative : bool) (s : string) : option pyfloat :=
  let '(ip, ni, rest) := take_digits 0 s in
  let '(m, nf, rest') :=
    match rest with
    | String "." t => take_digits ip t
    | _ => (ip, 0, rest)
    end in
  match ni + nf with
  | 0 => None
  | S _ =>
      match parse_exponent rest' with
      | Some e => Some (FDec negative m (e - Z.of_nat nf))
      | None => None
      end
  end.

Definition float (text : string) : option pyfloat :=
  let s := strip_by c_isspace text in
  if underscores_ok " " s then
    let (negative, body) := split_sign (remove_underscores s) in
    let name := lower_string body in
    if String.eqb name "inf" || String.eqb name "infinity"
    then Some (FInf negative)
    else if String.eqb name "nan" then Some FNan
    else parse_decimal negative body
  else None.

(** [x > 0] for the double nearest to the decimal: a positive decimal
    rounds to a positive double unless it is at most 2^-1075, half of
    the smallest subnormal (the tie goes to zero, the even neighbour). *)
Definition gt_zero (x : pyfloat) : bool :=
  match x with
  | FNan => false
  | FInf negative => negb negative
  | FDec negative m e =>
      negb negative &&
      (if (0 <=? e)%Z then (0 <? m)%N
       else (10 ^ Z.to_N (- e) <? m * 2 ^ 1075)%N)
  end.

End Py.

(** ** The browser as seen by the script *)

Definition handle := string.

(** What a failing call raises.  Selenium's own errors (a timed-out
    wait, a lost window, a dead session) are all subclasses of
    [WebDriverException]; [OtherException] stands for any other
    [Exception]. *)
Inductive exn : Type :=
| WebDriverException
| OtherException.

Inductive outcome (A : Type) : Type :=
| Returns (a : A)
| Raises (e : exn).
Arguments Returns {A} a.
Arguments Raises {A} e.

(** The seven columns of the output sheet, named by their headers:
    "No Discovery", "No Asterisk(*)", "Cancelled", "On Order",
    "No Location", "Not in AceNet" (the specification's NotInCatalog)
    and "Not in RSC" (its NotInFulfillmentCenter). *)
Inductive column : Type :=
| NoDiscovery
| NoAsterisk
| Cancelled
| OnOrder
| NoLocation
| NotInAceNet
| NotInRSC.

Definition column_name (c : column) : string :=
  match c with
  | NoDiscovery => "No Discovery"
  | NoAsterisk => "No Asterisk(*)"
  | Cancelled => "Cancelled"
  | OnOrder => "On Order"
  | NoLocation => "No Location"
  | NotInAceNet => "Not in AceNet"
  | NotInRSC => "Not in RSC"
  end.

(** The driver commands (and the sleeps) the loop issues, in the order
    it issues them.  A read made only for a debug print inside its own
    try block is not recorded. *)
Inductive command : Type :=
| GetTitle
| DriverQuit
| KillChrome
| StartBrowserAndLogin
| UpdateStatus (current total : nat)
| SwitchToWindow (h : handle)
| WaitSearchBox (seconds : nat)
| GetHome
| SubmitSearch (part_number : string)
| Sleep (seconds : nat)
| WindowHandles
| CurrentUrl
| CloseWindow
| WaitIframes
| SwitchToFrame (i : nat)
| FindDiscovery
| PageSource
| SwitchToDefaultContent
| WaitStatusDiv
| WaitDiscovery
| WaitLink
| WaitOrderSpan
| WaitLocation.

(** The answers of the browser during one pass of the loop, one field
    per call site (the number is the line of the call in the script).
    A wait for an element together with the read of its [.text] is one
    answer: the raw text, or the exception of whichever failed. *)
Record responses : Type := {
  title : outcome string;                      (* 297 *)
  relogin_health : outcome handle;             (* 366-367 *)
  update_status : outcome unit;                (* 370 *)
  switch_main_start : outcome unit;            (* 371 *)
  search_box_first : outcome unit;             (* 373 *)
  switch_main_reload : outcome unit;           (* 378 *)
  get_home_reload : outcome unit;              (* 379 *)
  search_box_reload : outcome unit;            (* 380 *)
  search_box_retry : outcome unit;             (* 385 *)
  handles_skip : outcome (list handle);        (* 392 *)
  popup_switch_skip : nat -> outcome unit;     (* 395, by position *)
  popup_close_skip : nat -> outcome unit;      (* 396, by position *)
  switch_main_skip : outcome unit;             (* 399 *)
  submit_search : outcome unit;                (* 402-404 *)
  handles_debug : outcome (list handle);       (* 411 *)
  relogin_debug : outcome handle;              (* 439-440 *)
  switch_main_search : outcome unit;           (* 446 *)
  current_url : outcome string;                (* 448 *)
  switch_main_redirect : outcome unit;         (* 452 *)
  get_home_redirect : outcome unit;            (* 453 *)
  search_box_redirect : outcome unit;          (* 454 *)
  handles_redirect : outcome (list handle);    (* 458 *)
  popup_switch_redirect : nat -> outcome unit; (* 461, by position *)
  popup_close_redirect : nat -> outcome unit;  (* 462, by position *)
  switch_main_home : outcome unit;             (* 465 *)
  window_handles : outcome (list handle);      (* 468 *)
  switch_popup : outcome unit;                 (* 477 *)
  iframes : outcome nat;                       (* 482, how many *)
  switch_main_no_iframes : outcome unit;       (* 488 *)
  frame_switch : nat -> outcome unit;          (* 495, by frame *)
  frame_probe : nat -> outcome unit;           (* 498, by frame *)
  frame_page_source : nat -> outcome unit;     (* 504, by frame *)
  frame_default_inner : nat -> outcome unit;   (* 506, by frame *)
  frame_default_outer : nat -> outcome unit;   (* 510, by frame *)
  switch_main_no_frame : outcome unit;         (* 514 *)
  status_div : outcome string;                 (* 521-524 *)
  default_content_rsc : outcome unit;          (* 537 *)
  switch_main_rsc : outcome unit;              (* 538 *)
  default_content_cancelled : outcome unit;    (* 553 *)
  switch_main_cancelled : outcome unit;        (* 554 *)
  content_div : nat -> outcome string;         (* 563-566, by attempt *)
  discovery_page_source : nat -> outcome unit; (* 573, by attempt *)
  link_element : outcome string;               (* 584-587 *)
  order_span : outcome string;                 (* 596-599 *)
  location_element : outcome string;           (* 614-617 *)
  default_content_end : outcome unit;          (* 629 *)
  switch_main_end : outcome unit;              (* 630 *)
  relogin_fault : outcome handle               (* 645-646 *)
}.

(** ** Program state and the monad *)

(** The variables of [automate_search] that the loop changes, the rows
    appended to the sheet so far ([append_to_excel] calls, oldest
    first) and the commands issued so far.  [driver] counts the
    browsers started after the first one. *)
Record run_state : Type := {
  idx : nat;
  restart_count : nat;
  driver : nat;
  main_window : handle;
  popup_window : option handle;
  sheet : list (column * string);
  trace : list command
}.

(** How a piece of the loop body ends: it falls through with a value,
    executes [continue] or [break], or raises. *)
Inductive signal (A : Type) : Type :=
| Normal (a : A)
| LoopContinue
| LoopBreak
| Raised (e : exn).
Arguments Normal {A} a.
Arguments LoopContinue {A}.
Arguments LoopBreak {A}.
Arguments Raised {A} e.

Definition M (A : Type) : Type := run_state -> signal A * run_state.

Definition ret {A} (a : A) : M A := fun s => (Normal a, s).

Definition bind {A B} (m : M A) (k : A -> M B) : M B :=
  fun s =>
    match m s with
    | (Normal a, s') => k a s'
    | (LoopContinue, s') => (LoopContinue, s')
    | (LoopBreak, s') => (LoopBreak, s')
    | (Raised e, s') => (Raised e, s')
    end.

Notation "x <- m ;; k" := (bind m (fun x => k))
  (at level 61, m at next level, right associativity).
Notation "m ;; k" := (bind m (fun _ => k))
  (at level 61, right associativity).
Notation "' pat <- m ;; k" :=
  (bind m (fun x => match x with pat => k end))
  (at level 61, pat pattern, m at next level, right associativity).

(** [try: m  except: h] (also [except Exception]). *)
Definition try_except {A} (m : M A) (h : exn -> M A) : M A :=
  fun s =>
    match m s with
    | (Raised e, s') => h e s'
    | other => other
    end.

Definition continue_ {A} : M A := fun s => (LoopContinue, s).
Definition break_ {A} : M A := fun s => (LoopBreak, s).
Definition gets {A} (f : run_state -> A) : M A := fun s => (Normal (f s), s).

Definition record (c : command) (s : run_state) : run_state :=
  {| idx := idx s; restart_count := restart_count s; driver := driver s;
     main_window := main_window s; popup_window := popup_window s;
     sheet := sheet s; trace := trace s ++ [c] |}.

(** A driver call: the command is issued, the browser answers. *)
Definition call {A} (c : command) (o : outcome A) : M A :=
  fun s =>
    (match o with Returns a => Normal a | Raises e => Raised e end,
     record c s).

(** A call whose failure is passed over: [try: c  except: pass]. *)
Definition attempt (c : command) : M unit := fun s => (Normal tt, record c s).

Definition sleep (seconds : nat) : M unit := attempt (Sleep seconds).

(** [append_to_excel(output_excel, output_sheet, column, part_number)]:
    the part number goes under the column, below what is there. *)
Definition append_to_excel (c : column) (part_number : string) : M unit :=
  fun s =>
    (Normal tt,
     {| idx := idx s; restart_count := restart_count s; driver := driver s;
        main_window := main_window s; popup_window := popup_window s;
        sheet := sheet s ++ [(c, part_number)]; trace := trace s |}).

(** [idx += 1] *)
Definition incr_idx : M unit :=
  fun s =>
    (Normal tt,
     {| idx := S (idx s); restart_count := restart_count s;
        driver := driver s; main_window := main_window s;
        popup_window := popup_window s; sheet := sheet s;
        trace := trace s |}).

(** [restart_count += 1] *)
Definition incr_restart_count : M unit :=
  fun s =>
    (Normal tt,
     {| idx := idx s; restart_count := S (restart_count s);
        driver := driver s; main_window := main_window s;
        popup_window := popup_window s; sheet := sheet s;
        trace := trace s |}).

(** [driver = start_browser_and_login()] followed by
    [main_window = driver.current_window_handle], once both returned. *)
Definition set_driver (h : handle) : M unit :=
  fun s =>
    (Normal tt,
     {| idx := idx s; restart_count := restart_count s;
        driver := S (driver s); main_window := h;
        popup_window := popup_window s; sheet := sheet s;
        trace := trace s |}).

Definition set_popup_window (h : handle) : M unit :=
  fun s =>
    (Normal tt,
     {| idx := idx s; restart_count := restart_count s;
        driver := driver s; main_window := main_window s;
        popup_window := Some h; sheet := sheet s; trace := trace s |}).

(** ** The script *)

Definition max_restarts : nat := 50.

Definition search_results_marker : string := "/search/product?q=".

(** r'not\s+carried\s+in\s+your\s+rsc' *)
Definition not_carried_in_your_rsc : Py.regex :=
  Py.Cat (Py.word "not") (Py.Cat (Py.Plus Py.Space)
  (Py.Cat (Py.word "carried") (Py.Cat (Py.Plus Py.Space)
  (Py.Cat (Py.word "in") (Py.Cat (Py.Plus Py.Space)
  (Py.Cat (Py.word "your") (Py.Cat (Py.Plus Py.Space) (Py.word "rsc")))))))).

(** r'not\s+carried\s+by\s+rsc' *)
Definition not_carried_by_rsc : Py.regex :=
  Py.Cat (Py.word "not") (Py.Cat (Py.Plus Py.Space)
  (Py.Cat (Py.word "carried") (Py.Cat (Py.Plus Py.Space)
  (Py.Cat (Py.word "by") (Py.Cat (Py.Plus Py.Space) (Py.word "rsc")))))).

(** r'not\s+in\s+rsc' *)
Definition not_in_rsc : Py.regex :=
  Py.Cat (Py.word "not") (Py.Cat (Py.Plus Py.Space)
  (Py.Cat (Py.word "in") (Py.Cat (Py.Plus Py.Space) (Py.word "rsc")))).

(** r'cancel(?:led|lation)?|close(?:out|-out|d out)' *)
Definition cancelled_or_closeout : Py.regex :=
  Py.Alt
    (Py.Cat (Py.word "cancel")
            (Py.Opt (Py.Alt (Py.word "led") (Py.word "lation"))))
    (Py.Cat (Py.word "close")
            (Py.Alt (Py.word "out")
                    (Py.Alt (Py.word "-out") (Py.word "d out")))).

(** r'replacement|discontinued' *)
Definition replacement_or_discontinued : Py.regex :=
  Py.Alt (Py.word "replacement") (Py.word "discontinued").

(** The three "Not in RSC" searches of lines 528-530. *)
Definition matches_not_in_rsc (status_text : string) : bool :=
  Py.re_search not_carried_in_your_rsc status_text ||
  Py.re_search not_carried_by_rsc status_text ||
  Py.re_search not_in_rsc status_text.

(** The test of line 544. *)
Definition matches_cancelled (status_text : string) : bool :=
  Py.re_search cancelled_or_closeout status_text &&
  negb (Py.re_search replacement_or_discontinued status_text).

(** [is_driver_alive]: only a [WebDriverException] is caught. *)
Definition is_driver_alive (o : outcome string) : M bool :=
  fun s =>
    match call GetTitle o s with
    | (Normal _, s') => (Normal true, s')
    | (Raised WebDriverException, s') => (Normal false, s')
    | (Raised e, s') => (Raised e, s')
    | (LoopContinue, s') => (LoopContinue, s')
    | (LoopBreak, s') => (LoopBreak, s')
    end.

(** Lines 356-367: the health check before each part number.  It
    stands outside the try block of the loop body. *)
Definition health_check (r : responses) : M unit :=
  alive <- is_driver_alive (title r) ;;
  if alive then ret tt
  else
    attempt DriverQuit ;;
    incr_restart_count ;;
    count <- gets restart_count ;;
    if max_restarts <? count then break_
    else
      h <- call StartBrowserAndLogin (relogin_health r) ;;
      set_driver h.

(** The clean-up loop of lines 392-398 and 458-464: every handle other
    than the main window is switched to and closed, failures passed
    over.  [i] is the position of the head of [handles]. *)
Fixpoint close_popups (switch_r close_r : nat -> outcome unit)
    (i : nat) (handles : list handle) : M unit :=
  match handles with
  | [] => ret tt
  | h :: rest =>
      main <- gets main_window ;;
      (if negb (String.eqb h main) then
         try_except
           (call (SwitchToWindow h) (switch_r i) ;;
            call CloseWindow (close_r i))
           (fun _ => ret tt)
       else ret tt) ;;
      close_popups switch_r close_r (S i) rest
  end.

Definition switch_to_main (o : outcome unit) : M unit :=
  main <- gets main_window ;;
  call (SwitchToWindow main) o.

(** Lines 372-401: [sku_field] is located, after one reload of the home
    page if need be. *)
Definition locate_search_box (part_number : string) (r : responses) : M unit :=
  try_except
    (call (WaitSearchBox 10) (search_box_first r))
    (fun _ =>
       switch_to_main (switch_main_reload r) ;;
       call GetHome (get_home_reload r) ;;
       call (WaitSearchBox 20) (search_box_reload r) ;;
       sleep 2 ;;
       try_except
         (call (WaitSearchBox 10) (search_box_retry r))
         (fun _ =>
            append_to_excel NotInAceNet part_number ;;
            handles <- call WindowHandles (handles_skip r) ;;
            close_popups (popup_switch_skip r) (popup_close_skip r)
                         0 handles ;;
            switch_to_main (switch_main_skip r) ;;
            incr_idx ;;
            continue_)).

(** Lines 411-416: each window is visited for the debug print. *)
Fixpoint visit_windows (handles : list handle) : M unit :=
  match handles with
  | [] => ret tt
  | h :: rest => attempt (SwitchToWindow h) ;; visit_windows rest
  end.

(** Lines 409-445: the handles are listed for the debug print; when the
    listing itself fails the part number is written off and the
    browser restarted here. *)
Definition list_windows (part_number : string) (r : responses) : M unit :=
  try_except
    (handles <- call WindowHandles (handles_debug r) ;;
     visit_windows handles)
    (fun _ =>
       append_to_excel NotInAceNet part_number ;;
       attempt DriverQuit ;;
       attempt KillChrome ;;
       sleep 5 ;;
       incr_restart_count ;;
       count <- gets restart_count ;;
       if max_restarts <? count then break_
       else
         try_except
           (h <- call StartBrowserAndLogin (relogin_debug r) ;;
            set_driver h)
           (fun _ => break_) ;;
         incr_idx ;;
         continue_).

(** Lines 448-467: the main window was sent to the search results. *)
Definition check_redirect (part_number : string) (r : responses) : M unit :=
  main_url <- call CurrentUrl (current_url r) ;;
  if Py.contains search_results_marker main_url then
    append_to_excel NotInAceNet part_number ;;
    switch_to_main (switch_main_redirect r) ;;
    call GetHome (get_home_redirect r) ;;
    call (WaitSearchBox 20) (search_box_redirect r) ;;
    sleep 2 ;;
    handles <- call WindowHandles (handles_redirect r) ;;
    close_popups (popup_switch_redirect r) (popup_close_redirect r)
                 0 handles ;;
    switch_to_main (switch_main_home r) ;;
    incr_idx ;;
    continue_
  else ret tt.

(** Lines 468-479: the popup is the first handle that is not the main
    window. *)
Definition switch_to_popup (part_number : string) (r : responses) : M unit :=
  windows <- call WindowHandles (window_handles r) ;;
  if length windows <? 2 then
    append_to_excel NotInAceNet part_number ;;
    incr_idx ;;
    continue_
  else
    main <- gets main_window ;;
    match find (fun w => negb (String.eqb w main)) windows with
    | Some w =>
        set_popup_window w ;;
        call (SwitchToWindow w) (switch_popup r)
    | None => ret tt
    end.

(** Lines 493-510: the frames are entered in turn, frame [i] first,
    [n] of them left; the result is [iframe_switched]. *)
Fixpoint try_iframes (r : responses) (i n : nat) : M bool :=
  match n with
  | 0 => ret false
  | S n' =>
      found <-
        try_except
          (call (SwitchToFrame i) (frame_switch r i) ;;
           try_except
             (call FindDiscovery (frame_probe r i) ;;
              ret true)
             (fun _ =>
                call PageSource (frame_page_source r i) ;;
                call SwitchToDefaultContent (frame_default_inner r i) ;;
                ret false))
          (fun _ =>
             call SwitchToDefaultContent (frame_default_outer r i) ;;
             ret false) ;;
      if found then ret true else try_iframes r (S i) n'
  end.

(** Lines 480-516: the result is [iframe_switched], which is [True]
    whenever this falls through. *)
Definition enter_iframe (part_number : string) (r : responses) : M bool :=
  count <-
    try_except
      (call WaitIframes (iframes r))
      (fun _ =>
         append_to_excel NotInAceNet part_number ;;
         switch_to_main (switch_main_no_iframes r) ;;
         incr_idx ;;
         continue_) ;;
  iframe_switched <- try_iframes r 0 count ;;
  if negb iframe_switched then
    append_to_excel NotInAceNet part_number ;;
    switch_to_main (switch_main_no_frame r) ;;
    incr_idx ;;
    continue_
  else ret iframe_switched.

(** Lines 517-556, "Step 3: Checking Cancelled"; the result is
    [is_cancelled] as it stands after line 556. *)
Definition check_cancelled (part_number : string) (iframe_switched : bool)
    (r : responses) : M bool :=
  is_cancelled <-
    try_except
      (raw <- call WaitStatusDiv (status_div r) ;;
       let status_text := Py.strip raw in
       is_not_in_rsc <-
         (if Py.truthy status_text && matches_not_in_rsc status_text then
            append_to_excel NotInRSC part_number ;;
            ret true
          else ret false) ;;
       if is_not_in_rsc : bool then
         (if iframe_switched then
            call SwitchToDefaultContent (default_content_rsc r)
          else ret tt) ;;
         switch_to_main (switch_main_rsc r) ;;
         incr_idx ;;
         continue_
       else
         if Py.truthy status_text && matches_cancelled status_text then
           append_to_excel Cancelled part_number ;;
           ret true
         else ret false)
      (fun _ => ret false) ;;
  if is_cancelled : bool then
    (if iframe_switched then
       call SwitchToDefaultContent (default_content_cancelled r)
     else ret tt) ;;
    switch_to_main (switch_main_cancelled r) ;;
    incr_idx ;;
    continue_
  else ret is_cancelled.

(** [max_attempts = 3 if idx == 0 else 2] *)
Definition max_attempts (i : nat) : nat := if i =? 0 then 3 else 2.

(** Lines 561-578: attempt number [attempt], [n] attempts left; the
    result is ([element_found], [discovery_text]). *)
Fixpoint probe_discovery (r : responses) (limit attempt n : nat)
    : M (bool * string) :=
  match n with
  | 0 => ret (false, "")
  | S n' =>
      found <-
        try_except
          (raw <- call WaitDiscovery (content_div r attempt) ;;
           ret (Some (Py.strip raw)))
          (fun _ =>
             call PageSource (discovery_page_source r attempt) ;;
             (if attempt <? limit - 1 then sleep 3 else ret tt) ;;
             ret None) ;;
      match found with
      | Some discovery_text => ret (true, discovery_text)
      | None => probe_discovery r limit (S attempt) n'
      end
  end.

(** Lines 557-581, "Step 1: Checking No Discovery element". *)
Definition check_discovery (part_number : string) (is_cancelled : bool)
    (r : responses) : M unit :=
  i <- gets idx ;;
  let limit := max_attempts i in
  '(element_found, discovery_text) <- probe_discovery r limit 0 limit ;;
  if (negb element_found || negb (Py.truthy (Py.strip discovery_text)))
     && negb is_cancelled
  then append_to_excel NoDiscovery part_number
  else ret tt.

(** Lines 582-593, "Step 2: Checking for non-blank text with no
    asterisk". *)
Definition check_asterisk (part_number : string) (r : responses) : M unit :=
  try_except
    (raw <- call WaitLink (link_element r) ;;
     let link_text := Py.strip raw in
     if Py.truthy link_text && negb (Py.contains "*" link_text)
     then append_to_excel NoAsterisk part_number
     else ret tt)
    (fun _ => ret tt).

(** Lines 594-611, "Step 4: Checking On Order". *)
Definition check_on_order (part_number : string) (r : responses) : M unit :=
  try_except
    (raw <- call WaitOrderSpan (order_span r) ;;
     let order_text := Py.strip raw in
     match Py.float order_text with
     | Some order_value =>
         if Py.gt_zero order_value
         then append_to_excel OnOrder part_number
         else ret tt
     | None => ret tt
     end)
    (fun _ => ret tt).

(** Lines 612-627, "Step 5: Checking No Location". *)
Definition check_location (part_number : string) (r : responses) : M unit :=
  try_except
    (raw <- call WaitLocation (location_element r) ;;
     let location_text := Py.strip raw in
     if negb (Py.truthy location_text)
     then append_to_excel NoLocation part_number
     else ret tt)
    (fun _ => append_to_excel NoLocation part_number).

(** Lines 557-631: the four rules that are tried one after the other
    when neither status rule ended the pass, and the way back to the
    main window. *)
Definition independent_rules (part_number : string)
    (iframe_switched is_cancelled : bool) (r : responses) : M unit :=
  check_discovery part_number is_cancelled r ;;
  check_asterisk part_number r ;;
  check_on_order part_number r ;;
  check_location part_number r ;;
  (if iframe_switched then
     call SwitchToDefaultContent (default_content_end r)
   else ret tt) ;;
  switch_to_main (switch_main_end r) ;;
  incr_idx.

(** Lines 517-631: what is done once a frame with the discovery
    element has been entered. *)
Definition extract_fields (part_number : string) (iframe_switched : bool)
    (r : responses) : M unit :=
  is_cancelled <- check_cancelled part_number iframe_switched r ;;
  independent_rules part_number iframe_switched is_cancelled r.

(** Lines 369-446: the part number is typed into the search box, the
    script sleeps, lists the windows and returns to the main one. *)
Definition submit_part_number (part_number : string) (total : nat)
    (r : responses) : M unit :=
  i <- gets idx ;;
  call (UpdateStatus (i + 1) total) (update_status r) ;;
  switch_to_main (switch_main_start r) ;;
  locate_search_box part_number r ;;
  call (SubmitSearch part_number) (submit_search r) ;;
  sleep (if i =? 0 then 10 else 1) ;;
  list_windows part_number r ;;
  switch_to_main (switch_main_search r).

(** Lines 369-516: from the search to the frame that holds the
    discovery element; the result is [iframe_switched]. *)
Definition navigate (part_number : string) (total : nat) (r : responses)
    : M bool :=
  submit_part_number part_number total r ;;
  check_redirect part_number r ;;
  switch_to_popup part_number r ;;
  enter_iframe part_number r.

(** Lines 369-631: the body of the try block. *)
Definition process (part_number : string) (total : nat) (r : responses)
    : M unit :=
  iframe_switched <- navigate part_number total r ;;
  extract_fields part_number iframe_switched r.

(** Lines 632-651: the handler of the try block. *)
Definition recover (part_number : string) (r : responses) : M unit :=
  append_to_excel NotInAceNet part_number ;;
  attempt DriverQuit ;;
  incr_restart_count ;;
  count <- gets restart_count ;;
  if max_restarts <? count then break_
  else
    try_except
      (h <- call StartBrowserAndLogin (relogin_fault r) ;;
       set_driver h)
      (fun _ => break_) ;;
    incr_idx ;;
    continue_.

(** Lines 354-651: one pass of the while loop. *)
Definition iteration (part_number : string) (total : nat) (r : responses)
    : M unit :=
  health_check r ;;
  try_except (process part_number total r) (fun _ => recover part_number r).

(** How the run ends: the loop condition fails, a [break] is executed,
    or an exception leaves the loop for the handler of line 661.
    [OutOfFuel] is the model's own and never the result of
    [automate_search]. *)
Inductive run_end : Type :=
| NoPartNumbers
| AllProcessed
| Aborted
| UnexpectedError (e : exn)
| OutOfFuel.

(** Lines 353-651: [while idx < len(part_numbers)].  [world i] are the
    browser's answers while [idx] is [i]. *)
Fixpoint while_loop (fuel : nat) (part_numbers : list string)
    (world : nat -> responses) (s : run_state) : run_end * run_state :=
  if idx s <? length part_numbers then
    match fuel with
    | 0 => (OutOfFuel, s)
    | S fuel' =>
        let part_number := nth (idx s) part_numbers "" in
        match iteration part_number (length part_numbers)
                        (world (idx s)) s with
        | (Normal _, s') => while_loop fuel' part_numbers world s'
        | (LoopContinue, s') => while_loop fuel' part_numbers world s'
        | (LoopBreak, s') => (Aborted, s')
        | (Raised e, s') => (UnexpectedError e, s')
        end
    end
  else (AllProcessed, s).

Definition initial_state (main : handle) : run_state :=
  {| idx := 0; restart_count := 0; driver := 0; main_window := main;
     popup_window := None; sheet := []; trace := [] |}.

(** [automate_search], from the part numbers read from the workbook
    and the outcome of the first login (lines 326-350) on. *)
Definition automate_search (part_numbers : list string)
    (login : outcome handle) (world : nat -> responses)
    : run_end * run_state :=
  match part_numbers with
  | [] => (NoPartNumbers, initial_state "")
  | _ :: _ =>
      match login with
      | Raises e => (UnexpectedError e, initial_state "")
      | Returns main =>
          while_loop (length part_numbers) part_numbers world
                     (initial_state main)
      end
  end.

(** ** Vocabulary of the statements *)

(** [s] with [tr] added to the commands issued. *)
Definition extend (tr : list command) (s : run_state) : run_state :=
  {| idx := idx s; restart_count := restart_count s; driver := driver s;
     main_window := main_window s; popup_window := popup_window s;
     sheet := sheet s; trace := trace s ++ tr |}.

(** The rows one pass of the loop appends to the sheet. *)
Definition rows_of_pass (part_number : string) (total : nat)
    (r : responses) (s : run_state) : list (column * string) :=
  skipn (length (sheet s)) (sheet (snd (iteration part_number total r s))).

(** The commands that look for frames or read a field of the item
    page. *)
Definition frame_or_field_command (c : command) : bool :=
  match c with
  | WaitIframes | SwitchToFrame _ | FindDiscovery
  | WaitStatusDiv | WaitDiscovery | WaitLink | WaitOrderSpan
  | WaitLocation => true
  | _ => false
  end.

(** The health check passed (with or without a restart) and the search
    was submitted: the pass stands before line 448, in state [s1]. *)
Definition reaches_address_check (part_number : string) (total : nat)
    (r : responses) (s s1 : run_state) : Prop :=
  exists s0,
    health_check r s = (Normal tt, s0) /\
    submit_part_number part_number total r s0 = (Normal tt, s1).

(** The pass stands before line 517, inside a frame. *)
Definition reaches_extraction (part_number : string) (total : nat)
    (r : responses) (s : run_state) (iframe_switched : bool)
    (s1 : run_state) : Prop :=
  exists s0,
    health_check r s = (Normal tt, s0) /\
    navigate part_number total r s0 = (Normal iframe_switched, s1).

(** The pass stands before line 557: neither status rule ended it. *)
Definition reaches_discovery (part_number : string) (total : nat)
    (r : responses) (s : run_state) (is_cancelled : bool)
    (s2 : run_state) : Prop :=
  exists iframe_switched s1,
    reaches_extraction part_number total r s iframe_switched s1 /\
    check_cancelled part_number iframe_switched r s1
      = (Normal is_cancelled, s2).

(** The pass stands before line 594. *)
Definition reaches_on_order (part_number : string) (total : nat)
    (r : responses) (s s4 : run_state) : Prop :=
  exists is_cancelled s2 s3,
    reaches_discovery part_number total r s is_cancelled s2 /\
    check_discovery part_number is_cancelled r s2 = (Normal tt, s3) /\
    check_asterisk part_number r s3 = (Normal tt, s4).

(** The discovery element is absent at each of the first [n]
    attempts. *)
Definition discovery_absent (r : responses) (n : nat) : Prop :=
  forall a, a < n -> exists e, content_div r a = Raises e.

(** Attempt [a] is the first that finds the discovery element, and its
    text is empty once trimmed. *)
Definition discovery_blank_at (r : responses) (a : nat) : Prop :=
  discovery_absent r a /\
  exists raw, content_div r a = Returns raw /\ Py.strip raw = "".

(** A session failure as the loop meets it: the liveness probe finds
    the driver dead, or the try block raises. *)
Definition session_failure (part_number : string) (total : nat)
    (r : responses) (s : run_state) : Prop :=
  title r = Raises WebDriverException \/
  exists s0 e s1,
    health_check r s = (Normal tt, s0) /\
    process part_number total r s0 = (Raised e, s1).

(** The texts a regular expression stands for, case ignored: what
    [Py.re_search] is measured against. *)
Inductive denotes : Py.regex -> string -> Prop :=
| DEps : denotes Py.Eps ""
| DLit c a : Py.lower a = Py.lower c -> denotes (Py.Lit c) (String a "")
| DSpace a : Py.isspace a = true -> denotes Py.Space (String a "")
| DCat r1 r2 u v :
    denotes r1 u -> denotes r2 v -> denotes (Py.Cat r1 r2) (u ++ v)
| DAltL r1 r2 u : denotes r1 u -> denotes (Py.Alt r1 r2) u
| DAltR r1 r2 u : denotes r2 u -> denotes (Py.Alt r1 r2) u
| DStarNil r : denotes (Py.Star r) ""
| DStarApp r u v :
    denotes r u -> denotes (Py.Star r) v -> denotes (Py.Star r) (u ++ v).

Definition all_columns : list column :=
  [NoDiscovery; NoAsterisk; Cancelled; OnOrder; NoLocation; NotInAceNet;
   NotInRSC].

(** What the handler of the try block makes of the way its body
    ended. *)
Definition settle (part_number : string) (r : responses)
    (res : signal unit * run_state) : signal unit * run_state :=
  match res with
  | (Raised _, s') => recover part_number r s'
  | other => other
  end.

(** The order quantity as line 602 gets it: the number the text of the
    display parses to, if the display is there and its text is a
    number. *)
Definition order_quantity (o : outcome string) : option Py.pyfloat :=
  match o with
  | Returns raw => Py.float (Py.strip raw)
  | Raises _ => None
  end.

(** What the discovery step issues when the element is absent at each
    of [n] attempts: a wait and the page source for the debug print
    each time, and a sleep of three seconds between two attempts. *)
Fixpoint retry_commands (n : nat) : list command :=
  match n with
  | 0 => []
  | S n' =>
      match n' with
      | 0 => [WaitDiscovery; PageSource]
      | S _ => [WaitDiscovery; PageSource; Sleep 3] ++ retry_commands n'
      end
  end.

(** The state after the health check found the driver dead and a new
    browser, with main window [h], was started. *)
Definition restarted (h : handle) (s : run_state) : run_state :=
  {| idx := idx s; restart_count := S (restart_count s);
     driver := S (driver s); main_window := h;
     popup_window := popup_window s; sheet := sheet s;
     trace := trace s ++ [GetTitle; DriverQuit; StartBrowserAndLogin] |}.

(** What the clean-up loop issues for the handle [h], [o] being the
    answer to the switch: nothing for the main window; for any other
    handle the switch, and the close when the switch returned. *)
Definition cleanup_block (main h : handle) (o : outcome unit)
    : list command :=
  if String.eqb h main then []
  else
    match o with
    | Returns _ => [SwitchToWindow h; CloseWindow]
    | Raises _ => [SwitchToWindow h]
    end.

(** What the clean-up loop issues for [handles], the first of them at
    position [i]; [sw] answers the switches. *)
Fixpoint cleanup_commands (sw : nat -> outcome unit) (main : handle)
    (i : nat) (handles : list handle) : list command :=
  match handles with
  | [] => []
  | h :: rest =>
      cleanup_block main h (sw i) ++ cleanup_commands sw main (S i) rest
  end.

(** No command of [tr] looks for a frame or reads a field. *)
Definition no_field_read (tr : list command) : Prop :=
  Forall (fun c => frame_or_field_command c = false) tr.

(** The reads of the page source made for the debug print after each
    of the first [n] failed attempts return. *)
Definition page_source_read (r : responses) (n : nat) : Prop :=
  forall a, a < n -> discovery_page_source r a = Returns tt.

(** The probing is cut short at attempt [a]: the discovery element is
    absent up to that attempt, the page source was read after the
    earlier attempts and its read raises after this one. *)
Definition probe_cut_short (r : responses) (a : nat) : Prop :=
  discovery_absent r (S a) /\
  page_source_read r a /\
  exists e, discovery_page_source r a = Raises e.

(** After a redirect to the search results, the reload of the home
    page and the clean-up of the windows (lines 452-465) go through:
    each of the five calls outside a try block of its own returns. *)
Definition redirect_cleared (r : responses) : Prop :=
  switch_main_redirect r = Returns tt /\
  get_home_redirect r = Returns tt /\
  search_box_redirect r = Returns tt /\
  (exists handles, handles_redirect r = Returns handles) /\
  switch_main_home r = Returns tt.

(** The status element is there and its text, trimmed, satisfies [p]
    (lines 521-524). *)
Definition status_matches (p : string -> bool) (r : responses) : bool :=
  match status_div r with
  | Returns raw => p (Py.strip raw)
  | Raises _ => false
  end.

(** The way back to the main window after the "Cancelled" row (lines
    552-554) goes through. *)
Definition cancelled_return (r : responses) : Prop :=
  default_content_cancelled r = Returns tt /\
  switch_main_cancelled r = Returns tt.

(** The way back to the main window after the "Not in RSC" row (lines
    536-538) goes through. *)
Definition rsc_return (r : responses) : Prop :=
  default_content_rsc r = Returns tt /\ switch_main_rsc r = Returns tt.

(** ** Browsers for the examples

    [scenario failing url handles status content link order location]
    answers every call normally except those on the lines listed in
    [failing], which raise [WebDriverException].  The main window is
    "main"; [handles] is what every listing of the windows returns;
    the five texts are what the five field reads return or raise. *)
Definition line {A} (failing : list nat) (n : nat) (a : A) : outcome A :=
  if existsb (Nat.eqb n) failing then Raises WebDriverException
  else Returns a.

Definition scenario (failing : list nat) (url : string)
    (handles : list handle)
    (status content link order location : outcome string) : responses :=
  {| title := line failing 297 "AceNet";
     relogin_health := line failing 366 "main";
     update_status := line failing 370 tt;
     switch_main_start := line failing 371 tt;
     search_box_first := line failing 373 tt;
     switch_main_reload := line failing 378 tt;
     get_home_reload := line failing 379 tt;
     search_box_reload := line failing 380 tt;
     search_box_retry := line failing 385 tt;
     handles_skip := line failing 392 handles;
     popup_switch_skip := fun _ => line failing 395 tt;
     popup_close_skip := fun _ => line failing 396 tt;
     switch_main_skip := line failing 399 tt;
     submit_search := line failing 402 tt;
     handles_debug := line failing 411 handles;
     relogin_debug := line failing 439 "main";
     switch_main_search := line failing 446 tt;
     current_url := line failing 448 url;
     switch_main_redirect := line failing 452 tt;
     get_home_redirect := line failing 453 tt;
     search_box_redirect := line failing 454 tt;
     handles_redirect := line failing 458 handles;
     popup_switch_redirect := fun _ => line failing 461 tt;
     popup_close_redirect := fun _ => line failing 462 tt;
     switch_main_home := line failing 465 tt;
     window_handles := line failing 468 handles;
     switch_popup := line failing 477 tt;
     iframes := line failing 482 1;
     switch_main_no_iframes := line failing 488 tt;
     frame_switch := fun _ => line failing 495 tt;
     frame_probe := fun _ => line failing 498 tt;
     frame_page_source := fun _ => line failing 504 tt;
     frame_default_inner := fun _ => line failing 506 tt;
     frame_default_outer := fun _ => line failing 510 tt;
     switch_main_no_frame := line failing 514 tt;
     status_div := status;
     default_content_rsc := line failing 537 tt;
     switch_main_rsc := line failing 538 tt;
     default_content_cancelled := line failing 553 tt;
     switch_main_cancelled := line failing 554 tt;
     content_div := fun _ => content;
     discovery_page_source := fun _ => line failing 573 tt;
     link_element := link;
     order_span := order;
     location_element := location;
     default_content_end := line failing 629 tt;
     switch_main_end := line failing 630 tt;
     relogin_fault := line failing 645 "main" |}.

Definition home_url : string := "https://acenet.aceservices.com/".
Definition absent : outcome string := Raises WebDriverException.

(** An item page: a popup with one frame, the address unchanged. *)
Definition item_page (failing : list nat)
    (status content link order location : outcome string) : responses :=
  scenario failing home_url ["main"; "popup"]
           status content link order location.

(** Three part numbers; the driver is found dead before the second. *)
Definition probe_world (i : nat) : responses :=
  if i =? 1
  then item_page [297] (Returns "Active") (Returns "Garden hose")
                 (Returns "Details*") (Returns "0") (Returns "Aisle 4")
  else item_page [] (Returns "Active") (Returns "Garden hose")
                 (Returns "Details*") (Returns "3") (Returns "Aisle 4").

(** Relations between the state before and after a piece of the loop
    body that do not look at the commands issued. *)
Class StateRel (R : run_state -> run_state -> Prop) : Prop := {
  rel_refl : forall s, R s s;
  rel_trans : forall a b c, R a b -> R b c -> R a c;
  rel_record : forall c s, R s (record c s)
}.

(** Whatever way [m] ends, the states before and after are related. *)
Definition preserves (R : run_state -> run_state -> Prop) {A} (m : M A)
    : Prop :=
  forall s, R s (snd (m s)).

(** Only rows of [part_number] under the columns [cols] were added. *)
Definition appended (cols : list column) (part_number : string)
    (s s' : run_state) : Prop :=
  exists rows,
    sheet s' = sheet s ++ rows /\
    Forall (fun row => In (fst row) cols /\ snd row = part_number) rows.

(** No restart took place: the count, the browser and its main window
    are the same. *)
Definition same_browser (s s' : run_state) : Prop :=
  restart_count s' = restart_count s /\
  driver s' = driver s /\
  main_window s' = main_window s.

Definition same_sheet (s s' : run_state) : Prop := sheet s' = sheet s.

(** [m] falls through or raises, and leaves [idx] and [restart_count]
    alone. *)
Definition plain {A} (m : M A) : Prop :=
  forall s,
    idx (snd (m s)) = idx s /\
    restart_count (snd (m s)) = restart_count s /\
    match fst (m s) with
    | Normal _ | Raised _ => True
    | LoopContinue | LoopBreak => False
    end.

(** How [idx] and [restart_count] move with the way a piece ends:
    [continue] comes with [idx + 1], a restart with [restart_count + 1]
    and, when the loop goes on, a count within [max_restarts]. *)
Definition vars_post {A} (s : run_state) (sig : signal A) (s' : run_state)
    : Prop :=
  match sig with
  | Normal _ | Raised _ =>
      idx s' = idx s /\ restart_count s' = restart_count s
  | LoopContinue =>
      idx s' = S (idx s) /\
      (restart_count s' = restart_count s \/
       (restart_count s' = S (restart_count s) /\
        restart_count s' <= max_restarts))
  | LoopBreak =>
      idx s' = idx s /\ restart_count s' = S (restart_count s)
  end.

Definition vars_ok {A} (m : M A) : Prop :=
  forall s, vars_post s (fst (m s)) (snd (m s)).

(** A piece of the navigation adds nothing to the sheet when it falls
    through, and at most one "Not in AceNet" row otherwise. *)
Definition nav_post {A} (part_number : string) (s : run_state)
    (sig : signal A) (s' : run_state) : Prop :=
  match sig with
  | Normal _ => sheet s' = sheet s
  | _ =>
      sheet s' = sheet s \/
      sheet s' = sheet s ++ [(NotInAceNet, part_number)]
  end.

Definition nav_ok {A} (part_number : string) (m : M A) : Prop :=
  forall s, nav_post part_number s (fst (m s)) (snd (m s)).

Definition never_normal {A} (m : M A) : Prop :=
  forall s, match fst (m s) with Normal _ => False | _ => True end.

(** A piece that ends with [idx += 1] when it falls through. *)
Definition ends_incr {A} (m : M A) : Prop :=
  forall s,
    match fst (m s) with
    | Normal _ =>
        idx (snd (m s)) = S (idx s) /\
        restart_count (snd (m s)) = restart_count s
    | Raised _ =>
        idx (snd (m s)) = idx s /\
        restart_count (snd (m s)) = restart_count s
    | LoopContinue | LoopBreak => False
    end.

(** How [idx] and [restart_count] stand after the try block. *)
Definition pass_post (s : run_state) (sig : signal unit) (s' : run_state)
    : Prop :=
  match sig with
  | Normal _ | LoopContinue =>
      idx s' = S (idx s) /\
      (restart_count s' = restart_count s \/
       (restart_count s' = S (restart_count s) /\
        restart_count s' <= max_restarts))
  | LoopBreak => idx s' = idx s /\ restart_count s' = S (restart_count s)
  | Raised _ => idx s' = idx s /\ restart_count s' = restart_count s
  end.

(** How [idx] and [restart_count] stand after one pass of the loop:
    the loop goes on with the next part number and a count within
    [max_restarts], or it stops where it is. *)
Definition iteration_post (s : run_state) (sig : signal unit)
    (s' : run_state) : Prop :=
  restart_count s <= restart_count s' /\
  (restart_count s <= max_restarts ->
   restart_count s' <= S max_restarts) /\
  match sig with
  | Normal _ | LoopContinue =>
      idx s' = S (idx s) /\
      (restart_count s <= max_restarts ->
       restart_count s' <= max_restarts)
  | LoopBreak => idx s' = idx s
  | Raised _ =>
      idx s' = idx s /\
      (restart_count s <= max_restarts ->
       restart_count s' <= max_restarts)
  end.

(** *** Whole runs *)

(** The browsers started between two states are paid for by restarts
    counted, and only by restarts within [max_restarts]. *)
Definition within_budget (s s' : run_state) : Prop :=
  restart_count s <= restart_count s' /\
  driver s <= driver s' /\
  driver s' + Nat.min (restart_count s) max_restarts
  <= driver s + Nat.min (restart_count s') max_restarts.

(** The rows [rows] carry the part numbers at the positions [ks] of the
    input, which go upwards from [lo] and stay inside the input. *)
Definition at_positions (part_numbers : list string) (lo : nat)
    (rows : list (column * string)) (ks : list nat) : Prop :=
  map snd rows = map (fun i => nth i part_numbers "") ks /\
  StronglySorted le ks /\
  Forall (fun i => lo <= i < length part_numbers) ks.

(** [l] is [m] with some elements left out. *)
Inductive subsequence {A} : list A -> list A -> Prop :=
| SubNil : subsequence [] []
| SubSkip x l m : subsequence l m -> subsequence l (x :: m)
| SubTake x l m : subsequence l m -> subsequence (x :: l) (x :: m).

(** The order in which one pass of the loop can write its rows: the
    row of the navigation, the two status rules, the four independent
    rules, the row of the fault handler. *)
Definition pass_order : list column :=
  [NotInAceNet; NotInRSC; Cancelled; NoDiscovery; NoAsterisk; OnOrder;
   NoLocation; NotInAceNet].

(** Between [s] and [s'] rows of [part_number] were added, under columns
    taken from [cols] in that order, each at most once. *)
Definition wrote (cols : list column) (part_number : string)
    (s s' : run_state) : Prop :=
  exists used,
    subsequence used cols /\
    sheet s' = sheet s ++ map (fun c => (c, part_number)) used.

(** Frame [i] is entered and holds the discovery element. *)
Definition frame_holds (r : responses) (i : nat) : Prop :=
  frame_switch r i = Returns tt /\ frame_probe r i = Returns tt.

(** The text has a character that [strip] keeps. *)
Definition visible (raw : string) : Prop :=
  exists c, In c (list_ascii_of_string raw) /\ Py.isspace c = false.

(** A piece that starts at most one browser and leaves the count of
    restarts alone. *)
Definition one_browser {A} (m : M A) : Prop :=
  forall s,
    restart_count (snd (m s)) = restart_count s /\
    driver s <= driver (snd (m s)) <= S (driver s).

(** Whatever way [m] ends, it wrote rows under [cols], in that order. *)
Definition writes (cols : list column) (part_number : string) {A} (m : M A)
    : Prop :=
  forall s, wrote cols part_number s (snd (m s)).

(** [r] with another answer to the read of the title. *)
Definition with_title (o : outcome string) (r : responses) : responses :=
  {| title := o;
     relogin_health := relogin_health r;
     update_status := update_status r;
     switch_main_start := switch_main_start r;
     search_box_first := search_box_first r;
     switch_main_reload := switch_main_reload r;
     get_home_reload := get_home_reload r;
     search_box_reload := search_box_reload r;
     search_box_retry := search_box_retry r;
     handles_skip := handles_skip r;
     popup_switch_skip := popup_switch_skip r;
     popup_close_skip := popup_close_skip r;
     switch_main_skip := switch_main_skip r;
     submit_search := submit_search r;
     handles_debug := handles_debug r;
     relogin_debug := relogin_debug r;
     switch_main_search := switch_main_search r;
     current_url := current_url r;
     switch_main_redirect := switch_main_redirect r;
     get_home_redirect := get_home_redirect r;
     search_box_redirect := search_box_redirect r;
     handles_redirect := handles_redirect r;
     popup_switch_redirect := popup_switch_redirect r;
     popup_close_redirect := popup_close_redirect r;
     switch_main_home := switch_main_home r;
     window_handles := window_handles r;
     switch_popup := switch_popup r;
     iframes := iframes r;
     switch_main_no_iframes := switch_main_no_iframes r;
     frame_switch := frame_switch r;
     frame_probe := frame_probe r;
     frame_page_source := frame_page_source r;
     frame_default_inner := frame_default_inner r;
     frame_default_outer := frame_default_outer r;
     switch_main_no_frame := switch_main_no_frame r;
     status_div := status_div r;
     default_content_rsc := default_content_rsc r;
     switch_main_rsc := switch_main_rsc r;
     default_content_cancelled := default_content_cancelled r;
     switch_main_cancelled := switch_main_cancelled r;
     content_div := content_div r;
     discovery_page_source := discovery_page_source r;
     link_element := link_element r;
     order_span := order_span r;
     location_element := location_element r;
     default_content_end := default_content_end r;
     switch_main_end := switch_main_end r;
     relogin_fault := relogin_fault r |}.

(** ** The output workbook

    The workbook the script writes has one sheet.  A column of the
    sheet is the list of its cells from row 1 down, blank below its
    end; a cell has a value ([None] or a text) and a font.  The file
    is loaded and saved at every call; whether the disk lets it is an
    input ([disk]), one answer per attempt.  The pauses between two
    attempts are not modelled. *)
Module Excel.

Definition value := option string.

(** [if v:] *)
Definition truthy (v : value) : bool :=
  match v with Some s => Py.truthy s | None => false end.

(** [str(v)] *)
Definition str (v : value) : string :=
  match v with Some s => s | None => "None" end.

Record font : Type := { bold : bool; color : option string }.

Definition default_font : font := {| bold := false; color := None |}.
(** [Font(bold=True)] *)
Definition bold_font : font := {| bold := true; color := None |}.
(** [Font(color="FF0000")] *)
Definition red_font : font := {| bold := false; color := Some "FF0000" |}.

Record cell : Type := { cell_value : value; cell_font : font }.

Definition blank : cell := {| cell_value := None; cell_font := default_font |}.

(** A column width: the default, a number, or [len * 1.2]. *)
Inductive width : Type :=
| DefaultWidth
| Fixed (w : nat)
| Scaled (len : nat).

Record worksheet : Type := {
  ws_title : string;
  ws_cells : string -> list cell;
  ws_widths : string -> width
}.

(** [ws[f'{col}{row}']] *)
Definition cell_at (ws : worksheet) (col : string) (row : nat) : cell :=
  nth (row - 1) (ws_cells ws col) blank.

Fixpoint update (n : nat) (f : cell -> cell) (l : list cell) : list cell :=
  match n, l with
  | 0, [] => [f blank]
  | 0, c :: t => f c :: t
  | S n', [] => blank :: update n' f []
  | S n', c :: t => c :: update n' f t
  end.

Definition set_cell (ws : worksheet) (col : string) (row : nat)
    (f : cell -> cell) : worksheet :=
  {| ws_title := ws_title ws;
     ws_cells := fun c =>
       if String.eqb c col then update (row - 1) f (ws_cells ws c)
       else ws_cells ws c;
     ws_widths := ws_widths ws |}.

(** [ws[f'{col}{row}'] = v] *)
Definition set_value (ws : worksheet) (col : string) (row : nat) (v : value)
    : worksheet :=
  set_cell ws col row
           (fun c => {| cell_value := v; cell_font := cell_font c |}).

(** [ws[f'{col}{row}'].font = f] *)
Definition set_font (ws : worksheet) (col : string) (row : nat) (f : font)
    : worksheet :=
  set_cell ws col row
           (fun c => {| cell_value := cell_value c; cell_font := f |}).

(** [ws.column_dimensions[col].width = w] *)
Definition set_width (ws : worksheet) (col : string) (w : width)
    : worksheet :=
  {| ws_title := ws_title ws;
     ws_cells := ws_cells ws;
     ws_widths := fun c => if String.eqb c col then w else ws_widths ws c |}.

(** The file on the disk: missing, or a workbook with its one sheet. *)
Definition file := option worksheet.

(** What the disk allows at one attempt: whether [load_workbook]
    returns, and whether [wb.save] does. *)
Record io : Type := { can_load : bool; can_save : bool }.

(** *** [initialize_excel_output] *)

Definition headers : list (string * string) :=
  [("A", "No Discovery"); ("C", "No Asterisk(*)"); ("E", "Cancelled");
   ("G", "On Order"); ("I", "No Location"); ("K", "Not in AceNet");
   ("M", "Not in RSC")].

(** [openpyxl.Workbook()] with its sheet renamed. *)
Definition new_sheet (sheet_name : string) : worksheet :=
  {| ws_title := sheet_name;
     ws_cells := fun _ => [];
     ws_widths := fun _ => DefaultWidth |}.

(** [len(v)] of a header just written, which is a text. *)
Definition len (v : value) : nat :=
  match v with Some s => String.length s | None => 0 end.

(** Lines 75-92. *)
Definition initialize_sheet (sheet_name : string) : worksheet :=
  let ws :=
    fold_left (fun ws h => set_value ws (fst h) 1 (Some (snd h)))
              headers (new_sheet sheet_name) in
  let ws :=
    fold_left
      (fun ws col =>
         set_width (set_font ws col 1 bold_font) col
                   (Scaled (len (cell_value (cell_at ws col 1)))))
      ["A"; "C"; "E"; "G"; "I"; "K"; "M"] ws in
  fold_left (fun ws col => set_width ws col (Fixed 2))
            ["B"; "D"; "F"; "H"; "J"; "L"] ws.

(** Lines 73-102: [n] attempts left; the save of attempt [attempt]
    succeeds or raises.  The result is [Returns tt], or the exception
    raised after the last attempt. *)
Fixpoint initialize_attempts (n attempt : nat) (disk : nat -> io)
    (f : file) (sheet_name : string) : outcome unit * file :=
  match n with
  | 0 => (Raises OtherException, f)
  | S n' =>
      if can_save (disk attempt)
      then (Returns tt, Some (initialize_sheet sheet_name))
      else initialize_attempts n' (S attempt) disk f sheet_name
  end.

Definition initialize_excel_output (disk : nat -> io) (f : file)
    (sheet_name : string) : outcome unit * file :=
  initialize_attempts 5 0 disk f sheet_name.

(** *** [append_to_excel] *)

Definition column_map : list (string * string) :=
  [("No Discovery", "A"); ("No Asterisk(*)", "C"); ("Cancelled", "E");
   ("On Order", "G"); ("No Location", "I"); ("Not in AceNet", "K");
   ("Not in RSC", "M")].

(** [d.get(key)] *)
Fixpoint get (d : list (string * string)) (key : string) : option string :=
  match d with
  | [] => None
  | (k, v) :: rest => if String.eqb k key then Some v else get rest key
  end.

(** Lines 127-129: the first row from [row] on whose cell is empty;
    [cs] are the cells from [row] down. *)
Fixpoint first_empty (cs : list cell) (row : nat) : nat :=
  match cs with
  | [] => row
  | c :: t => if truthy (cell_value c) then first_empty t (S row) else row
  end.

(** Lines 133-138. *)
Definition max_length (ws : worksheet) (col part_number : string)
    (current_row : nat) : nat :=
  fold_left
    (fun m row =>
       let v := cell_value (cell_at ws col row) in
       if truthy v then Nat.max m (String.length (str v)) else m)
    (seq 2 (current_row - 1))
    (Nat.max (String.length (str (cell_value (cell_at ws col 1))))
             (String.length part_number)).

(** Lines 126-139: the result is [current_row] and the sheet to be
    saved. *)
Definition append_to_sheet (ws : worksheet) (col part_number : string)
    : nat * worksheet :=
  let current_row := first_empty (skipn 1 (ws_cells ws col)) 2 in
  let ws := set_value ws col current_row (Some part_number) in
  (current_row,
   set_width ws col (Scaled (max_length ws col part_number current_row))).

(** [openpyxl.load_workbook(excel_file)] followed by [wb[sheet_name]]. *)
Definition load (answer : io) (f : file) (sheet_name : string)
    : option worksheet :=
  match f with
  | Some ws =>
      if can_load answer && String.eqb (ws_title ws) sheet_name
      then Some ws else None
  | None => None
  end.

(** Lines 121-148: [n] attempts left. *)
Fixpoint append_attempts (n attempt : nat) (disk : nat -> io) (f : file)
    (sheet_name col part_number : string) : option nat * file :=
  match n with
  | 0 => (None, f)
  | S n' =>
      match load (disk attempt) f sheet_name with
      | Some ws =>
          let (current_row, ws') := append_to_sheet ws col part_number in
          if can_save (disk attempt)
          then (Some current_row, Some ws')
          else
            append_attempts n' (S attempt) disk f sheet_name col part_number
      | None =>
          append_attempts n' (S attempt) disk f sheet_name col part_number
      end
  end.

Definition append_to_excel (disk : nat -> io) (f : file)
    (sheet_name column part_number : string) : option nat * file :=
  match get column_map column with
  | None => (None, f)
  | Some col_letter =>
      append_attempts 5 0 disk f sheet_name col_letter part_number
  end.

(** *** [color_code_multi_column_entries] *)

Definition location := (string * nat)%type.

(** Lines 161-167 for one column: the part numbers from [row] down to
    the first empty cell, each with its place; [cs] are the cells from
    [row] down.  The key is the value of the cell, which is a text
    since the cell is not empty. *)
Fixpoint scan (cs : list cell) (col : string) (row : nat)
    : list (string * location) :=
  match cs with
  | [] => []
  | c :: t =>
      if truthy (cell_value c)
      then (str (cell_value c), (col, row)) :: scan t col (S row)
      else []
  end.

Definition scanned_columns : list string := ["A"; "C"; "E"; "G"; "I"].

(** What lines 160-167 read, in the order they read it. *)
Definition entries (ws : worksheet) : list (string * location) :=
  flat_map (fun col => scan (skipn 1 (ws_cells ws col)) col 2)
           scanned_columns.

(** Lines 164-166 on the dictionary [part_number_columns], whose keys
    stand in the order they were added. *)
Fixpoint add (d : list (string * list location)) (part_number : string)
    (loc : location) : list (string * list location) :=
  match d with
  | [] => [(part_number, [loc])]
  | (k, locs) :: rest =>
      if String.eqb k part_number then (k, locs ++ [loc]) :: rest
      else (k, locs) :: add rest part_number loc
  end.

Definition part_number_columns (ws : worksheet)
    : list (string * list location) :=
  fold_left (fun d e => add d (fst e) (snd e)) (entries ws) [].

(** Lines 173-174. *)
Definition paint (ws : worksheet) (locations : list location) : worksheet :=
  fold_left (fun ws loc => set_font ws (fst loc) (snd loc) red_font)
            locations ws.

(** Lines 159-175. *)
Definition color_sheet (ws : worksheet) : worksheet :=
  fold_left
    (fun ws' item => if 1 <? length (snd item) then paint ws' (snd item)
                     else ws')
    (part_number_columns ws) ws.

(** Lines 153-184: [n] attempts left. *)
Fixpoint color_attempts (n attempt : nat) (disk : nat -> io) (f : file)
    (sheet_name : string) : file :=
  match n with
  | 0 => f
  | S n' =>
      match load (disk attempt) f sheet_name with
      | Some ws =>
          if can_save (disk attempt) then Some (color_sheet ws)
          else color_attempts n' (S attempt) disk f sheet_name
      | None => color_attempts n' (S attempt) disk f sheet_name
      end
  end.

Definition color_code_multi_column_entries (disk : nat -> io) (f : file)
    (sheet_name : string) : file :=
  color_attempts 5 0 disk f sheet_name.

(** A disk that lets every load and every save through. *)
Definition reliable : nat -> io :=
  fun _ => {| can_load := true; can_save := true |}.

End Excel.

Definition column_eqb (a b : column) : bool :=
  String.eqb (column_name a) (column_name b).

(** The rows of a run written to the file one after the other, as the
    calls of [append_to_excel] in the loop do. *)
Definition save_rows (disk : nat -> Excel.io) (sheet_name : string)
    (rows : list (column * string)) (f : Excel.file) : Excel.file :=
  fold_left
    (fun f row =>
       snd (Excel.append_to_excel disk f sheet_name (column_name (fst row))
                                  (snd row)))
    rows f.

(** The part numbers [rows] has under column [c]. *)
Definition under (c : column) (rows : list (column * string)) : list string :=
  map snd (filter (fun row => column_eqb (fst row) c) rows).

(** The sheet holds the rows [rows]: under each header, its part
    numbers and nothing else. *)
Definition holds (ws : Excel.worksheet) (rows : list (column * string))
    : Prop :=
  forall c col,
    Excel.get Excel.column_map (column_name c) = Some col ->
    map Excel.cell_value (Excel.ws_cells ws col)
    = Some (column_name c) :: map Some (under c rows).

(** The cell stands in one of the columns read, in the filled stretch
    that starts at row 2. *)
Definition listed (ws : Excel.worksheet) (col : string) (row : nat) : Prop :=
  In col Excel.scanned_columns /\ 2 <= row /\
  forall r, 2 <= r <= row ->
            Excel.truthy (Excel.cell_value (Excel.cell_at ws col r)) = true.

(** The cell is listed and so is another cell with the same value. *)
Definition repeated (ws : Excel.worksheet) (col : string) (row : nat)
    : Prop :=
  listed ws col row /\
  exists col' row',
    (col', row') <> (col, row) /\ listed ws col' row' /\
    Excel.cell_value (Excel.cell_at ws col' row')
    = Excel.cell_value (Excel.cell_at ws col row).

(** The places the dictionary has under a key. *)
Fixpoint lookup (d : list (string * list Excel.location)) (k : string)
    : list Excel.location :=
  match d with
  | [] => []
  | (k', locs) :: rest => if String.eqb k' k then locs else lookup rest k
  end.

(** The places at which [es] has the part number [k]. *)
Definition places (k : string) (es : list (string * Excel.location))
    : list Excel.location :=
  map snd (filter (fun e => String.eqb (fst e) k) es).

(** ** The regular expressions *)

Lemma append_empty_r (u : string) : (u ++ "")%string = u.
Proof. induction u as [|c t IH]; simpl; [reflexivity | now rewrite IH]. Qed.

Lemma append_assoc (u v w : string) :
  ((u ++ v) ++ w)%string = (u ++ (v ++ w))%string.
Proof. induction u as [|c t IH]; simpl; [reflexivity | now rewrite IH]. Qed.

Lemma append_eq_empty (u v : string) :
  (u ++ v)%string = "" -> u = "" /\ v = "".
Proof. destruct u; simpl; [auto | discriminate]. Qed.

Lemma nullable_spec r : Py.nullable r = true <-> denotes r "".
Proof.
  induction r as [| |c| |r1 IH1 r2 IH2|r1 IH1 r2 IH2|r IH]; simpl.
  - split; [discriminate | intros H; inversion H].
  - split; [constructor | reflexivity].
  - split; [discriminate | intros H; inversion H].
  - split; [discriminate | intros H; inversion H].
  - rewrite andb_true_iff, IH1, IH2. split.
    + intros [H1 H2]. exact (DCat _ _ "" "" H1 H2).
    + intros H. inversion H as [| | |? ? u v H1 H2 E1 E2| | | |]; subst.
      apply append_eq_empty in E2. destruct E2; subst. now split.
  - rewrite orb_true_iff, IH1, IH2. split.
    + intros [H|H]; [now apply DAltL | now apply DAltR].
    + intros H. inversion H; subst; auto.
  - split; [constructor | reflexivity].
Qed.

(** A non-empty text of a repetition starts with a non-empty text of
    the repeated expression. *)
Lemma star_cons r a u :
  denotes (Py.Star r) (String a u) ->
  exists u1 u2,
    u = (u1 ++ u2)%string /\ denotes r (String a u1) /\
    denotes (Py.Star r) u2.
Proof.
  intros H. remember (Py.Star r) as R eqn:ER.
  remember (String a u) as w eqn:Ew.
  revert u Ew. induction H as [| | | | | | |r' u0 v H1 _ H2 IH2];
    intros tail Ew; try discriminate.
  injection ER as ->. destruct u0 as [|b u0'].
  - simpl in Ew. now apply IH2.
  - simpl in Ew. injection Ew as -> <-. now exists u0', v.
Qed.

Lemma deriv_spec r : forall a u,
  denotes (Py.deriv a r) u <-> denotes r (String a u).
Proof.
  induction r as [| |c| |r1 IH1 r2 IH2|r1 IH1 r2 IH2|r IH]; intros a u;
    simpl.
  - split; intros H; inversion H.
  - split; intros H; inversion H.
  - destruct (Ascii.eqb (Py.lower a) (Py.lower c)) eqn:E.
    + apply Ascii.eqb_eq in E. split; intros H; inversion H; subst.
      * now constructor.
      * constructor.
    + apply Ascii.eqb_neq in E. split; intros H; inversion H; subst.
      contradiction.
  - destruct (Py.isspace a) eqn:E.
    + split; intros H; inversion H; subst; now constructor.
    + split; intros H; inversion H; subst. congruence.
  - destruct (Py.nullable r1) eqn:N.
    + split.
      * intros H. inversion H as [| | | |? ? ? H'|? ? ? H'| |]; subst.
        -- inversion H' as [| | |? ? u1 u2 H1 H2| | | |]; subst.
           apply IH1 in H1. exact (DCat _ _ (String a u1) u2 H1 H2).
        -- apply IH2 in H'. apply nullable_spec in N.
           exact (DCat _ _ "" (String a u) N H').
      * intros H. inversion H as [| | |? ? u1 u2 H1 H2 E1 E2| | | |]; subst.
        destruct u1 as [|b u1'].
        -- simpl in E2. subst u2. apply DAltR. now apply IH2.
        -- simpl in E2. injection E2 as -> <-. apply DAltL.
           constructor; [now apply IH1 | exact H2].
    + split.
      * intros H. inversion H as [| | |? ? u1 u2 H1 H2| | | |]; subst.
        apply IH1 in H1. exact (DCat _ _ (String a u1) u2 H1 H2).
      * intros H. inversion H as [| | |? ? u1 u2 H1 H2 E1 E2| | | |]; subst.
        destruct u1 as [|b u1'].
        -- apply nullable_spec in H1. congruence.
        -- simpl in E2. injection E2 as -> <-.
           constructor; [now apply IH1 | exact H2].
  - split.
    + intros H. inversion H; subst.
      * apply DAltL. now apply IH1.
      * apply DAltR. now apply IH2.
    + intros H. inversion H; subst.
      * apply DAltL. now apply IH1.
      * apply DAltR. now apply IH2.
  - split.
    + intros H. inversion H as [| | |? ? u1 u2 H1 H2| | | |]; subst.
      apply IH in H1. exact (DStarApp _ (String a u1) u2 H1 H2).
    + intros H. apply star_cons in H. destruct H as (u1 & u2 & -> & H1 & H2).
      constructor; [now apply IH | exact H2].
Qed.

(** [Py.match_prefix] finds the texts of [r] at the start of [s]. *)
Lemma match_prefix_spec s : forall r,
  Py.match_prefix r s = true <->
  exists u v, s = (u ++ v)%string /\ denotes r u.
Proof.
  induction s as [|a t IH]; intros r; simpl.
  - rewrite orb_false_r, nullable_spec. split.
    + intros H. now exists "", "".
    + intros (u & v & E & H). symmetry in E.
      apply append_eq_empty in E. destruct E; now subst.
  - rewrite orb_true_iff, nullable_spec, IH. split.
    + intros [H|(u & v & -> & H)].
      * now exists "", (String a t).
      * exists (String a u), v. split; [reflexivity|]. now apply deriv_spec.
    + intros (u & v & E & H). destruct u as [|b u'].
      * now left.
      * simpl in E. injection E as <- ->. right.
        exists u', v. split; [reflexivity|]. now apply deriv_spec.
Qed.

(** [Py.re_search] finds the texts of [r] anywhere in [s]. *)
Lemma re_search_spec r s :
  Py.re_search r s = true <->
  exists before u after,
    s = (before ++ u ++ after)%string /\ denotes r u.
Proof.
  induction s as [|a t IH].
  - change (Py.re_search r "") with (Py.match_prefix r "" || false).
    rewrite orb_false_r, match_prefix_spec. split.
    + intros (u & v & E & H). now exists "", u, v.
    + intros (b & u & v & E & H). symmetry in E.
      apply append_eq_empty in E. destruct E as [-> E].
      exists u, v. now split.
  - change (Py.re_search r (String a t))
      with (Py.match_prefix r (String a t) || Py.re_search r t).
    rewrite orb_true_iff, match_prefix_spec, IH. split.
    + intros [(u & v & E & H)|(b & u & v & -> & H)].
      * now exists "", u, v.
      * now exists (String a b), u, v.
    + intros (b & u & v & E & H). destruct b as [|c b'].
      * left. now exists u, v.
      * simpl in E. injection E as <- ->. right. now exists b', u, v.
Qed.

(** Line 528-530: the status text holds a text of one of the three
    patterns. *)
Lemma matches_not_in_rsc_spec text :
  matches_not_in_rsc text = true <->
  exists before u after,
    text = (before ++ u ++ after)%string /\
    (denotes not_carried_in_your_rsc u \/ denotes not_carried_by_rsc u \/
     denotes not_in_rsc u).
Proof.
  unfold matches_not_in_rsc.
  rewrite !orb_true_iff, !re_search_spec. split.
  - intros [[(b & u & a & E & H)|(b & u & a & E & H)]|(b & u & a & E & H)];
      exists b, u, a; auto.
  - intros (b & u & a & E & [H|[H|H]]).
    + left. left. now exists b, u, a.
    + left. right. now exists b, u, a.
    + right. now exists b, u, a.
Qed.

(** Line 544: the status text holds a text of the cancellation pattern
    and none of the replacement pattern. *)
Lemma matches_cancelled_spec text :
  matches_cancelled text = true <->
  (exists before u after,
     text = (before ++ u ++ after)%string /\
     denotes cancelled_or_closeout u) /\
  ~ (exists before u after,
       text = (before ++ u ++ after)%string /\
       denotes replacement_or_discontinued u).
Proof.
  unfold matches_cancelled.
  rewrite andb_true_iff, negb_true_iff, <- not_true_iff_false,
    !re_search_spec.
  reflexivity.
Qed.

(** ** The monad *)

Lemma bind_normal {A B} (m : M A) (k : A -> M B) s a s' :
  m s = (Normal a, s') -> bind m k s = k a s'.
Proof. intros E. unfold bind. now rewrite E. Qed.

Lemma bind_assoc {A B C} (m : M A) (k1 : A -> M B) (k2 : B -> M C) s :
  bind (bind m k1) k2 s = bind m (fun a => bind (k1 a) k2) s.
Proof. unfold bind. destruct (m s) as [[a| | |e] s1]; reflexivity. Qed.

Lemma extend_nil s : extend [] s = s.
Proof. destruct s. unfold extend. simpl. now rewrite app_nil_r. Qed.

(** *** State relations *)

#[export] Instance appended_rel cols part : StateRel (appended cols part).
Proof.
  split.
  - intros s. exists []. now rewrite app_nil_r.
  - intros a b c (r1 & E1 & F1) (r2 & E2 & F2).
    exists (r1 ++ r2). split.
    + now rewrite E2, E1, app_assoc.
    + apply Forall_app. now split.
  - intros c s. exists []. simpl. now rewrite app_nil_r.
Qed.

#[export] Instance same_browser_rel : StateRel same_browser.
Proof.
  split; unfold same_browser; intros; simpl; intuition congruence.
Qed.

#[export] Instance same_sheet_rel : StateRel same_sheet.
Proof.
  split; unfold same_sheet; intros; simpl; congruence.
Qed.

Section Preserves.

Context (R : run_state -> run_state -> Prop) {HR : StateRel R}.

Lemma preserves_ret {A} (a : A) : preserves R (ret a).
Proof. intros s. apply rel_refl. Qed.

Lemma preserves_gets {A} (f : run_state -> A) : preserves R (gets f).
Proof. intros s. apply rel_refl. Qed.

Lemma preserves_continue {A} : preserves R (@continue_ A).
Proof. intros s. apply rel_refl. Qed.

Lemma preserves_break {A} : preserves R (@break_ A).
Proof. intros s. apply rel_refl. Qed.

Lemma preserves_call {A} c (o : outcome A) : preserves R (call c o).
Proof. intros s. apply rel_record. Qed.

Lemma preserves_attempt c : preserves R (attempt c).
Proof. intros s. apply rel_record. Qed.

Lemma preserves_bind {A B} (m : M A) (k : A -> M B) :
  preserves R m -> (forall a, preserves R (k a)) -> preserves R (bind m k).
Proof.
  intros Hm Hk s. unfold bind. specialize (Hm s).
  destruct (m s) as [[a| | |e] s1]; simpl in *; auto.
  eapply rel_trans; [exact Hm | apply Hk].
Qed.

Lemma preserves_try {A} (m : M A) (h : exn -> M A) :
  preserves R m -> (forall e, preserves R (h e)) ->
  preserves R (try_except m h).
Proof.
  intros Hm Hh s. unfold try_except. specialize (Hm s).
  destruct (m s) as [[a| | |e] s1]; simpl in *; auto.
  eapply rel_trans; [exact Hm | apply Hh].
Qed.

End Preserves.

Lemma preserves_weaken (R R' : run_state -> run_state -> Prop) {A}
    (m : M A) :
  (forall s s', R s s' -> R' s s') -> preserves R m -> preserves R' m.
Proof. intros H Hm s. apply H, Hm. Qed.

Lemma appended_incl cols cols' part s s' :
  incl cols cols' -> appended cols part s s' -> appended cols' part s s'.
Proof.
  intros Hi (rows & E & F). exists rows. split; [exact E|].
  eapply Forall_impl; [|exact F]. intros row [H1 H2]. split; auto.
Qed.

Lemma same_sheet_appended cols part s s' :
  same_sheet s s' -> appended cols part s s'.
Proof. intros E. exists []. now rewrite app_nil_r. Qed.

(** *** The primitive steps under each relation *)

Lemma append_appended cols part c :
  In c cols -> preserves (appended cols part) (append_to_excel c part).
Proof.
  intros H s. exists [(c, part)]. simpl. split; [reflexivity|].
  constructor; [now split | constructor].
Qed.

Lemma incr_idx_same_sheet : preserves same_sheet incr_idx.
Proof. intros s. reflexivity. Qed.

Lemma incr_restart_count_same_sheet : preserves same_sheet incr_restart_count.
Proof. intros s. reflexivity. Qed.

Lemma set_driver_same_sheet h : preserves same_sheet (set_driver h).
Proof. intros s. reflexivity. Qed.

Lemma set_popup_window_same_sheet h :
  preserves same_sheet (set_popup_window h).
Proof. intros s. reflexivity. Qed.

Lemma incr_idx_appended cols part : preserves (appended cols part) incr_idx.
Proof. intros s. now apply same_sheet_appended. Qed.

Lemma incr_restart_count_appended cols part :
  preserves (appended cols part) incr_restart_count.
Proof. intros s. now apply same_sheet_appended. Qed.

Lemma set_driver_appended cols part h :
  preserves (appended cols part) (set_driver h).
Proof. intros s. now apply same_sheet_appended. Qed.

Lemma set_popup_window_appended cols part h :
  preserves (appended cols part) (set_popup_window h).
Proof. intros s. now apply same_sheet_appended. Qed.

Lemma append_same_browser c part :
  preserves same_browser (append_to_excel c part).
Proof. intros s. unfold same_browser. simpl. auto. Qed.

Lemma incr_idx_same_browser : preserves same_browser incr_idx.
Proof. intros s. unfold same_browser. simpl. auto. Qed.

Lemma set_popup_window_same_browser h :
  preserves same_browser (set_popup_window h).
Proof. intros s. unfold same_browser. simpl. auto. Qed.

Create HintDb preserve.
#[export] Hint Resolve incr_idx_same_sheet incr_restart_count_same_sheet
  set_driver_same_sheet set_popup_window_same_sheet incr_idx_appended
  incr_restart_count_appended set_driver_appended
  set_popup_window_appended append_same_browser incr_idx_same_browser
  set_popup_window_same_browser : preserve.
#[export] Hint Extern 1 (preserves (appended _ _) (append_to_excel _ _)) =>
  apply append_appended; simpl; tauto : preserve.

(** Takes a [preserves] goal apart along the structure of the code. *)
Ltac preserve_step :=
  lazymatch goal with
  | |- @preserves ?R _ (ret _) => apply (@preserves_ret R _)
  | |- @preserves ?R _ (gets _) => apply (@preserves_gets R _)
  | |- @preserves ?R _ continue_ => apply (@preserves_continue R _)
  | |- @preserves ?R _ break_ => apply (@preserves_break R _)
  | |- @preserves ?R _ (call _ _) => apply (@preserves_call R _)
  | |- @preserves ?R _ (attempt _) => apply (@preserves_attempt R _)
  | |- @preserves ?R _ (bind _ _) =>
      apply (@preserves_bind R _); [ | intro ]
  | |- @preserves ?R _ (try_except _ _) =>
      apply (@preserves_try R _); [ | intro ]
  | |- @preserves _ _ (match ?x with _ => _ end) =>
      destruct x; cbv beta iota
  | |- _ => first [ progress cbv beta zeta
            | solve [ eauto with preserve typeclass_instances ] ]
  end.

Ltac preserve := unfold sleep, switch_to_main; repeat preserve_step.

Section Loops.

Context (R : run_state -> run_state -> Prop) {HR : StateRel R}.

Lemma close_popups_preserves sw cl handles :
  forall i, preserves R (close_popups sw cl i handles).
Proof.
  induction handles as [|h rest IH]; intros i; simpl.
  - preserve.
  - preserve.
Qed.

Lemma visit_windows_preserves handles : preserves R (visit_windows handles).
Proof.
  induction handles as [|h rest IH]; simpl; preserve.
Qed.

Lemma try_iframes_preserves r n : forall i, preserves R (try_iframes r i n).
Proof.
  induction n as [|n IH]; intros i; simpl; preserve.
Qed.

Lemma probe_discovery_preserves r limit n :
  forall a, preserves R (probe_discovery r limit a n).
Proof.
  induction n as [|n IH]; intros a; simpl; preserve.
Qed.

End Loops.

#[export] Hint Resolve close_popups_preserves visit_windows_preserves
  try_iframes_preserves probe_discovery_preserves : preserve.

(** *** The pieces of the loop body and the sheet *)

Lemma is_driver_alive_preserves R {HR : StateRel R} o :
  preserves R (is_driver_alive o).
Proof.
  intros s. unfold is_driver_alive, call.
  destruct o as [t|[]]; simpl; apply rel_record.
Qed.

#[export] Hint Resolve is_driver_alive_preserves : preserve.

Lemma health_check_same_sheet r : preserves same_sheet (health_check r).
Proof. unfold health_check. preserve. Qed.

Lemma navigate_appended part total r :
  preserves (appended [NotInAceNet] part) (navigate part total r).
Proof.
  unfold navigate, submit_part_number, locate_search_box, list_windows,
    check_redirect, switch_to_popup, enter_iframe.
  preserve.
Qed.

Lemma check_cancelled_appended part sw r :
  preserves (appended [NotInRSC; Cancelled] part) (check_cancelled part sw r).
Proof. unfold check_cancelled. preserve. Qed.

Lemma check_discovery_appended part c r :
  preserves (appended [NoDiscovery] part) (check_discovery part c r).
Proof. unfold check_discovery. preserve. Qed.

Lemma check_asterisk_appended part r :
  preserves (appended [NoAsterisk] part) (check_asterisk part r).
Proof. unfold check_asterisk. preserve. Qed.

Lemma check_on_order_appended part r :
  preserves (appended [OnOrder] part) (check_on_order part r).
Proof. unfold check_on_order. preserve. Qed.

Lemma check_location_appended part r :
  preserves (appended [NoLocation] part) (check_location part r).
Proof. unfold check_location. preserve. Qed.

Lemma recover_appended part r :
  preserves (appended [NotInAceNet] part) (recover part r).
Proof. unfold recover. preserve. Qed.

(** A piece that adds rows under [cols] adds them under any larger
    set of columns. *)
Lemma preserves_appended_incl cols cols' part {A} (m : M A) :
  incl cols cols' ->
  preserves (appended cols part) m -> preserves (appended cols' part) m.
Proof.
  intros H. apply preserves_weaken. intros s s'. now apply appended_incl.
Qed.

Ltac widen lem :=
  eapply preserves_appended_incl; [ | apply lem ];
  unfold incl; let x := fresh in intros x; simpl; tauto.

(** The rules after the on-order rule add "No Location" rows only. *)
Lemma after_on_order_appended part sw r :
  preserves (appended [NoLocation] part)
    (check_location part r ;;
     (if sw : bool then call SwitchToDefaultContent (default_content_end r)
      else ret tt) ;;
     switch_to_main (switch_main_end r) ;;
     incr_idx).
Proof.
  apply (@preserves_bind _ _); [apply check_location_appended | intro].
  preserve.
Qed.

Lemma independent_rules_appended part sw c r :
  preserves (appended [NoDiscovery; NoAsterisk; OnOrder; NoLocation] part)
    (independent_rules part sw c r).
Proof.
  unfold independent_rules.
  apply (@preserves_bind _ _); [widen check_discovery_appended | intro].
  apply (@preserves_bind _ _); [widen check_asterisk_appended | intro].
  apply (@preserves_bind _ _); [widen check_on_order_appended | intro].
  widen after_on_order_appended.
Qed.

Lemma extract_fields_appended part sw r :
  preserves
    (appended [NotInRSC; Cancelled; NoDiscovery; NoAsterisk; OnOrder;
               NoLocation] part)
    (extract_fields part sw r).
Proof.
  unfold extract_fields.
  apply (@preserves_bind _ _); [widen check_cancelled_appended | intro].
  widen independent_rules_appended.
Qed.

Lemma process_appended part total r :
  preserves (appended all_columns part) (process part total r).
Proof.
  unfold process.
  apply (@preserves_bind _ _); [widen navigate_appended | intro].
  widen extract_fields_appended.
Qed.

Lemma iteration_appended part total r :
  preserves (appended all_columns part) (iteration part total r).
Proof.
  unfold iteration.
  apply (@preserves_bind _ _); [ | intro ].
  - eapply preserves_weaken; [|apply health_check_same_sheet].
    intros s s'. apply same_sheet_appended.
  - apply (@preserves_try _ _); [apply process_appended | intro].
    widen recover_appended.
Qed.

(** *** Pieces that fall through or raise *)

Lemma plain_ret {A} (a : A) : plain (ret a).
Proof. intros s. simpl. auto. Qed.

Lemma plain_gets {A} (f : run_state -> A) : plain (gets f).
Proof. intros s. simpl. auto. Qed.

Lemma plain_call {A} c (o : outcome A) : plain (call c o).
Proof. intros s. destruct o; simpl; auto. Qed.

Lemma plain_attempt c : plain (attempt c).
Proof. intros s. simpl. auto. Qed.

Lemma plain_append c part : plain (append_to_excel c part).
Proof. intros s. simpl. auto. Qed.

Lemma plain_set_popup_window h : plain (set_popup_window h).
Proof. intros s. simpl. auto. Qed.

Lemma plain_bind {A B} (m : M A) (k : A -> M B) :
  plain m -> (forall a, plain (k a)) -> plain (bind m k).
Proof.
  intros Hm Hk s. unfold bind. specialize (Hm s).
  destruct (m s) as [[a| | |e] s1]; simpl in *; try tauto.
  destruct Hm as (E1 & E2 & _). specialize (Hk a s1).
  rewrite <- E1, <- E2. exact Hk.
Qed.

Lemma plain_try {A} (m : M A) (h : exn -> M A) :
  plain m -> (forall e, plain (h e)) -> plain (try_except m h).
Proof.
  intros Hm Hh s. unfold try_except. specialize (Hm s).
  destruct (m s) as [[a| | |e] s1]; simpl in *; try tauto.
  destruct Hm as (E1 & E2 & _). specialize (Hh e s1).
  rewrite <- E1, <- E2. exact Hh.
Qed.

Create HintDb plain.
#[export] Hint Resolve plain_append plain_set_popup_window : plain.

Ltac plain_step :=
  lazymatch goal with
  | |- plain (ret _) => apply plain_ret
  | |- plain (gets _) => apply plain_gets
  | |- plain (call _ _) => apply plain_call
  | |- plain (attempt _) => apply plain_attempt
  | |- plain (bind _ _) => apply plain_bind; [ | intro ]
  | |- plain (try_except _ _) => apply plain_try; [ | intro ]
  | |- plain (match ?x with _ => _ end) => destruct x; cbv beta iota
  | |- _ => first [ progress cbv beta zeta | solve [ eauto with plain ] ]
  end.

Ltac plain_tac := unfold sleep, switch_to_main; repeat plain_step.

Lemma close_popups_plain sw cl handles :
  forall i, plain (close_popups sw cl i handles).
Proof. induction handles as [|h rest IH]; intros i; simpl; plain_tac. Qed.

Lemma visit_windows_plain handles : plain (visit_windows handles).
Proof. induction handles as [|h rest IH]; simpl; plain_tac. Qed.

Lemma try_iframes_plain r n : forall i, plain (try_iframes r i n).
Proof. induction n as [|n IH]; intros i; simpl; plain_tac. Qed.

Lemma probe_discovery_plain r limit n :
  forall a, plain (probe_discovery r limit a n).
Proof. induction n as [|n IH]; intros a; simpl; plain_tac. Qed.

#[export] Hint Resolve close_popups_plain visit_windows_plain
  try_iframes_plain probe_discovery_plain : plain.

Lemma check_discovery_plain part c r : plain (check_discovery part c r).
Proof. unfold check_discovery. plain_tac. Qed.

Lemma check_asterisk_plain part r : plain (check_asterisk part r).
Proof. unfold check_asterisk. plain_tac. Qed.

Lemma check_on_order_plain part r : plain (check_on_order part r).
Proof. unfold check_on_order. plain_tac. Qed.

Lemma check_location_plain part r : plain (check_location part r).
Proof. unfold check_location. plain_tac. Qed.

#[export] Hint Resolve check_discovery_plain check_asterisk_plain
  check_on_order_plain check_location_plain : plain.

(** *** [idx] and [restart_count] *)

Lemma vars_of_plain {A} (m : M A) : plain m -> vars_ok m.
Proof.
  intros H s. destruct (H s) as (E1 & E2 & E3).
  unfold vars_post. destruct (fst (m s)); tauto.
Qed.

Lemma vars_bind {A B} (m : M A) (k : A -> M B) :
  vars_ok m -> (forall a, vars_ok (k a)) -> vars_ok (bind m k).
Proof.
  intros Hm Hk s. unfold bind. specialize (Hm s).
  destruct (m s) as [[a| | |e] s1]; simpl in *; try exact Hm.
  destruct Hm as (E1 & E2). specialize (Hk a s1).
  unfold vars_post in *. rewrite <- E1, <- E2. exact Hk.
Qed.

Lemma vars_try {A} (m : M A) (h : exn -> M A) :
  vars_ok m -> (forall e, vars_ok (h e)) -> vars_ok (try_except m h).
Proof.
  intros Hm Hh s. unfold try_except. specialize (Hm s).
  destruct (m s) as [[a| | |e] s1]; simpl in *; try exact Hm.
  destruct Hm as (E1 & E2). specialize (Hh e s1).
  unfold vars_post in *. rewrite <- E1, <- E2. exact Hh.
Qed.

(** [idx += 1] followed by [continue]. *)
Lemma vars_continue_tail {A} : vars_ok (incr_idx ;; @continue_ A).
Proof. intros s. simpl. auto. Qed.

(** The restart of lines 434-445 and 640-651. *)
Lemma vars_restart_tail {A} (o : outcome handle) :
  vars_ok
    (incr_restart_count ;;
     count <- gets restart_count ;;
     if max_restarts <? count then break_
     else
       try_except
         (h <- call StartBrowserAndLogin o ;; set_driver h)
         (fun _ => break_) ;;
       incr_idx ;;
       @continue_ A).
Proof.
  intros s. unfold bind, incr_restart_count, gets, try_except, call; simpl.
  destruct (max_restarts <? S (restart_count s)) eqn:E; simpl; [auto|].
  apply Nat.ltb_ge in E.
  destruct o as [h|e]; simpl; auto.
Qed.

Ltac vars_step :=
  lazymatch goal with
  | |- vars_ok (bind incr_idx (fun _ => continue_)) =>
      apply vars_continue_tail
  | |- vars_ok (bind incr_restart_count _) => apply vars_restart_tail
  | |- vars_ok (bind _ _) => apply vars_bind; [ | intro ]
  | |- vars_ok (try_except _ _) => apply vars_try; [ | intro ]
  | |- vars_ok (match ?x with _ => _ end) => destruct x; cbv beta iota
  | |- _ =>
      first [ progress cbv beta zeta
            | solve [ apply vars_of_plain; plain_tac ] ]
  end.

Ltac vars_tac := unfold sleep, switch_to_main; repeat vars_step.

Lemma navigate_vars part total r : vars_ok (navigate part total r).
Proof.
  unfold navigate, submit_part_number, locate_search_box, list_windows,
    check_redirect, switch_to_popup, enter_iframe.
  vars_tac.
Qed.

Lemma check_cancelled_vars part sw r : vars_ok (check_cancelled part sw r).
Proof. unfold check_cancelled. vars_tac. Qed.

(** *** The navigation and the sheet *)

Lemma nav_of_silent part {A} (m : M A) :
  preserves same_sheet m -> nav_ok part m.
Proof.
  intros H s. specialize (H s). unfold nav_post, same_sheet in *.
  destruct (fst (m s)); auto.
Qed.

Lemma nav_bind part {A B} (m : M A) (k : A -> M B) :
  nav_ok part m -> (forall a, nav_ok part (k a)) -> nav_ok part (bind m k).
Proof.
  intros Hm Hk s. unfold bind. specialize (Hm s).
  destruct (m s) as [[a| | |e] s1]; simpl in *; try exact Hm.
  specialize (Hk a s1). unfold nav_post in *. rewrite <- Hm. exact Hk.
Qed.

Lemma nav_try part {A} (m : M A) (h : exn -> M A) :
  preserves same_sheet m -> (forall e, nav_ok part (h e)) ->
  nav_ok part (try_except m h).
Proof.
  intros Hm Hh s. unfold try_except. specialize (Hm s).
  unfold same_sheet in Hm.
  destruct (m s) as [[a| | |e] s1]; simpl in *; auto.
  specialize (Hh e s1). unfold nav_post in *. rewrite <- Hm. exact Hh.
Qed.

Lemma never_normal_continue {A} : never_normal (@continue_ A).
Proof. intros s. exact I. Qed.

Lemma never_normal_break {A} : never_normal (@break_ A).
Proof. intros s. exact I. Qed.

Lemma never_normal_bind {A B} (m : M A) (k : A -> M B) :
  (forall a, never_normal (k a)) -> never_normal (bind m k).
Proof.
  intros Hk s. unfold bind.
  destruct (m s) as [[a| | |e] s1]; simpl; auto. apply Hk.
Qed.

Ltac never_normal_tac :=
  repeat lazymatch goal with
  | |- never_normal continue_ => apply never_normal_continue
  | |- never_normal break_ => apply never_normal_break
  | |- never_normal (bind _ _) => apply never_normal_bind; intro
  | |- never_normal (match ?x with _ => _ end) => destruct x; cbv beta iota
  | |- _ => progress cbv beta zeta
  end.

(** A "Not in AceNet" row followed by steps that add nothing and end
    in [continue], [break] or an exception. *)
Lemma nav_not_in_acenet part {A} (m : M A) :
  preserves same_sheet m -> never_normal m ->
  nav_ok part (append_to_excel NotInAceNet part ;; m).
Proof.
  intros Hs Hn s. unfold bind, append_to_excel. simpl.
  match goal with |- context [m ?x] => set (s1 := x) end.
  specialize (Hs s1). specialize (Hn s1). unfold same_sheet in Hs.
  unfold nav_post. destruct (m s1) as [[a| | |e] s2]; simpl in *;
    try tauto; right; rewrite Hs; reflexivity.
Qed.

Ltac nav_step :=
  lazymatch goal with
  | |- nav_ok _ (bind (append_to_excel NotInAceNet _) _) =>
      apply nav_not_in_acenet; [ preserve | never_normal_tac ]
  | |- nav_ok _ (bind _ _) => apply nav_bind; [ | intro ]
  | |- nav_ok _ (try_except _ _) => apply nav_try; [ preserve | intro ]
  | |- nav_ok _ (match ?x with _ => _ end) => destruct x; cbv beta iota
  | |- _ =>
      first [ progress cbv beta zeta
            | solve [ apply nav_of_silent; preserve ] ]
  end.

Ltac nav_tac := unfold sleep, switch_to_main; repeat nav_step.

Lemma navigate_nav part total r : nav_ok part (navigate part total r).
Proof.
  unfold navigate, submit_part_number, locate_search_box, list_windows,
    check_redirect, switch_to_popup, enter_iframe.
  nav_tac.
Qed.

(** *** One pass of the loop, taken apart *)

Lemma iteration_settle part total r s s0 :
  health_check r s = (Normal tt, s0) ->
  iteration part total r s = settle part r (process part total r s0).
Proof.
  intros H. unfold iteration. rewrite (bind_normal _ _ _ _ _ H).
  unfold try_except, settle.
  destruct (process part total r s0) as [[[]| | |e] s1]; reflexivity.
Qed.

Lemma recover_sheet part r s :
  sheet (snd (recover part r s)) = sheet s ++ [(NotInAceNet, part)].
Proof.
  unfold recover, bind, append_to_excel, attempt, incr_restart_count, gets,
    try_except, call. simpl.
  destruct (max_restarts <? S (restart_count s)); simpl; [reflexivity|].
  destruct (relogin_fault r); reflexivity.
Qed.

Lemma settle_sheet part r sig s' :
  sheet (snd (settle part r (sig, s'))) =
  sheet s' ++
  match sig with Raised _ => [(NotInAceNet, part)] | _ => [] end.
Proof.
  destruct sig as [[]| | |e]; simpl; try now rewrite app_nil_r.
  apply recover_sheet.
Qed.

Lemma rows_of_pass_spec part total r s :
  sheet (snd (iteration part total r s)) =
  sheet s ++ rows_of_pass part total r s.
Proof.
  unfold rows_of_pass.
  destruct (iteration_appended part total r s) as (rows & E & _).
  rewrite E. rewrite skipn_app, skipn_all, Nat.sub_diag. reflexivity.
Qed.

Lemma rows_of_pass_unique part total r s rows :
  sheet (snd (iteration part total r s)) = sheet s ++ rows ->
  rows_of_pass part total r s = rows.
Proof.
  intros E. pose proof (rows_of_pass_spec part total r s) as E'.
  rewrite E in E'. now apply app_inv_head in E'.
Qed.

Lemma health_check_normal r s s0 :
  health_check r s = (Normal tt, s0) ->
  sheet s0 = sheet s /\ idx s0 = idx s.
Proof.
  intros H. split.
  - pose proof (health_check_same_sheet r s) as E. now rewrite H in E.
  - revert H. unfold health_check, is_driver_alive, bind, call, attempt,
      incr_restart_count, gets, break_, set_driver, ret.
    destruct (title r) as [t|[]]; simpl; try discriminate.
    + now intros [= <-].
    + destruct (max_restarts <? S (restart_count s)); simpl;
        try discriminate.
      destruct (relogin_health r); simpl; try discriminate.
      now intros [= <-].
Qed.

Lemma navigate_normal part total r s0 sw s1 :
  navigate part total r s0 = (Normal sw, s1) ->
  sheet s1 = sheet s0 /\ idx s1 = idx s0 /\
  restart_count s1 = restart_count s0.
Proof.
  intros H.
  pose proof (navigate_nav part total r s0) as N.
  pose proof (navigate_vars part total r s0) as V.
  rewrite H in N, V. simpl in N, V. tauto.
Qed.

Lemma reaches_extraction_sheet part total r s sw s1 :
  reaches_extraction part total r s sw s1 ->
  sheet s1 = sheet s /\ idx s1 = idx s.
Proof.
  intros (s0 & H0 & H1).
  apply health_check_normal in H0. apply navigate_normal in H1.
  destruct H0, H1 as (? & ? & ?). split; congruence.
Qed.

Lemma reaches_extraction_pass part total r s sw s1 :
  reaches_extraction part total r s sw s1 ->
  iteration part total r s = settle part r (extract_fields part sw r s1).
Proof.
  intros (s0 & H0 & H1). rewrite (iteration_settle _ _ _ _ _ H0).
  unfold process. now rewrite (bind_normal _ _ _ _ _ H1).
Qed.

Lemma reaches_discovery_pass part total r s c s2 :
  reaches_discovery part total r s c s2 ->
  exists sw,
    iteration part total r s =
    settle part r (independent_rules part sw c r s2).
Proof.
  intros (sw & s1 & H1 & H2). exists sw.
  rewrite (reaches_extraction_pass _ _ _ _ _ _ H1).
  unfold extract_fields. now rewrite (bind_normal _ _ _ _ _ H2).
Qed.

Lemma not_in_rows (cols : list column) part rows c p :
  Forall (fun row : column * string =>
            In (fst row) cols /\ snd row = part) rows ->
  ~ In c cols -> ~ In (c, p) rows.
Proof.
  intros F N H. rewrite Forall_forall in F.
  apply F in H. simpl in H. tauto.
Qed.

(** The on-order step always falls through; it adds one "On Order" row
    when the quantity is a number above zero and nothing otherwise. *)
Lemma check_on_order_spec part r s :
  exists s',
    check_on_order part r s = (Normal tt, s') /\
    sheet s' =
    sheet s ++
    match order_quantity (order_span r) with
    | Some v => if Py.gt_zero v then [(OnOrder, part)] else []
    | None => []
    end.
Proof.
  unfold check_on_order, try_except, bind, call, order_quantity.
  destruct (order_span r) as [raw|e]; simpl.
  - destruct (Py.float (Py.strip raw)) as [v|]; simpl.
    + destruct (Py.gt_zero v); simpl; eexists; split; try reflexivity.
      simpl. now rewrite app_nil_r.
    + eexists; split; try reflexivity. simpl. now rewrite app_nil_r.
  - eexists; split; try reflexivity. simpl. now rewrite app_nil_r.
Qed.

(** A piece that ran from [s] to [s'] added what [appended] says. *)
Lemma appended_run cols part {A} (m : M A) s sig s' :
  preserves (appended cols part) m -> m s = (sig, s') ->
  appended cols part s s'.
Proof. intros H E. specialize (H s). now rewrite E in H. Qed.

Lemma reaches_discovery_rows part total r s c s2 :
  reaches_discovery part total r s c s2 ->
  appended [NotInRSC; Cancelled] part s s2 /\ idx s2 = idx s.
Proof.
  intros (sw & s1 & H1 & H2).
  destruct (reaches_extraction_sheet _ _ _ _ _ _ H1) as [E1 E2].
  pose proof (appended_run _ _ _ _ _ _
                (check_cancelled_appended part sw r) H2) as (rows & E & F).
  pose proof (check_cancelled_vars part sw r s1) as V.
  rewrite H2 in V. simpl in V. split.
  - exists rows. split; [congruence | exact F].
  - destruct V. congruence.
Qed.

Lemma reaches_on_order_rows part total r s s4 :
  reaches_on_order part total r s s4 ->
  appended [NotInRSC; Cancelled; NoDiscovery; NoAsterisk] part s s4.
Proof.
  intros (c & s2 & s3 & H2 & H3 & H4).
  apply reaches_discovery_rows in H2. destruct H2 as [H2 _].
  eapply rel_trans; [eapply appended_incl; [|exact H2]|].
  { unfold incl. simpl. tauto. }
  eapply rel_trans.
  - eapply appended_incl;
      [|exact (appended_run _ _ _ _ _ _
                 (check_discovery_appended part c r) H3)].
    unfold incl. simpl. tauto.
  - eapply appended_incl;
      [|exact (appended_run _ _ _ _ _ _
                 (check_asterisk_appended part r) H4)].
    unfold incl. simpl. tauto.
Qed.

Lemma reaches_on_order_pass part total r s s4 :
  reaches_on_order part total r s s4 ->
  exists sw,
    iteration part total r s =
    settle part r
      ((check_on_order part r ;;
        check_location part r ;;
        (if sw : bool
         then call SwitchToDefaultContent (default_content_end r)
         else ret tt) ;;
        switch_to_main (switch_main_end r) ;;
        incr_idx) s4).
Proof.
  intros (c & s2 & s3 & H2 & H3 & H4).
  destruct (reaches_discovery_pass _ _ _ _ _ _ H2) as (sw & E).
  exists sw. rewrite E. unfold independent_rules.
  rewrite (bind_normal _ _ _ _ _ H3).
  now rewrite (bind_normal _ _ _ _ _ H4).
Qed.

(** C9: for a part number whose pass reaches the on-order step, an
    "On Order" row is written exactly when the text of the order
    display parses as a number that is greater than zero.  The step
    itself never raises and writes under no other column.  The text
    "0" does not fire, "3.5" does, "N/A" and a missing display parse to
    nothing. *)
Theorem on_order_rule part total r s s4 :
  reaches_on_order part total r s s4 ->
  (In (OnOrder, part) (rows_of_pass part total r s) <->
   exists v, order_quantity (order_span r) = Some v /\ Py.gt_zero v = true)
  /\ (exists s5, check_on_order part r s4 = (Normal tt, s5) /\
                 appended [OnOrder] part s4 s5)
  /\ (exists z, order_quantity (Returns "0") = Some z /\
                Py.gt_zero z = false)
  /\ (exists v, order_quantity (Returns "3.5") = Some v /\
                Py.gt_zero v = true)
  /\ order_quantity (Returns "N/A") = None
  /\ (forall e, order_quantity (Raises e) = None).
Proof.
  intros H.
  destruct (check_on_order_spec part r s4) as (s5 & E5 & S5).
  assert (exists rows_a rows_b,
            rows_of_pass part total r s =
            rows_a ++
            match order_quantity (order_span r) with
            | Some v => if Py.gt_zero v then [(OnOrder, part)] else []
            | None => []
            end ++ rows_b /\
            ~ In (OnOrder, part) rows_a /\ ~ In (OnOrder, part) rows_b)
    as (rows_a & rows_b & Erows & Na & Nb).
  { destruct (reaches_on_order_pass _ _ _ _ _ H) as (sw & E).
    destruct (reaches_on_order_rows _ _ _ _ _ H) as (rows_a & Ea & Fa).
    rewrite (bind_normal _ _ _ _ _ E5) in E.
    match type of E with _ = settle _ _ (?m s5) =>
      pose proof (after_on_order_appended part sw r s5) as (rows_b & Eb & Fb);
      destruct (m s5) as [sig s6] eqn:E6
    end.
    simpl in Eb.
    pose proof (settle_sheet part r sig s6) as E7. rewrite <- E in E7.
    rewrite Eb, S5, Ea in E7. rewrite <- !app_assoc in E7.
    apply rows_of_pass_unique in E7.
    exists rows_a. eexists. split; [exact E7|]. split.
    - eapply not_in_rows; [exact Fa|]. simpl. intuition discriminate.
    - rewrite in_app_iff. intros [I|I].
      + revert I. eapply not_in_rows; [exact Fb|].
        simpl. intuition discriminate.
      + destruct sig; simpl in I; intuition discriminate. }
  repeat split.
  - rewrite Erows, !in_app_iff. intros [I|[I|I]]; try tauto.
    destruct (order_quantity (order_span r)) as [v|]; [|destruct I].
    exists v. split; [reflexivity|].
    destruct (Py.gt_zero v); [reflexivity | destruct I].
  - intros (v & Ev & Gv). rewrite Erows, Ev, Gv, !in_app_iff.
    right. left. now left.
  - exists s5. split; [exact E5|].
    exists (match order_quantity (order_span r) with
            | Some v => if Py.gt_zero v then [(OnOrder, part)] else []
            | None => []
            end).
    split; [exact S5|].
    destruct (order_quantity (order_span r)) as [v|]; [|constructor].
    destruct (Py.gt_zero v); constructor; simpl; auto.
  - exists (Py.FDec false 0 0). split; reflexivity.
  - exists (Py.FDec false 35 (-1)). split; reflexivity.
Qed.

Lemma on_order_rule_witness :
  In (OnOrder, "A1")
     (rows_of_pass "A1" 1
        (item_page [] (Returns "Active") (Returns "Garden hose")
                   (Returns "Details*") (Returns "3.5") (Returns "Aisle 4"))
        (initial_state "main")).
Proof.
  refine (proj2 (proj1 (on_order_rule "A1" 1 _ (initial_state "main") _ _)) _).
  - unfold reaches_on_order, reaches_discovery, reaches_extraction.
    do 3 eexists. split; [|split].
    + do 2 eexists. split.
      * eexists. split; vm_compute; reflexivity.
      * vm_compute; reflexivity.
    + vm_compute; reflexivity.
    + vm_compute; reflexivity.
  - exists (Py.FDec false 35 (-1)). split; reflexivity.
Defined.

(** *** The clean-up loop and the fault handler *)

(** The clean-up loop never fails, whatever the switches and the
    closes answer, and issues [cleanup_commands]. *)
Lemma close_popups_commands sw cl handles :
  forall i s,
    close_popups sw cl i handles s
    = (Normal tt,
       extend (cleanup_commands sw (main_window s) i handles) s).
Proof.
  induction handles as [|h rest IH]; intros i s.
  - simpl. now rewrite extend_nil.
  - simpl. unfold bind at 1, gets. unfold bind at 1, cleanup_block.
    destruct (h =? main_window s)%string eqn:En; simpl.
    + apply IH.
    + unfold try_except, bind, call.
      destruct (sw i) as [[]|e1]; simpl.
      * destruct (cl i) as [[]|e2]; simpl; rewrite IH; simpl;
          f_equal; unfold extend; simpl; now rewrite <- !app_assoc.
      * rewrite IH. simpl. f_equal. unfold extend. simpl.
        now rewrite <- !app_assoc.
Qed.

Lemma cleanup_commands_no_field sw main handles :
  forall i, no_field_read (cleanup_commands sw main i handles).
Proof.
  unfold no_field_read.
  induction handles as [|h rest IH]; intros i; simpl; [constructor|].
  apply Forall_app. split; [|apply IH].
  unfold cleanup_block. destruct (h =? main)%string; [constructor|].
  destruct (sw i); repeat constructor.
Qed.

(** The handler of the try block: one "Not in AceNet" row, the driver
    quit, one restart counted; the loop goes on with the next part
    number when the count is within [max_restarts] and the new login
    succeeds, and stops otherwise. *)
Lemma recover_spec part r s :
  exists sig s' tr,
    recover part r s = (sig, s') /\
    sheet s' = sheet s ++ [(NotInAceNet, part)] /\
    restart_count s' = S (restart_count s) /\
    trace s' = trace s ++ DriverQuit :: tr /\
    no_field_read tr /\
    ((sig = LoopContinue /\ idx s' = S (idx s) /\
      S (restart_count s) <= max_restarts /\
      exists h, relogin_fault r = Returns h)
     \/
     (sig = LoopBreak /\ idx s' = idx s /\
      (max_restarts < S (restart_count s) \/
       exists e, relogin_fault r = Raises e))).
Proof.
  unfold recover, bind, append_to_excel, attempt, incr_restart_count, gets,
    try_except, call, set_driver, incr_idx, continue_, break_, no_field_read.
  cbn [restart_count record].
  destruct (max_restarts <? S (restart_count s)) eqn:E.
  - apply Nat.ltb_lt in E. do 2 eexists. exists [].
    split; [reflexivity|]. cbn.
    split; [reflexivity|]. split; [reflexivity|]. split; [reflexivity|].
    split; [constructor|].
    right. split; [reflexivity|]. split; [reflexivity|]. now left.
  - apply Nat.ltb_ge in E. destruct (relogin_fault r) as [h|e]; cbn.
    + do 2 eexists. exists [StartBrowserAndLogin].
      split; [reflexivity|]. cbn.
      split; [reflexivity|]. split; [reflexivity|].
      split; [now rewrite <- app_assoc|]. split; [repeat constructor|].
      left. split; [reflexivity|]. split; [reflexivity|].
      split; [exact E|]. now exists h.
    + do 2 eexists. exists [StartBrowserAndLogin].
      split; [reflexivity|]. cbn.
      split; [reflexivity|]. split; [reflexivity|].
      split; [now rewrite <- app_assoc|]. split; [repeat constructor|].
      right. split; [reflexivity|]. split; [reflexivity|].
      right. now exists e.
Qed.

(** *** Trimmed text *)

Lemma lstrip_head x :
  Py.lstrip_by Py.isspace x = "" \/
  exists c t,
    Py.lstrip_by Py.isspace x = String c t /\ Py.isspace c = false.
Proof.
  induction x as [|c t IH]; simpl; [now left|].
  destruct (Py.isspace c) eqn:E; [exact IH|].
  right. now exists c, t.
Qed.

Lemma rstrip_head c t :
  Py.isspace c = false ->
  exists t', Py.rstrip_by Py.isspace (String c t) = String c t'.
Proof.
  intros E. simpl. rewrite E.
  destruct (Py.rstrip_by Py.isspace t); eexists; reflexivity.
Qed.

Lemma strip_head x :
  Py.strip x = "" \/
  exists c t, Py.strip x = String c t /\ Py.isspace c = false.
Proof.
  unfold Py.strip, Py.strip_by.
  destruct (lstrip_head x) as [E|(c & t & E & S)].
  - rewrite E. now left.
  - rewrite E. destruct (rstrip_head c t S) as (t' & E').
    right. now exists c, t'.
Qed.

(** Trimming a trimmed text leaves it empty or not, as it was. *)
Lemma strip_strip_truthy x :
  Py.truthy (Py.strip (Py.strip x)) = Py.truthy (Py.strip x).
Proof.
  destruct (strip_head x) as [E|(c & t & E & S)]; rewrite E.
  - reflexivity.
  - unfold Py.strip, Py.strip_by. simpl Py.lstrip_by. rewrite S.
    destruct (rstrip_head c t S) as (t' & E'). now rewrite E'.
Qed.

Lemma truthy_false x : Py.truthy x = false <-> x = "".
Proof. destruct x; simpl; split; congruence. Qed.

(** *** The status step falls through with [is_cancelled] false *)

Lemma check_cancelled_false part sw r s1 c s2 :
  check_cancelled part sw r s1 = (Normal c, s2) -> c = false.
Proof.
  unfold check_cancelled, switch_to_main, bind. intros H.
  revert H.
  match goal with |- context [try_except ?a ?b s1] =>
    destruct (try_except a b s1) as [[[]| | |e] s3]
  end; simpl; try discriminate.
  - destruct sw; unfold call, gets, incr_idx, continue_, ret; simpl;
      destruct (default_content_cancelled r); simpl; try discriminate;
      destruct (switch_main_cancelled r); simpl; discriminate.
  - now intros [= <- _].
Qed.

(** *** The discovery step *)

(** The probe loop from attempt [a] on, [n] attempts left: it runs
    through all the attempts, or finds the element at attempt [b], or
    is cut short at attempt [b] by the read of the page source. *)
Lemma probe_discovery_cases r limit n :
  forall a s,
    a + n = limit ->
    exists sig s',
      probe_discovery r limit a n s = (sig, s') /\
      sheet s' = sheet s /\ idx s' = idx s /\
      restart_count s' = restart_count s /\
      ((sig = Normal (false, "") /\
        (forall b, a <= b < limit -> exists e, content_div r b = Raises e) /\
        (forall b, a <= b < limit -> discovery_page_source r b = Returns tt) /\
        trace s' = trace s ++ retry_commands n)
       \/
       (exists b raw,
          a <= b < limit /\
          (forall b', a <= b' < b -> exists e, content_div r b' = Raises e) /\
          (forall b', a <= b' < b -> discovery_page_source r b' = Returns tt) /\
          content_div r b = Returns raw /\
          sig = Normal (true, Py.strip raw))
       \/
       (exists b e,
          a <= b < limit /\
          (forall b', a <= b' <= b -> exists e', content_div r b' = Raises e') /\
          (forall b', a <= b' < b -> discovery_page_source r b' = Returns tt) /\
          discovery_page_source r b = Raises e /\
          sig = Raised e)).
Proof.
  induction n as [|n IH]; intros a s Ea.
  - exists (Normal (false, "")), s. simpl.
    split; [reflexivity|]. split; [reflexivity|]. split; [reflexivity|].
    split; [reflexivity|].
    left. split; [reflexivity|]. split; [intros b Hb; lia|].
    split; [intros b Hb; lia|]. now rewrite app_nil_r.
  - simpl. unfold bind at 1, try_except, call.
    destruct (content_div r a) as [raw|e] eqn:Ec; simpl.
    + exists (Normal (true, Py.strip raw)). eexists.
      split; [reflexivity|]. split; [reflexivity|]. split; [reflexivity|].
      split; [reflexivity|].
      right. left. exists a, raw.
      split; [lia|]. split; [intros b' Hb'; lia|].
      split; [intros b' Hb'; lia|]. now split.
    + destruct (discovery_page_source r a) as [[]|e'] eqn:Ep; simpl.
      2:{ exists (Raised e'). eexists.
          split; [reflexivity|]. split; [reflexivity|].
          split; [reflexivity|]. split; [reflexivity|].
          right. right. exists a, e'.
          split; [lia|]. split.
          - intros b' Hb'. assert (b' = a) by lia. subst b'. now exists e.
          - split; [intros b' Hb'; lia|]. now split. }
      assert ((a <? limit - 1) = match n with 0 => false | S _ => true end)
        as Es.
      { destruct n; [apply Nat.ltb_ge | apply Nat.ltb_lt]; lia. }
      rewrite Es.
      assert (Hstep : forall s0,
                sheet s0 = sheet s -> idx s0 = idx s ->
                restart_count s0 = restart_count s ->
                trace s0 = trace s ++
                  match n with
                  | 0 => [WaitDiscovery; PageSource]
                  | S _ => [WaitDiscovery; PageSource; Sleep 3]
                  end ->
                exists sig s',
                  probe_discovery r limit (S a) n s0 = (sig, s') /\
                  sheet s' = sheet s /\ idx s' = idx s /\
                  restart_count s' = restart_count s /\
                  ((sig = Normal (false, "") /\
                    (forall b, a <= b < limit ->
                               exists e, content_div r b = Raises e) /\
                    (forall b, a <= b < limit ->
                               discovery_page_source r b = Returns tt) /\
                    trace s' = trace s ++ retry_commands (S n))
                   \/
                   (exists b raw,
                      a <= b < limit /\
                      (forall b', a <= b' < b ->
                                  exists e, content_div r b' = Raises e) /\
                      (forall b', a <= b' < b ->
                                  discovery_page_source r b' = Returns tt) /\
                      content_div r b = Returns raw /\
                      sig = Normal (true, Py.strip raw))
                   \/
                   (exists b e,
                      a <= b < limit /\
                      (forall b', a <= b' <= b ->
                                  exists e', content_div r b' = Raises e') /\
                      (forall b', a <= b' < b ->
                                  discovery_page_source r b' = Returns tt) /\
                      discovery_page_source r b = Raises e /\
                      sig = Raised e))).
      { intros s0 Sh0 Ei0 Rc0 Tr0.
        destruct (IH (S a) s0) as (sig & s' & E & Sh & Ei & Rc & D); [lia|].
        exists sig, s'. split; [exact E|].
        split; [congruence|]. split; [congruence|]. split; [congruence|].
        assert (Hc : forall b, a <= b -> (S a <= b -> exists e0,
                        content_div r b = Raises e0) ->
                      exists e0, content_div r b = Raises e0).
        { intros b Hb Hrec. destruct (Nat.eq_dec b a) as [->|Nb].
          - now exists e.
          - apply Hrec. lia. }
        assert (Hp : forall b, a <= b -> (S a <= b ->
                        discovery_page_source r b = Returns tt) ->
                      discovery_page_source r b = Returns tt).
        { intros b Hb Hrec. destruct (Nat.eq_dec b a) as [->|Nb].
          - exact Ep.
          - apply Hrec. lia. }
        destruct D as [(Er & Ha & Hs & Tr)|
                       [(b & raw & Hb & Ha & Hs & Eb & Er)|
                        (b & e0 & Hb & Ha & Hs & Eb & Er)]].
        - left. split; [exact Er|]. split; [|split].
          + intros b Hb. apply Hc; [lia|]. intros Hb'. apply Ha. lia.
          + intros b Hb. apply Hp; [lia|]. intros Hb'. apply Hs. lia.
          + rewrite Tr, Tr0. destruct n; simpl.
            * now rewrite app_nil_r.
            * now rewrite <- !app_assoc.
        - right. left. exists b, raw. split; [lia|]. split; [|split].
          + intros b' Hb'. apply Hc; [lia|]. intros Hb''. apply Ha. lia.
          + intros b' Hb'. apply Hp; [lia|]. intros Hb''. apply Hs. lia.
          + now split.
        - right. right. exists b, e0. split; [lia|]. split; [|split].
          + intros b' Hb'. apply Hc; [lia|]. intros Hb''. apply Ha. lia.
          + intros b' Hb'. apply Hp; [lia|]. intros Hb''. apply Hs. lia.
          + now split. }
      destruct n as [|n'].
      * unfold bind, ret. simpl. apply Hstep; try reflexivity.
        simpl. now rewrite <- app_assoc.
      * unfold bind, sleep, attempt. simpl. apply Hstep; try reflexivity.
        simpl. now rewrite <- !app_assoc.
Qed.

(** The discovery step when neither status rule fired: it writes the
    row, or writes nothing, or is cut short by the read of the page
    source. *)
Lemma check_discovery_cases part r s :
  exists sig s',
    check_discovery part false r s = (sig, s') /\
    idx s' = idx s /\ restart_count s' = restart_count s /\
    ((sig = Normal tt /\
      sheet s' = sheet s ++ [(NoDiscovery, part)] /\
      ((discovery_absent r (max_attempts (idx s)) /\
        page_source_read r (max_attempts (idx s)) /\
        trace s' = trace s ++ retry_commands (max_attempts (idx s)))
       \/
       (exists a, a < max_attempts (idx s) /\
                  discovery_blank_at r a /\ page_source_read r a)))
     \/
     (sig = Normal tt /\ sheet s' = sheet s /\
      exists a raw,
        a < max_attempts (idx s) /\
        discovery_absent r a /\ page_source_read r a /\
        content_div r a = Returns raw /\ Py.strip raw <> "")
     \/
     (exists e, sig = Raised e /\ sheet s' = sheet s /\
      exists a, a < max_attempts (idx s) /\ probe_cut_short r a)).
Proof.
  unfold check_discovery, bind at 1, gets.
  set (limit := max_attempts (idx s)) in *.
  destruct (probe_discovery_cases r limit limit 0 s eq_refl)
    as (sig & s1 & E & Sh & Ei & Rc & D).
  unfold bind. rewrite E.
  destruct D as [(Er & Ha & Hs & Tr)|
                 [(b & raw & Hb & Ha & Hs & Eb & Er)|
                  (b & e & Hb & Ha & Hs & Eb & Er)]]; subst sig.
  - simpl. do 2 eexists. split; [reflexivity|]. simpl.
    split; [exact Ei|]. split; [exact Rc|].
    left. split; [reflexivity|]. split; [now rewrite Sh|].
    left. split; [|split].
    + intros a Hl. apply Ha. lia.
    + intros a Hl. apply Hs. lia.
    + exact Tr.
  - rewrite strip_strip_truthy. simpl.
    assert (Habs : discovery_absent r b).
    { intros a Hl. apply Ha. lia. }
    assert (Hps : page_source_read r b).
    { intros a Hl. apply Hs. lia. }
    destruct (Py.truthy (Py.strip raw)) eqn:Et; simpl.
    + do 2 eexists. split; [reflexivity|].
      split; [exact Ei|]. split; [exact Rc|].
      right. left. split; [reflexivity|]. split; [exact Sh|].
      exists b, raw. split; [lia|].
      split; [exact Habs|]. split; [exact Hps|]. split; [exact Eb|].
      intros C. rewrite C in Et. discriminate.
    + do 2 eexists. split; [reflexivity|]. simpl.
      split; [exact Ei|]. split; [exact Rc|].
      left. split; [reflexivity|]. split; [now rewrite Sh|].
      right. exists b. split; [lia|]. split; [|exact Hps].
      split; [exact Habs|]. exists raw. split; [exact Eb|].
      now apply truthy_false.
  - do 2 eexists. split; [reflexivity|].
    split; [exact Ei|]. split; [exact Rc|].
    right. right. exists e. split; [reflexivity|]. split; [exact Sh|].
    exists b. split; [lia|]. split; [|split].
    + intros a Hl. apply Ha. lia.
    + intros a Hl. apply Hs. lia.
    + now exists e.
Qed.

(** The three ways the discovery step can go exclude one another. *)
Lemma found_text_excludes r limit a raw :
  a < limit ->
  discovery_absent r a ->
  content_div r a = Returns raw -> Py.strip raw <> "" ->
  ~ ((discovery_absent r limit /\ page_source_read r limit) \/
     exists b, b < limit /\ discovery_blank_at r b /\ page_source_read r b).
Proof.
  intros Hl Ha Ea Hn [[Abs _]|(b & Hb & (Abs & raw' & Eb & Es) & _)].
  - destruct (Abs a Hl) as (e & E). congruence.
  - destruct (Nat.lt_trichotomy a b) as [L|[->|L]].
    + destruct (Abs a L) as (e & E). congruence.
    + congruence.
    + destruct (Ha b L) as (e & E). congruence.
Qed.

Lemma cut_short_excludes r limit a :
  a < limit ->
  probe_cut_short r a ->
  ~ ((discovery_absent r limit /\ page_source_read r limit) \/
     exists b, b < limit /\ discovery_blank_at r b /\ page_source_read r b).
Proof.
  intros Hl (Abs & _ & e & Ep) [[_ Ps]|(b & Hb & (Abs' & raw & Eb & _) & Ps)].
  - rewrite (Ps a Hl) in Ep. discriminate.
  - destruct (Nat.lt_trichotomy a b) as [L|[->|L]].
    + rewrite (Ps a L) in Ep. discriminate.
    + destruct (Abs b) as (e' & E); [lia | congruence].
    + destruct (Abs b) as (e' & E); [lia | congruence].
Qed.

Lemma not_cut_short r limit :
  (discovery_absent r limit /\ page_source_read r limit) \/
  (exists b, b < limit /\ discovery_blank_at r b /\ page_source_read r b) \/
  (exists a raw, a < limit /\ discovery_absent r a /\ page_source_read r a /\
                 content_div r a = Returns raw /\ Py.strip raw <> "") ->
  ~ exists a, a < limit /\ probe_cut_short r a.
Proof.
  intros H (a & Hl & Abs & Ps & e & Ep).
  destruct H as [[_ Ps']|[(b & Hb & (Abs' & raw & Eb & _) & Ps')|
                          (b & raw & Hb & Abs' & Ps' & Eb & _)]].
  - rewrite (Ps' a Hl) in Ep. discriminate.
  - destruct (Nat.lt_trichotomy a b) as [L|[->|L]].
    + rewrite (Ps' a L) in Ep. discriminate.
    + destruct (Abs b) as (e' & E); [lia | congruence].
    + destruct (Abs b) as (e' & E); [lia | congruence].
  - destruct (Nat.lt_trichotomy a b) as [L|[->|L]].
    + rewrite (Ps' a L) in Ep. discriminate.
    + destruct (Abs b) as (e' & E); [lia | congruence].
    + destruct (Abs b) as (e' & E); [lia | congruence].
Qed.

Lemma after_discovery_appended part sw r :
  preserves (appended [NoAsterisk; OnOrder; NoLocation] part)
    (check_asterisk part r ;;
     check_on_order part r ;;
     check_location part r ;;
     (if sw : bool then call SwitchToDefaultContent (default_content_end r)
      else ret tt) ;;
     switch_to_main (switch_main_end r) ;;
     incr_idx).
Proof.
  apply (@preserves_bind _ _); [widen check_asterisk_appended | intro].
  apply (@preserves_bind _ _); [widen check_on_order_appended | intro].
  widen after_on_order_appended.
Qed.

(** C8, as the code has it: for a part number whose pass reaches the
    discovery step (a frame was entered and neither status rule ended
    the pass), a "No Discovery" row is written exactly when the
    discovery element is absent at every attempt, three attempts for
    the first part number of the run and two for any other, or is
    found with a text that is empty once trimmed, the page source
    having been read for the debug print after each failed attempt.
    When that read raises (line 573, inside the handler of the
    attempt), the step raises: the probing is cut short, no "No
    Discovery" row is written, and the handler of the try block writes
    "Not in AceNet" and counts a restart.  When the element is absent
    throughout and every read returns, two attempts are three seconds
    of sleep apart. *)
Theorem no_discovery_rule part total r s c s2 :
  reaches_discovery part total r s c s2 ->
  (In (NoDiscovery, part) (rows_of_pass part total r s) <->
   (discovery_absent r (max_attempts (idx s)) /\
    page_source_read r (max_attempts (idx s))) \/
   exists a, a < max_attempts (idx s) /\
             discovery_blank_at r a /\ page_source_read r a)
  /\ ((exists a, a < max_attempts (idx s) /\ probe_cut_short r a) <->
      exists e, fst (check_discovery part c r s2) = Raised e)
  /\ ((exists a, a < max_attempts (idx s) /\ probe_cut_short r a) ->
      In (NotInAceNet, part) (rows_of_pass part total r s) /\
      restart_count (snd (iteration part total r s))
      = S (restart_count s2))
  /\ (max_attempts (idx s) = if idx s =? 0 then 3 else 2)
  /\ (discovery_absent r (max_attempts (idx s)) ->
      page_source_read r (max_attempts (idx s)) ->
      trace (snd (check_discovery part c r s2)) =
      trace s2 ++ retry_commands (max_attempts (idx s)))
  /\ retry_commands 3 =
     [WaitDiscovery; PageSource; Sleep 3;
      WaitDiscovery; PageSource; Sleep 3;
      WaitDiscovery; PageSource]
  /\ retry_commands 2 =
     [WaitDiscovery; PageSource; Sleep 3; WaitDiscovery; PageSource].
Proof.
  intros H.
  assert (c = false) as ->.
  { destruct H as (sw & s1 & _ & H). now apply check_cancelled_false in H. }
  destruct (reaches_discovery_rows _ _ _ _ _ _ H) as [(rows_a & Ea & Fa) Ei].
  rewrite <- Ei in *.
  destruct (reaches_discovery_pass _ _ _ _ _ _ H) as (sw & E).
  assert (~ In (NoDiscovery, part) rows_a) as Na.
  { eapply not_in_rows; [exact Fa|]. simpl. intuition discriminate. }
  destruct (check_discovery_cases part r s2)
    as (sig & s3 & E3 & I3 & R3 & D).
  set (limit := max_attempts (idx s2)) in *.
  assert (Hnormal :
    sig = Normal tt ->
    exists rows_b sig4,
      sheet (snd (iteration part total r s)) =
      sheet s3 ++ rows_b ++
      match sig4 : signal unit with
      | Raised _ => [(NotInAceNet, part)]
      | _ => []
      end /\
      ~ In (NoDiscovery, part)
          (rows_b ++
           match sig4 with Raised _ => [(NotInAceNet, part)] | _ => [] end)).
  { intros ->. unfold independent_rules in E.
    rewrite (bind_normal _ _ _ _ _ E3) in E.
    match type of E with _ = settle _ _ (?m s3) =>
      pose proof (after_discovery_appended part sw r s3) as (rows_b & Eb & Fb);
      destruct (m s3) as [sig4 s4] eqn:E4
    end.
    simpl in Eb.
    pose proof (settle_sheet part r sig4 s4) as E5. rewrite <- E in E5.
    exists rows_b, sig4. split.
    - rewrite E5, Eb. now rewrite <- app_assoc.
    - rewrite in_app_iff. intros [I|I].
      + revert I. eapply not_in_rows; [exact Fb|].
        simpl. intuition discriminate.
      + destruct sig4; simpl in I; intuition discriminate. }
  destruct D as [(-> & S3 & Yes)|
                 [(-> & S3 & a & raw & Hl & Abs & Ps & Ec & Hn)|
                  (e & -> & S3 & a & Hl & Cut)]].
  - (* the row is written *)
    destruct (Hnormal eq_refl) as (rows_b & sig4 & E5 & Nb).
    rewrite S3, Ea, <- !app_assoc in E5. apply rows_of_pass_unique in E5.
    assert (Hyes :
      (discovery_absent r limit /\ page_source_read r limit) \/
      exists a, a < limit /\ discovery_blank_at r a /\ page_source_read r a).
    { destruct Yes as [(Abs & Ps & _)|Blank]; [left; now split | now right]. }
    assert (Hcut : ~ exists a, a < limit /\ probe_cut_short r a).
    { apply not_cut_short.
      destruct Hyes as [Y|Y]; [now left | right; now left]. }
    split; [|split; [|split; [|split; [reflexivity|split;
                                      [|split; reflexivity]]]]].
    + rewrite E5. split; [intros _; exact Hyes|]. intros _.
      rewrite !in_app_iff. right. left. now left.
    + rewrite E3. simpl. split; [intros C; now destruct Hcut|].
      intros (e & [=]).
    + intros C. now destruct Hcut.
    + intros Abs Ps. rewrite E3. simpl.
      destruct Yes as [(_ & _ & Tr)|(a & Hl & (_ & raw & Eb & _) & _)];
        [exact Tr|].
      destruct (Abs a Hl) as (e & E'). congruence.
  - (* the element has a text *)
    destruct (Hnormal eq_refl) as (rows_b & sig4 & E5 & Nb).
    rewrite S3, Ea, <- !app_assoc in E5. apply rows_of_pass_unique in E5.
    pose proof (found_text_excludes r limit a raw Hl Abs Ec Hn) as Hno.
    assert (Hcut : ~ exists a, a < limit /\ probe_cut_short r a).
    { apply not_cut_short. right. right. now exists a, raw. }
    split; [|split; [|split; [|split; [reflexivity|split;
                                      [|split; reflexivity]]]]].
    + rewrite E5. split; [|tauto]. rewrite in_app_iff. tauto.
    + rewrite E3. simpl. split; [intros C; now destruct Hcut|].
      intros (e & [=]).
    + intros C. now destruct Hcut.
    + intros Abs' Ps'. destruct Hno. left. now split.
  - (* the probing is cut short *)
    pose proof (cut_short_excludes r limit a Hl Cut) as Hno.
    assert (Ex : independent_rules part sw false r s2 = (Raised e, s3)).
    { unfold independent_rules, bind. now rewrite E3. }
    rewrite Ex in E. simpl in E.
    destruct (recover_spec part r s3)
      as (sig5 & s5 & tr & Er & Sh5 & Rc5 & _).
    rewrite Er in E.
    assert (E5 : rows_of_pass part total r s = rows_a ++ [(NotInAceNet, part)]).
    { apply rows_of_pass_unique. rewrite E. simpl.
      now rewrite Sh5, S3, Ea, <- app_assoc. }
    split; [|split; [|split; [|split; [reflexivity|split;
                                      [|split; reflexivity]]]]].
    + rewrite E5. split; [|tauto]. rewrite in_app_iff.
      intros [I|I]; [now destruct Na|].
      simpl in I. intuition discriminate.
    + rewrite E3. simpl. split; [intros _; now exists e|].
      intros _. now exists a.
    + intros _. rewrite E5, E. simpl. split.
      * rewrite in_app_iff. right. now left.
      * congruence.
    + intros Abs' Ps'. destruct Hno. left. now split.
Qed.

Lemma no_discovery_rule_witness :
  In (NoDiscovery, "A1")
     (rows_of_pass "A1" 1
        (item_page [] (Returns "Active") absent (Returns "Details*")
                   (Returns "0") (Returns "Aisle 4"))
        (initial_state "main")).
Proof.
  refine (proj2 (proj1 (no_discovery_rule "A1" 1 _ (initial_state "main")
                          false _ _)) _).
  - unfold reaches_discovery, reaches_extraction.
    do 2 eexists. split.
    + eexists. split; vm_compute; reflexivity.
    + vm_compute; reflexivity.
  - left. split.
    + intros a _. eexists. reflexivity.
    + intros a _. reflexivity.
Defined.

(** C8 as it is stated fails: the discovery element is absent at
    every attempt and the read of the page source after the first
    attempt raises; the pass stops probing after that one attempt and
    its only row is "Not in AceNet". *)
Lemma no_discovery_rule_counterexample :
  let r := item_page [573] (Returns "Active") absent (Returns "Details*")
                     (Returns "0") (Returns "Aisle 4") in
  (forall a, content_div r a = Raises WebDriverException) /\
  discovery_page_source r 0 = Raises WebDriverException /\
  rows_of_pass "A1" 1 r (initial_state "main") = [(NotInAceNet, "A1")] /\
  restart_count (snd (iteration "A1" 1 r (initial_state "main"))) = 1 /\
  trace (snd (check_discovery "A1" false r (initial_state "main")))
  = [WaitDiscovery; PageSource].
Proof. vm_compute. repeat split. Qed.

(** *** The two status rules *)

Lemma enter_iframe_true part r s sw s' :
  enter_iframe part r s = (Normal sw, s') -> sw = true.
Proof.
  unfold enter_iframe, bind, switch_to_main.
  match goal with |- context [try_except ?a ?b s] =>
    destruct (try_except a b s) as [[count| | |e] s1]
  end; try discriminate.
  destruct (try_iframes r 0 count s1) as [[[]| | |e] s2]; simpl;
    try discriminate.
  - now intros [= <- _].
  - unfold bind, gets, call, append_to_excel. simpl.
    destruct (switch_main_no_frame r); simpl; discriminate.
Qed.

Lemma navigate_true part total r s sw s' :
  navigate part total r s = (Normal sw, s') -> sw = true.
Proof.
  unfold navigate, bind.
  destruct (submit_part_number part total r s) as [[[]| | |e] s1];
    try discriminate.
  destruct (check_redirect part r s1) as [[[]| | |e] s2]; try discriminate.
  destruct (switch_to_popup part r s2) as [[[]| | |e] s3]; try discriminate.
  apply enter_iframe_true.
Qed.

Lemma matches_not_in_rsc_truthy text :
  matches_not_in_rsc text = true -> Py.truthy text = true.
Proof. destruct text; [discriminate | reflexivity]. Qed.

Lemma matches_cancelled_truthy text :
  matches_cancelled text = true -> Py.truthy text = true.
Proof. destruct text; [discriminate | reflexivity]. Qed.

(** The status step when the status element cannot be read: the
    handler of line 548 passes the fault over. *)
Lemma check_cancelled_absent part sw r s1 e :
  status_div r = Raises e ->
  check_cancelled part sw r s1 = (Normal false, record WaitStatusDiv s1).
Proof.
  intros Hs.
  unfold check_cancelled, switch_to_main, bind, try_except, call, gets.
  now rewrite Hs.
Qed.

(** The status step when the text matches a "Not in RSC" pattern: the
    row is written; then the way back to the main window goes through,
    and the pass continues with the next part number, or raises inside
    the try block of the step, whose handler passes the fault over. *)
Lemma check_cancelled_rsc_cases part r s1 raw :
  status_div r = Returns raw ->
  matches_not_in_rsc (Py.strip raw) = true ->
  exists sig s2,
    check_cancelled part true r s1 = (sig, s2) /\
    sheet s2 = sheet s1 ++ [(NotInRSC, part)] /\
    restart_count s2 = restart_count s1 /\
    ((rsc_return r /\ sig = LoopContinue /\ idx s2 = S (idx s1) /\
      trace s2 =
      trace s1 ++
      [WaitStatusDiv; SwitchToDefaultContent;
       SwitchToWindow (main_window s1)])
     \/
     (~ rsc_return r /\ sig = Normal false)).
Proof.
  intros Hs Hm.
  unfold check_cancelled, switch_to_main, bind, try_except, call, gets.
  rewrite Hs. cbv beta iota zeta.
  rewrite Hm, (matches_not_in_rsc_truthy _ Hm).
  unfold rsc_return. simpl.
  destruct (default_content_rsc r) as [[]|e1]; simpl.
  - destruct (switch_main_rsc r) as [[]|e2]; simpl.
    + do 2 eexists. split; [reflexivity|]. simpl.
      split; [reflexivity|]. split; [reflexivity|].
      left. split; [now split|]. split; [reflexivity|].
      split; [reflexivity|]. now rewrite <- !app_assoc.
    + do 2 eexists. split; [reflexivity|]. simpl.
      split; [reflexivity|]. split; [reflexivity|].
      right. split; [intros (_ & C); discriminate | reflexivity].
  - do 2 eexists. split; [reflexivity|]. simpl.
    split; [reflexivity|]. split; [reflexivity|].
    right. split; [intros (C & _); discriminate | reflexivity].
Qed.

(** The status step when the text matches no "Not in RSC" pattern
    writes under "Cancelled" at most. *)
Lemma check_cancelled_no_rsc part sw r raw :
  status_div r = Returns raw ->
  matches_not_in_rsc (Py.strip raw) = false ->
  preserves (appended [Cancelled] part) (check_cancelled part sw r).
Proof.
  intros Hs Hn s.
  unfold check_cancelled, switch_to_main, bind, try_except, call, gets.
  rewrite Hs. cbv beta iota zeta. rewrite Hn, andb_false_r. simpl.
  destruct (Py.truthy (Py.strip raw) && matches_cancelled (Py.strip raw));
    simpl.
  - destruct sw; simpl.
    + destruct (default_content_cancelled r) as [[]|e1]; simpl;
        [destruct (switch_main_cancelled r) as [[]|e2]; simpl|];
        exists [(Cancelled, part)]; (split; [reflexivity|]);
        constructor; try constructor; simpl; auto.
    + destruct (switch_main_cancelled r) as [[]|e2]; simpl;
        exists [(Cancelled, part)]; (split; [reflexivity|]);
        constructor; try constructor; simpl; auto.
  - exists []. simpl. rewrite app_nil_r. split; [reflexivity | constructor].
Qed.

(** The status step when no "Not in RSC" pattern matches writes under
    "Cancelled" at most. *)
Lemma check_cancelled_unmatched part sw r :
  status_matches matches_not_in_rsc r = false ->
  preserves (appended [Cancelled] part) (check_cancelled part sw r).
Proof.
  unfold status_matches. intros Hn.
  destruct (status_div r) as [raw|e] eqn:Hs.
  - exact (check_cancelled_no_rsc part sw r raw Hs Hn).
  - intros s. rewrite (check_cancelled_absent part sw r s e Hs). simpl.
    exists []. simpl. rewrite app_nil_r. split; [reflexivity | constructor].
Qed.

(** X16.  The "Not in RSC" rule as the code has it: when a frame was
    entered, a "Not in RSC" row is written exactly when the status
    element is read and its trimmed text matches one of the three
    patterns.  When the two commands that lead back to the main window
    (lines 537-538) return, it is the only row of the pass, nothing
    else is issued after the status read, and the loop goes on to the
    next part number.  When one of them raises, the exception is
    caught by the handler of line 548 and the pass goes on to the
    discovery step with the row written. *)
Theorem not_in_rsc_rule part total r s sw s1 :
  reaches_extraction part total r s sw s1 ->
  (In (NotInRSC, part) (rows_of_pass part total r s) <->
   status_matches matches_not_in_rsc r = true)
  /\
  (status_matches matches_not_in_rsc r = true ->
   (rsc_return r ->
    rows_of_pass part total r s = [(NotInRSC, part)] /\
    fst (iteration part total r s) = LoopContinue /\
    idx (snd (iteration part total r s)) = S (idx s) /\
    restart_count (snd (iteration part total r s)) = restart_count s1 /\
    trace (snd (iteration part total r s)) =
    trace s1 ++
    [WaitStatusDiv; SwitchToDefaultContent;
     SwitchToWindow (main_window s1)]) /\
   (~ rsc_return r ->
    exists s2,
      reaches_discovery part total r s false s2 /\
      sheet s2 = sheet s ++ [(NotInRSC, part)])).
Proof.
  intros H.
  pose proof (reaches_extraction_pass _ _ _ _ _ _ H) as E.
  destruct (reaches_extraction_sheet _ _ _ _ _ _ H) as [Sh Ei].
  assert (sw = true) as ->.
  { destruct H as (s0 & _ & H). now apply navigate_true in H. }
  destruct (status_matches matches_not_in_rsc r) eqn:Hm.
  - (* a pattern matches *)
    unfold status_matches in Hm.
    destruct (status_div r) as [raw|e0] eqn:Hs; [|discriminate].
    destruct (check_cancelled_rsc_cases part r s1 raw Hs Hm)
      as (sig2 & s2 & E2 & S2 & R2 & D).
    split.
    + split; [reflexivity|]. intros _.
      destruct (extract_fields part true r s1) as [sig s3] eqn:Ex.
      pose proof (settle_sheet part r sig s3) as E5. rewrite <- E in E5.
      assert (appended [NoDiscovery; NoAsterisk; OnOrder; NoLocation]
                part s2 s3) as (rows & Er & _).
      { revert Ex. unfold extract_fields, bind. rewrite E2.
        destruct sig2 as [c| | |e]; try (intros [= _ <-]; apply rel_refl).
        intros Ex.
        exact (appended_run _ _ _ _ _ _
                 (independent_rules_appended part true c r) Ex). }
      pose proof (rows_of_pass_spec part total r s) as Sp.
      rewrite E5, Er, S2, Sh, <- !app_assoc in Sp.
      apply app_inv_head in Sp. rewrite <- Sp. now left.
    + intros _. split.
      * intros Hret.
        destruct D as [(_ & -> & I2 & T2)|(Hnr & _)]; [|now destruct Hnr].
        unfold extract_fields in E. unfold bind in E. rewrite E2 in E.
        simpl in E. rewrite E. simpl.
        split; [|split; [reflexivity|split; [congruence|split]]].
        -- apply rows_of_pass_unique. rewrite E. simpl. congruence.
        -- exact R2.
        -- exact T2.
      * intros Hnr.
        destruct D as [(Hret & _)|(_ & ->)]; [now destruct Hnr|].
        exists s2. split; [|congruence].
        exists true, s1. now split.
  - (* no pattern matches *)
    split; [|discriminate]. split; [|discriminate]. intros I. exfalso.
    destruct (extract_fields part true r s1) as [sig s3] eqn:Ex.
    pose proof (settle_sheet part r sig s3) as E5. rewrite <- E in E5.
    assert (appended [Cancelled; NoDiscovery; NoAsterisk; OnOrder;
                      NoLocation] part s1 s3) as (rows & Er & Fr).
    { revert Ex. unfold extract_fields, bind.
      destruct (check_cancelled part true r s1) as [sig2 s2] eqn:E2.
      pose proof (appended_run _ _ _ _ _ _
                    (check_cancelled_unmatched part true r Hm) E2)
        as A2.
      assert (appended [Cancelled; NoDiscovery; NoAsterisk; OnOrder;
                        NoLocation] part s1 s2) as A2'.
      { eapply appended_incl; [|exact A2]. unfold incl. simpl. tauto. }
      destruct sig2 as [c| | |e]; try (intros [= _ <-]; exact A2').
      intros Ex. eapply rel_trans; [exact A2'|].
      eapply appended_incl;
        [|exact (appended_run _ _ _ _ _ _
                   (independent_rules_appended part true c r) Ex)].
      unfold incl. simpl. tauto. }
    rewrite Er, Sh, <- app_assoc in E5.
    apply rows_of_pass_unique in E5. rewrite E5, in_app_iff in I.
    destruct I as [I|I].
    + revert I. eapply not_in_rows; [exact Fr|].
      simpl. intuition discriminate.
    + destruct sig; simpl in I; intuition discriminate.
Qed.

Lemma not_in_rsc_rule_witness :
  rows_of_pass "A1" 1
    (item_page [] (Returns "Item not carried in your RSC") absent absent
               (Returns "12") absent)
    (initial_state "main")
  = [(NotInRSC, "A1")].
Proof.
  edestruct (not_in_rsc_rule "A1" 1
               (item_page [] (Returns "Item not carried in your RSC")
                          absent absent (Returns "12") absent)
               (initial_state "main") true) as (_ & H).
  - unfold reaches_extraction. eexists. split; vm_compute; reflexivity.
  - destruct H as (H & _); [vm_compute; reflexivity|].
    destruct H as (H & _); [split; reflexivity | exact H].
Defined.

(** C3 fails on the code: the status text matches a "Not in RSC"
    pattern and the switch to the default content of line 537 raises.
    The exception is caught by the handler of the status step (line
    548), so the [continue] of line 540 is not reached: the pass goes
    on with the discovery, asterisk, on-order and location steps, and
    writes "No Discovery", "On Order" and "No Location" below "Not in
    RSC". *)
Theorem not_in_rsc_skip_swallowed :
  let r := item_page [537] (Returns "Item not carried in your RSC")
                     absent absent (Returns "12") absent in
  status_matches matches_not_in_rsc r = true /\
  default_content_rsc r = Raises WebDriverException /\
  rows_of_pass "A1" 1 r (initial_state "main")
  = [(NotInRSC, "A1"); (NoDiscovery, "A1"); (OnOrder, "A1");
     (NoLocation, "A1")] /\
  skipn 16 (trace (snd (iteration "A1" 1 r (initial_state "main"))))
  = [WaitStatusDiv; SwitchToDefaultContent;
     WaitDiscovery; PageSource; Sleep 3;
     WaitDiscovery; PageSource; Sleep 3;
     WaitDiscovery; PageSource;
     WaitLink; WaitOrderSpan; WaitLocation;
     SwitchToDefaultContent; SwitchToWindow "main"].
Proof. vm_compute. repeat split. Qed.

(** The status step when the text matches the cancellation pattern and
    not the replacement pattern: the row is written, then the way back
    to the main window goes through, and the pass continues with the
    next part number, or raises. *)
Lemma check_cancelled_fires_cases part r s1 raw :
  status_div r = Returns raw ->
  matches_not_in_rsc (Py.strip raw) = false ->
  matches_cancelled (Py.strip raw) = true ->
  exists sig s2 tr,
    extract_fields part true r s1 = (sig, s2) /\
    sheet s2 = sheet s1 ++ [(Cancelled, part)] /\
    restart_count s2 = restart_count s1 /\
    trace s2 = trace s1 ++ WaitStatusDiv :: tr /\
    no_field_read tr /\
    ((cancelled_return r /\ sig = LoopContinue /\ idx s2 = S (idx s1) /\
      tr = [SwitchToDefaultContent; SwitchToWindow (main_window s1)])
     \/
     (~ cancelled_return r /\ idx s2 = idx s1 /\ exists e, sig = Raised e)).
Proof.
  intros Hs Hn Hc.
  unfold extract_fields, check_cancelled, switch_to_main, bind, try_except,
    call, gets.
  rewrite Hs. cbv beta iota zeta.
  rewrite Hn, Hc, (matches_cancelled_truthy _ Hc).
  unfold cancelled_return, no_field_read. simpl.
  destruct (default_content_cancelled r) as [[]|e1]; simpl.
  - destruct (switch_main_cancelled r) as [[]|e2]; simpl.
    + do 2 eexists.
      exists [SwitchToDefaultContent; SwitchToWindow (main_window s1)].
      split; [reflexivity|]. simpl.
      split; [reflexivity|]. split; [reflexivity|].
      split; [now rewrite <- !app_assoc|]. split; [repeat constructor|].
      left. split; [now split|]. now repeat split.
    + do 2 eexists.
      exists [SwitchToDefaultContent; SwitchToWindow (main_window s1)].
      split; [reflexivity|]. simpl.
      split; [reflexivity|]. split; [reflexivity|].
      split; [now rewrite <- !app_assoc|]. split; [repeat constructor|].
      right. split; [intros (_ & C); discriminate|].
      split; [reflexivity | now exists e2].
  - do 2 eexists. exists [SwitchToDefaultContent].
    split; [reflexivity|]. simpl.
    split; [reflexivity|]. split; [reflexivity|].
    split; [now rewrite <- !app_assoc|]. split; [repeat constructor|].
    right. split; [intros (C & _); discriminate|].
    split; [reflexivity | now exists e1].
Qed.

(** The status step when the text matches neither rule. *)
Lemma check_cancelled_passes part sw r s1 raw :
  status_div r = Returns raw ->
  matches_not_in_rsc (Py.strip raw) = false ->
  matches_cancelled (Py.strip raw) = false ->
  check_cancelled part sw r s1 = (Normal false, record WaitStatusDiv s1).
Proof.
  intros Hs Hn Hc.
  unfold check_cancelled, switch_to_main, bind, try_except, call, gets.
  rewrite Hs. cbv beta iota zeta.
  rewrite Hn, Hc, !andb_false_r. reflexivity.
Qed.

(** C4, as the code has it: when a frame was entered and the status
    text matches none of the "Not in RSC" patterns, a "Cancelled" row
    is written exactly when the status element is read and its trimmed
    text matches the cancellation or closeout pattern and not the
    replacement or discontinued pattern.  No later rule is tried then.
    When the two commands that lead back to the main window (lines
    553-554) return, it is the only row of the pass and the loop goes
    on to the next part number; when one of them raises, the handler
    of the try block adds a "Not in AceNet" row below it and counts a
    restart.  When the rule does not fire, the pass goes on to the
    discovery step with nothing written.  The text "Cancelled -
    replacement available" matches the cancellation pattern and the
    replacement pattern, so it is not cancelled. *)
Theorem cancelled_rule part total r s sw s1 :
  reaches_extraction part total r s sw s1 ->
  status_matches matches_not_in_rsc r = false ->
  (In (Cancelled, part) (rows_of_pass part total r s) <->
   status_matches matches_cancelled r = true)
  /\ (status_matches matches_cancelled r = true ->
      (exists tr,
         trace (snd (iteration part total r s))
         = trace s1 ++ WaitStatusDiv :: tr /\
         no_field_read tr) /\
      (cancelled_return r ->
       rows_of_pass part total r s = [(Cancelled, part)] /\
       fst (iteration part total r s) = LoopContinue /\
       idx (snd (iteration part total r s)) = S (idx s) /\
       restart_count (snd (iteration part total r s)) = restart_count s1 /\
       trace (snd (iteration part total r s)) =
       trace s1 ++
       [WaitStatusDiv; SwitchToDefaultContent;
        SwitchToWindow (main_window s1)]) /\
      (~ cancelled_return r ->
       rows_of_pass part total r s
       = [(Cancelled, part); (NotInAceNet, part)] /\
       restart_count (snd (iteration part total r s))
       = S (restart_count s1) /\
       ((fst (iteration part total r s) = LoopContinue /\
         idx (snd (iteration part total r s)) = S (idx s))
        \/
        (fst (iteration part total r s) = LoopBreak /\
         idx (snd (iteration part total r s)) = idx s))))
  /\ (status_matches matches_cancelled r = false ->
      reaches_discovery part total r s false (record WaitStatusDiv s1))
  /\ Py.re_search cancelled_or_closeout
       (Py.strip "Cancelled - replacement available") = true
  /\ Py.re_search replacement_or_discontinued
       (Py.strip "Cancelled - replacement available") = true
  /\ matches_cancelled (Py.strip "Cancelled - replacement available")
     = false.
Proof.
  intros H Hn.
  pose proof (reaches_extraction_pass _ _ _ _ _ _ H) as E.
  destruct (reaches_extraction_sheet _ _ _ _ _ _ H) as [Sh Ei].
  assert (sw = true) as ->.
  { destruct H as (s0 & _ & H). now apply navigate_true in H. }
  assert (Hpass :
    check_cancelled part true r s1 = (Normal false, record WaitStatusDiv s1) ->
    (In (Cancelled, part) (rows_of_pass part total r s) -> False) /\
    reaches_discovery part total r s false (record WaitStatusDiv s1)).
  { intros E2.
    assert (reaches_discovery part total r s false (record WaitStatusDiv s1))
      as Hr.
    { exists true, s1. now split. }
    split; [|exact Hr]. intros I.
    destruct (reaches_discovery_pass _ _ _ _ _ _ Hr) as (sw' & E').
    match type of E' with _ = settle _ _ ?x =>
      destruct x as [sig s3] eqn:E3
    end.
    pose proof (appended_run _ _ _ _ _ _
                  (independent_rules_appended part sw' false r) E3)
      as (rows_b & Eb & Fb).
    pose proof (settle_sheet part r sig s3) as E5. rewrite <- E' in E5.
    rewrite Eb in E5. simpl in E5. rewrite Sh, <- app_assoc in E5.
    apply rows_of_pass_unique in E5. rewrite E5, in_app_iff in I.
    destruct I as [I|I].
    + revert I. eapply not_in_rows; [exact Fb|].
      simpl. intuition discriminate.
    + destruct sig; simpl in I; intuition discriminate. }
  unfold status_matches in *.
  destruct (status_div r) as [raw|e0] eqn:Hs.
  2:{ destruct (Hpass (check_cancelled_absent part true r s1 e0 Hs))
        as [No Hr].
      split; [|split; [discriminate|split; [intros _; exact Hr|repeat split]]].
      split; [intros I; now destruct (No I) | discriminate]. }
  destruct (matches_cancelled (Py.strip raw)) eqn:Hc.
  - (* the rule fires *)
    destruct (check_cancelled_fires_cases part r s1 raw Hs Hn Hc)
      as (sig & s2 & tr & Ex & S2 & R2 & T2 & F2 & D).
    rewrite Ex in E.
    split; [|split; [|split; [discriminate|repeat split]]].
    + pose proof (settle_sheet part r sig s2) as E5. rewrite <- E in E5.
      rewrite S2, Sh, <- app_assoc in E5. apply rows_of_pass_unique in E5.
      rewrite E5. split; [reflexivity|]. intros _. now left.
    + intros _.
      destruct D as [(Hret & -> & I2 & ->)|(Hnr & I2 & e & ->)]; simpl in E.
      * assert (Er : rows_of_pass part total r s = [(Cancelled, part)]).
        { apply rows_of_pass_unique. rewrite E. simpl. congruence. }
        split; [|split].
        -- exists [SwitchToDefaultContent; SwitchToWindow (main_window s1)].
           rewrite E. simpl. split; [exact T2 | exact F2].
        -- intros _. rewrite E. simpl. split; [exact Er|].
           split; [reflexivity|]. split; [congruence|].
           split; [exact R2 | exact T2].
        -- intros C. now destruct C.
      * destruct (recover_spec part r s2)
          as (sig5 & s5 & tr5 & Er5 & Sh5 & Rc5 & Tr5 & F5 & D5).
        rewrite Er5 in E.
        assert (Er : rows_of_pass part total r s
                     = [(Cancelled, part); (NotInAceNet, part)]).
        { apply rows_of_pass_unique. rewrite E. simpl.
          rewrite Sh5, S2, Sh. now rewrite <- app_assoc. }
        split; [|split].
        -- exists (tr ++ DriverQuit :: tr5). rewrite E. simpl. split.
           ++ rewrite Tr5, T2. now rewrite <- app_assoc.
           ++ apply Forall_app. split; [exact F2|].
              constructor; [reflexivity | exact F5].
        -- intros C. now destruct Hnr.
        -- intros _. rewrite E. simpl. split; [exact Er|].
           split; [congruence|].
           destruct D5 as [(-> & I5 & _)|(-> & I5 & _)].
           ++ left. split; [reflexivity | congruence].
           ++ right. split; [reflexivity | congruence].
  - (* the rule does not fire *)
    destruct (Hpass (check_cancelled_passes part true r s1 raw Hs Hn Hc))
      as [No Hr].
    split; [|split; [discriminate|split; [intros _; exact Hr|repeat split]]].
    split; [intros I; now destruct (No I) | discriminate].
Qed.

Lemma cancelled_rule_witness :
  rows_of_pass "A3" 3
    (item_page [] (Returns "Cancelled by vendor") absent absent
               (Returns "4") absent)
    (initial_state "main")
  = [(Cancelled, "A3")].
Proof.
  edestruct (cancelled_rule "A3" 3
               (item_page [] (Returns "Cancelled by vendor") absent absent
                          (Returns "4") absent)
               (initial_state "main") true) as (_ & H & _).
  - unfold reaches_extraction. eexists. split; vm_compute; reflexivity.
  - vm_compute; reflexivity.
  - destruct H as (_ & H & _); [vm_compute; reflexivity|].
    destruct H as (H & _); [split; reflexivity | exact H].
Defined.

(** C4 as it is stated fails: the status text is "Cancelled by
    vendor" and the switch to the main window of line 554 raises; the
    rows of the pass are "Cancelled" and "Not in AceNet", and a restart
    is counted. *)
Lemma cancelled_rule_counterexample :
  let r := item_page [554] (Returns "Cancelled by vendor") absent absent
                     (Returns "4") absent in
  status_matches matches_not_in_rsc r = false /\
  status_matches matches_cancelled r = true /\
  rows_of_pass "A3" 3 r (initial_state "main")
  = [(Cancelled, "A3"); (NotInAceNet, "A3")] /\
  restart_count (snd (iteration "A3" 3 r (initial_state "main"))) = 1.
Proof. vm_compute. repeat split. Qed.

(** *** Part numbers the catalog does not know *)

Lemma submit_part_number_normal part total r s0 s1 :
  submit_part_number part total r s0 = (Normal tt, s1) ->
  sheet s1 = sheet s0 /\ idx s1 = idx s0 /\
  restart_count s1 = restart_count s0.
Proof.
  intros H.
  assert (nav_ok part (submit_part_number part total r)) as N.
  { unfold submit_part_number, locate_search_box, list_windows. nav_tac. }
  assert (vars_ok (submit_part_number part total r)) as V.
  { unfold submit_part_number, locate_search_box, list_windows. vars_tac. }
  specialize (N s0). specialize (V s0). rewrite H in N, V.
  simpl in N, V. tauto.
Qed.

(** The redirect branch: the row is written first; then the way back
    to the search box either goes through, and the pass continues with
    the next part number, or raises. *)
Lemma check_redirect_cases part r s1 url :
  current_url r = Returns url ->
  Py.contains search_results_marker url = true ->
  exists sig s2 tr,
    check_redirect part r s1 = (sig, s2) /\
    sheet s2 = sheet s1 ++ [(NotInAceNet, part)] /\
    restart_count s2 = restart_count s1 /\
    driver s2 = driver s1 /\
    trace s2 = trace s1 ++ CurrentUrl :: tr /\
    no_field_read tr /\
    ((redirect_cleared r /\ sig = LoopContinue /\ idx s2 = S (idx s1) /\
      forall handles,
        handles_redirect r = Returns handles ->
        tr = [SwitchToWindow (main_window s1); GetHome; WaitSearchBox 20;
              Sleep 2; WindowHandles] ++
             cleanup_commands (popup_switch_redirect r) (main_window s1)
                              0 handles ++
             [SwitchToWindow (main_window s1)])
     \/
     (~ redirect_cleared r /\ idx s2 = idx s1 /\ exists e, sig = Raised e)).
Proof.
  intros Hu Hc.
  unfold check_redirect, switch_to_main, sleep, attempt.
  unfold bind, call, gets. rewrite Hu. cbv beta iota zeta. rewrite Hc.
  unfold redirect_cleared, no_field_read. simpl.
  destruct (switch_main_redirect r) as [[]|e] eqn:E1; simpl.
  2:{ do 2 eexists. exists [SwitchToWindow (main_window s1)].
      split; [reflexivity|]. simpl.
      split; [reflexivity|]. split; [reflexivity|]. split; [reflexivity|].
      split; [now rewrite <- app_assoc|]. split; [repeat constructor|].
      right. split; [intros (C & _); discriminate|].
      split; [reflexivity | now exists e]. }
  destruct (get_home_redirect r) as [[]|e] eqn:E2; simpl.
  2:{ do 2 eexists. exists [SwitchToWindow (main_window s1); GetHome].
      split; [reflexivity|]. simpl.
      split; [reflexivity|]. split; [reflexivity|]. split; [reflexivity|].
      split; [now rewrite <- !app_assoc|]. split; [repeat constructor|].
      right. split; [intros (_ & C & _); discriminate|].
      split; [reflexivity | now exists e]. }
  destruct (search_box_redirect r) as [[]|e] eqn:E3; simpl.
  2:{ do 2 eexists.
      exists [SwitchToWindow (main_window s1); GetHome; WaitSearchBox 20].
      split; [reflexivity|]. simpl.
      split; [reflexivity|]. split; [reflexivity|]. split; [reflexivity|].
      split; [now rewrite <- !app_assoc|]. split; [repeat constructor|].
      right. split; [intros (_ & _ & C & _); discriminate|].
      split; [reflexivity | now exists e]. }
  destruct (handles_redirect r) as [handles|e] eqn:E4; simpl.
  2:{ do 2 eexists.
      exists [SwitchToWindow (main_window s1); GetHome; WaitSearchBox 20;
              Sleep 2; WindowHandles].
      split; [reflexivity|]. simpl.
      split; [reflexivity|]. split; [reflexivity|]. split; [reflexivity|].
      split; [now rewrite <- !app_assoc|]. split; [repeat constructor|].
      right. split; [intros (_ & _ & _ & (hs & C) & _); discriminate|].
      split; [reflexivity | now exists e]. }
  rewrite close_popups_commands. simpl.
  pose proof (cleanup_commands_no_field (popup_switch_redirect r)
                (main_window s1) handles 0) as F.
  destruct (switch_main_home r) as [[]|e] eqn:E5; simpl.
  - do 2 eexists.
    exists ([SwitchToWindow (main_window s1); GetHome; WaitSearchBox 20;
             Sleep 2; WindowHandles] ++
            cleanup_commands (popup_switch_redirect r) (main_window s1)
                             0 handles ++
            [SwitchToWindow (main_window s1)]).
    split; [reflexivity|]. simpl.
    split; [reflexivity|]. split; [reflexivity|]. split; [reflexivity|].
    split; [now rewrite <- !app_assoc|]. split.
    { repeat constructor. apply Forall_app. split; [exact F|].
      repeat constructor. }
    left. split.
    { split; [reflexivity|]. split; [reflexivity|]. split; [reflexivity|].
      split; [now exists handles | reflexivity]. }
    split; [reflexivity|]. split; [reflexivity|].
    intros handles' [= <-]. reflexivity.
  - do 2 eexists.
    exists ([SwitchToWindow (main_window s1); GetHome; WaitSearchBox 20;
             Sleep 2; WindowHandles] ++
            cleanup_commands (popup_switch_redirect r) (main_window s1)
                             0 handles ++
            [SwitchToWindow (main_window s1)]).
    split; [reflexivity|]. simpl.
    split; [reflexivity|]. split; [reflexivity|]. split; [reflexivity|].
    split; [now rewrite <- !app_assoc|]. split.
    { repeat constructor. apply Forall_app. split; [exact F|].
      repeat constructor. }
    right. split; [intros (_ & _ & _ & _ & C); discriminate|].
    split; [reflexivity | now exists e].
Qed.

(** C7, as the code has it: when the search was submitted and the
    address of the main window then holds the search-results marker, or
    does not but fewer than two window handles exist, every row of the
    pass is a "Not in AceNet" row and no command looks for a frame or
    reads a field.  With fewer than two handles, and after a redirect
    whose way back (the reload of the home page and the clean-up of the
    windows, lines 452-465) goes through, there is one such row, the
    loop goes on to the next part number and no restart is counted.
    When a call of the way back raises, the handler of the try block
    writes a second "Not in AceNet" row and counts a restart; the loop
    then goes on to the next part number if the count is within
    [max_restarts] and the new login succeeds, and stops at this part
    number otherwise. *)
Theorem not_in_catalog_rule part total r s s1 url :
  reaches_address_check part total r s s1 ->
  current_url r = Returns url ->
  (Py.contains search_results_marker url = true ->
   (Forall (fun row => row = (NotInAceNet, part))
           (rows_of_pass part total r s) /\
    exists tr,
      trace (snd (iteration part total r s)) = trace s1 ++ tr /\
      no_field_read tr) /\
   (redirect_cleared r ->
    rows_of_pass part total r s = [(NotInAceNet, part)] /\
    fst (iteration part total r s) = LoopContinue /\
    idx (snd (iteration part total r s)) = S (idx s) /\
    restart_count (snd (iteration part total r s)) = restart_count s1 /\
    forall handles,
      handles_redirect r = Returns handles ->
      trace (snd (iteration part total r s)) =
      trace s1 ++
      [CurrentUrl; SwitchToWindow (main_window s1); GetHome;
       WaitSearchBox 20; Sleep 2; WindowHandles] ++
      cleanup_commands (popup_switch_redirect r) (main_window s1)
                       0 handles ++
      [SwitchToWindow (main_window s1)]) /\
   (~ redirect_cleared r ->
    rows_of_pass part total r s
    = [(NotInAceNet, part); (NotInAceNet, part)] /\
    restart_count (snd (iteration part total r s))
    = S (restart_count s1) /\
    ((fst (iteration part total r s) = LoopContinue /\
      idx (snd (iteration part total r s)) = S (idx s) /\
      S (restart_count s1) <= max_restarts /\
      exists h, relogin_fault r = Returns h)
     \/
     (fst (iteration part total r s) = LoopBreak /\
      idx (snd (iteration part total r s)) = idx s /\
      (max_restarts < S (restart_count s1) \/
       exists e, relogin_fault r = Raises e)))))
  /\
  (Py.contains search_results_marker url = false ->
   forall windows,
     window_handles r = Returns windows ->
     length windows < 2 ->
     rows_of_pass part total r s = [(NotInAceNet, part)] /\
     fst (iteration part total r s) = LoopContinue /\
     idx (snd (iteration part total r s)) = S (idx s) /\
     restart_count (snd (iteration part total r s)) = restart_count s1 /\
     trace (snd (iteration part total r s)) =
     trace s1 ++ [CurrentUrl; WindowHandles]).
Proof.
  intros (s0 & H0 & H1) Hu.
  pose proof (iteration_settle part total r s s0 H0) as E.
  destruct (health_check_normal _ _ _ H0) as [Sh0 Ei0].
  destruct (submit_part_number_normal _ _ _ _ _ H1) as (Sh1 & Ei1 & _).
  unfold process, navigate in E.
  rewrite bind_assoc, (bind_normal _ _ _ _ _ H1) in E.
  split.
  - intros Hc.
    destruct (check_redirect_cases part r s1 url Hu Hc)
      as (sig & s2 & tr & Ec & Sh2 & Rc2 & _ & Tr2 & F2 & D).
    unfold bind at 1 2 3 in E. rewrite Ec in E.
    destruct D as [(Hclr & -> & I2 & Tr)|(Hn & I2 & e & ->)].
    + (* the way back goes through *)
      simpl in E.
      assert (Er : rows_of_pass part total r s = [(NotInAceNet, part)]).
      { apply rows_of_pass_unique. rewrite E. simpl. congruence. }
      split; [split|split].
      * rewrite Er. repeat constructor.
      * exists (CurrentUrl :: tr). rewrite E. simpl.
        split; [exact Tr2|]. constructor; [reflexivity | exact F2].
      * intros _. rewrite E. simpl.
        split; [exact Er|]. split; [reflexivity|].
        split; [congruence|]. split; [exact Rc2|].
        intros handles Hh. rewrite Tr2, (Tr handles Hh). reflexivity.
      * intros C. now destruct C.
    + (* a call of the way back raises *)
      simpl in E.
      destruct (recover_spec part r s2)
        as (sig5 & s5 & tr5 & Er5 & Sh5 & Rc5 & Tr5 & F5 & D5).
      rewrite Er5 in E.
      assert (Er : rows_of_pass part total r s
                   = [(NotInAceNet, part); (NotInAceNet, part)]).
      { apply rows_of_pass_unique. rewrite E. simpl.
        rewrite Sh5, Sh2, Sh1, Sh0. now rewrite <- app_assoc. }
      split; [split|split].
      * rewrite Er. repeat constructor.
      * exists (CurrentUrl :: tr ++ DriverQuit :: tr5). rewrite E. simpl.
        split.
        -- rewrite Tr5, Tr2. now rewrite <- app_assoc.
        -- constructor; [reflexivity|]. apply Forall_app.
           split; [exact F2|]. constructor; [reflexivity | exact F5].
      * intros C. now destruct Hn.
      * intros _. rewrite E. simpl.
        split; [exact Er|]. split; [congruence|].
        destruct D5 as [(-> & I5 & B5 & L5)|(-> & I5 & B5)].
        -- left. split; [reflexivity|]. split; [congruence|].
           split; [|exact L5]. now rewrite <- Rc2.
        -- right. split; [reflexivity|]. split; [congruence|].
           now rewrite <- Rc2.
  - intros Hc windows Hw Hl.
    unfold check_redirect, switch_to_popup, switch_to_main in E.
    unfold bind, call, gets in E.
    rewrite Hu in E. cbv beta iota zeta in E. rewrite Hc in E.
    simpl in E. rewrite Hw in E. simpl in E.
    apply Nat.ltb_lt in Hl. rewrite Hl in E. simpl in E.
    rewrite E. simpl. split; [|split; [reflexivity|split; [|split]]].
    + apply rows_of_pass_unique. rewrite E. simpl. congruence.
    + congruence.
    + reflexivity.
    + now rewrite <- !app_assoc.
Qed.

Lemma not_in_catalog_rule_witness :
  rows_of_pass "A1" 3
    (scenario [] "https://acenet.aceservices.com/search/product?q=A1"
              ["main"] absent absent absent absent absent)
    (initial_state "main")
  = [(NotInAceNet, "A1")].
Proof.
  edestruct (not_in_catalog_rule "A1" 3
               (scenario []
                  "https://acenet.aceservices.com/search/product?q=A1"
                  ["main"] absent absent absent absent absent)
               (initial_state "main")) as (H & _).
  - unfold reaches_address_check. eexists. split; vm_compute; reflexivity.
  - reflexivity.
  - destruct H as (_ & H & _); [vm_compute; reflexivity|].
    destruct H as (H & _); [|exact H].
    unfold redirect_cleared. repeat split; try reflexivity.
    now exists ["main"].
Defined.

(** C7 as it is stated fails: the main window was redirected to the
    search results, the switch to the main window of line 452 raises
    and the new login fails; the pass writes "Not in AceNet" twice and
    the loop stops without going on to the next part number. *)
Lemma not_in_catalog_rule_counterexample :
  let r := scenario [452; 645]
             "https://acenet.aceservices.com/search/product?q=A1"
             ["main"] absent absent absent absent absent in
  Py.contains search_results_marker
    "https://acenet.aceservices.com/search/product?q=A1" = true /\
  rows_of_pass "A1" 3 r (initial_state "main")
  = [(NotInAceNet, "A1"); (NotInAceNet, "A1")] /\
  fst (iteration "A1" 3 r (initial_state "main")) = LoopBreak /\
  idx (snd (iteration "A1" 3 r (initial_state "main"))) = 0 /\
  restart_count (snd (iteration "A1" 3 r (initial_state "main"))) = 1.
Proof. vm_compute. repeat split. Qed.

(** *** The search box that cannot be found *)

(** C10, as the code has it: when the driver is alive, the first wait
    for the search box fails, the reload of the home page and the wait
    of twenty seconds that follows it succeed, and the search box is
    then not found by the second wait of ten seconds, the pass writes
    "Not in AceNet".  When the listing of the windows (line 392) and
    the final switch to the main window (line 399) return, that is the
    single row of the pass; every window other than the main one is
    switched to and, when the switch returned, closed, a switch or a
    close that fails being passed over ([cleanup_commands]); the pass
    returns to the main window and goes on to the next part number;
    the browser is not restarted and [restart_count] does not move.
    When the listing or the final switch raises, the handler of the
    try block writes a second "Not in AceNet" row, quits the driver and
    counts a restart. *)
Theorem search_box_skip part total r s t e1 e2 :
  title r = Returns t ->
  update_status r = Returns tt ->
  switch_main_start r = Returns tt ->
  search_box_first r = Raises e1 ->
  switch_main_reload r = Returns tt ->
  get_home_reload r = Returns tt ->
  search_box_reload r = Returns tt ->
  search_box_retry r = Raises e2 ->
  (forall handles,
     handles_skip r = Returns handles ->
     switch_main_skip r = Returns tt ->
     rows_of_pass part total r s = [(NotInAceNet, part)] /\
     fst (iteration part total r s) = LoopContinue /\
     idx (snd (iteration part total r s)) = S (idx s) /\
     restart_count (snd (iteration part total r s)) = restart_count s /\
     driver (snd (iteration part total r s)) = driver s /\
     trace (snd (iteration part total r s)) =
     trace s ++
     [GetTitle; UpdateStatus (idx s + 1) total;
      SwitchToWindow (main_window s); WaitSearchBox 10;
      SwitchToWindow (main_window s); GetHome; WaitSearchBox 20; Sleep 2;
      WaitSearchBox 10; WindowHandles] ++
     cleanup_commands (popup_switch_skip r) (main_window s) 0 handles ++
     [SwitchToWindow (main_window s)])
  /\
  ((exists e, handles_skip r = Raises e) \/
   (exists e, switch_main_skip r = Raises e) ->
   rows_of_pass part total r s = [(NotInAceNet, part); (NotInAceNet, part)] /\
   restart_count (snd (iteration part total r s)) = S (restart_count s) /\
   In DriverQuit (trace (snd (iteration part total r s)))).
Proof.
  intros Ht Hu Hs H1 Hw Hg Hr H2.
  assert (health_check r s = (Normal tt, record GetTitle s)) as H0.
  { unfold health_check, is_driver_alive, bind, call. now rewrite Ht. }
  pose proof (iteration_settle part total r s _ H0) as E.
  unfold process, navigate, submit_part_number, locate_search_box,
    switch_to_main, sleep, attempt in E.
  unfold bind, try_except, call, gets in E.
  cbv beta iota zeta in E. rewrite Hu in E. simpl in E.
  rewrite Hs in E. simpl in E. rewrite H1 in E. simpl in E.
  rewrite Hw in E. simpl in E. rewrite Hg in E. simpl in E.
  rewrite Hr in E. simpl in E. rewrite H2 in E. simpl in E.
  split.
  - intros handles Hh Hm.
    rewrite Hh in E. simpl in E.
    rewrite close_popups_commands in E.
    simpl in E. rewrite Hm in E. simpl in E.
    rewrite E. simpl. split; [|repeat split].
    + apply rows_of_pass_unique. now rewrite E.
    + now rewrite <- !app_assoc.
  - intros Hf.
    assert (exists s1,
              iteration part total r s = recover part r s1 /\
              sheet s1 = sheet s ++ [(NotInAceNet, part)] /\
              restart_count s1 = restart_count s) as (s1 & Ei & Sh & Rc).
    { destruct (handles_skip r) as [handles|e] eqn:Hh; simpl in E.
      - destruct Hf as [(e & Hf)|(e & Hf)]; [discriminate|].
        rewrite close_popups_commands in E.
        simpl in E. rewrite Hf in E. simpl in E.
        eexists. split; [exact E|]. split; reflexivity.
      - eexists. split; [exact E|]. split; reflexivity. }
    destruct (recover_spec part r s1)
      as (sig & s' & tr & Er & Sh' & Rc' & Tr & _ & _).
    rewrite Ei, Er. simpl. split; [|split].
    + apply rows_of_pass_unique. rewrite Ei, Er. simpl.
      now rewrite Sh', Sh, <- app_assoc.
    + congruence.
    + rewrite Tr. apply in_or_app. right. now left.
Qed.

Lemma search_box_skip_witness :
  let r := item_page [373; 385; 395] absent absent absent absent absent in
  rows_of_pass "A1" 1 r (initial_state "main") = [(NotInAceNet, "A1")] /\
  restart_count (snd (iteration "A1" 1 r (initial_state "main"))) = 0 /\
  trace (snd (iteration "A1" 1 r (initial_state "main"))) =
  [GetTitle; UpdateStatus 1 1; SwitchToWindow "main"; WaitSearchBox 10;
   SwitchToWindow "main"; GetHome; WaitSearchBox 20; Sleep 2;
   WaitSearchBox 10; WindowHandles; SwitchToWindow "popup";
   SwitchToWindow "main"].
Proof.
  cbv zeta.
  pose proof (proj1 (search_box_skip "A1" 1
                (item_page [373; 385; 395] absent absent absent absent absent)
                (initial_state "main") "AceNet"
                WebDriverException WebDriverException
                eq_refl eq_refl eq_refl eq_refl eq_refl eq_refl eq_refl
                eq_refl) ["main"; "popup"] eq_refl eq_refl)
    as (H1 & _ & _ & H2 & _ & H3).
  split; [exact H1|]. split; [exact H2 | exact H3].
Defined.

(** C10 as it is stated fails: when the search box is found neither
    by the first wait nor by the wait of twenty seconds that follows
    the reload (line 380, outside the inner try block), the exception
    reaches the handler of the loop body, which restarts the browser
    and adds one to [restart_count]. *)
Lemma search_box_skip_counterexample :
  let r := item_page [373; 380] absent absent absent absent absent in
  search_box_first r = Raises WebDriverException /\
  search_box_reload r = Raises WebDriverException /\
  rows_of_pass "A1" 1 r (initial_state "main") = [(NotInAceNet, "A1")] /\
  restart_count (snd (iteration "A1" 1 r (initial_state "main"))) = 1 /\
  driver (snd (iteration "A1" 1 r (initial_state "main"))) = 1 /\
  trace (snd (iteration "A1" 1 r (initial_state "main"))) =
  [GetTitle; UpdateStatus 1 1; SwitchToWindow "main"; WaitSearchBox 10;
   SwitchToWindow "main"; GetHome; WaitSearchBox 20; DriverQuit;
   StartBrowserAndLogin].
Proof. vm_compute. repeat split. Qed.

(** *** Faults *)

Lemma process_not_normal_nav part total r s0 sig s1 :
  navigate part total r s0 = (sig, s1) ->
  (forall sw, sig <> Normal sw) ->
  snd (process part total r s0) = s1 /\
  (sheet s1 = sheet s0 \/ sheet s1 = sheet s0 ++ [(NotInAceNet, part)]).
Proof.
  intros E N. split.
  - unfold process, bind. rewrite E.
    destruct sig as [sw| | |e]; try reflexivity. now destruct (N sw).
  - pose proof (navigate_nav part total r s0) as P. rewrite E in P.
    destruct sig as [sw| | |e]; simpl in P; try exact P.
    now destruct (N sw).
Qed.

(** When the try block raises, the rows of the pass are those written
    before the fault and one "Not in AceNet" row below them. *)
Lemma fault_rows part total r s s0 e s1 :
  health_check r s = (Normal tt, s0) ->
  process part total r s0 = (Raised e, s1) ->
  rows_of_pass part total r s =
  skipn (length (sheet s)) (sheet s1) ++ [(NotInAceNet, part)].
Proof.
  intros H0 Ep.
  destruct (health_check_normal _ _ _ H0) as [Sh0 _].
  pose proof (iteration_settle part total r s s0 H0) as E.
  rewrite Ep in E.
  pose proof (settle_sheet part r (Raised e) s1) as E5.
  rewrite <- E in E5.
  pose proof (appended_run _ _ _ _ _ _
                (process_appended part total r) Ep) as (rows & Er & _).
  rewrite Sh0 in Er. apply rows_of_pass_unique.
  rewrite E5, Er, skipn_app, skipn_all, Nat.sub_diag. simpl.
  now rewrite <- app_assoc.
Qed.

(** C1, as the code has it: in a pass whose try block does not raise,
    a "Not in AceNet" row is the only row of the pass.  When the try
    block raises, the handler adds one "Not in AceNet" row below
    whatever rows the pass had written before the fault. *)
Theorem not_in_acenet_alone part total r s :
  ((forall s0 e s1,
      health_check r s = (Normal tt, s0) ->
      process part total r s0 <> (Raised e, s1)) ->
   In (NotInAceNet, part) (rows_of_pass part total r s) ->
   rows_of_pass part total r s = [(NotInAceNet, part)])
  /\
  (forall s0 e s1,
     health_check r s = (Normal tt, s0) ->
     process part total r s0 = (Raised e, s1) ->
     rows_of_pass part total r s =
     skipn (length (sheet s)) (sheet s1) ++ [(NotInAceNet, part)]).
Proof.
  split.
  - intros Hn Hin.
    destruct (health_check r s) as [[[]| | |e0] s0] eqn:H0.
    2-4: exfalso;
      pose proof (health_check_same_sheet r s) as Sh;
      rewrite H0 in Sh; unfold same_sheet in Sh; simpl in Sh;
      assert (rows_of_pass part total r s = []) as R
        by (apply rows_of_pass_unique; unfold iteration, bind;
            rewrite H0; simpl; now rewrite app_nil_r);
      rewrite R in Hin; destruct Hin.
    destruct (health_check_normal _ _ _ H0) as [Sh0 _].
    pose proof (iteration_settle part total r s s0 H0) as E.
    destruct (process part total r s0) as [sig s1] eqn:Ep.
    assert (iteration part total r s = (sig, s1)) as E'.
    { rewrite E. destruct sig as [[]| | |e]; try reflexivity.
      now destruct (Hn s0 e s1 eq_refl). }
    destruct (navigate part total r s0) as [sigN sN] eqn:En.
    destruct sigN as [sw| | |eN].
    + (* a frame was entered: no "Not in AceNet" row without a fault *)
      exfalso.
      destruct (navigate_normal _ _ _ _ _ _ En) as (ShN & _).
      unfold process in Ep. rewrite (bind_normal _ _ _ _ _ En) in Ep.
      pose proof (appended_run _ _ _ _ _ _
                    (extract_fields_appended part sw r) Ep)
        as (rows & Er & Fr).
      assert (rows_of_pass part total r s = rows) as R.
      { apply rows_of_pass_unique. rewrite E'. simpl. congruence. }
      rewrite R in Hin. revert Hin. eapply not_in_rows; [exact Fr|].
      simpl. intuition discriminate.
    + destruct (process_not_normal_nav part total r s0 _ _ En) as [Es D];
        [discriminate|].
      rewrite Ep in Es. simpl in Es. subst sN.
      destruct D as [D|D].
      * exfalso. assert (rows_of_pass part total r s = []) as R.
        { apply rows_of_pass_unique. rewrite E'. simpl.
          rewrite app_nil_r. congruence. }
        rewrite R in Hin. destruct Hin.
      * apply rows_of_pass_unique. rewrite E'. simpl. congruence.
    + destruct (process_not_normal_nav part total r s0 _ _ En) as [Es D];
        [discriminate|].
      rewrite Ep in Es. simpl in Es. subst sN.
      destruct D as [D|D].
      * exfalso. assert (rows_of_pass part total r s = []) as R.
        { apply rows_of_pass_unique. rewrite E'. simpl.
          rewrite app_nil_r. congruence. }
        rewrite R in Hin. destruct Hin.
      * apply rows_of_pass_unique. rewrite E'. simpl. congruence.
    + destruct (process_not_normal_nav part total r s0 _ _ En) as [Es D];
        [discriminate|].
      rewrite Ep in Es. simpl in Es. subst sN.
      destruct D as [D|D].
      * exfalso. assert (rows_of_pass part total r s = []) as R.
        { apply rows_of_pass_unique. rewrite E'. simpl.
          rewrite app_nil_r. congruence. }
        rewrite R in Hin. destruct Hin.
      * apply rows_of_pass_unique. rewrite E'. simpl. congruence.
  - apply fault_rows.
Qed.

(** C1 as it is stated fails: the discovery element and the location
    are missing, the on-order quantity is 3.5, and the switch back to
    the main window (line 630) raises after the three rows were
    written.  The handler adds "Not in AceNet" below them. *)
Lemma not_in_acenet_alone_counterexample :
  rows_of_pass "A1" 1
    (item_page [630] (Returns "Active") absent absent (Returns "3.5") absent)
    (initial_state "main")
  = [(NoDiscovery, "A1"); (OnOrder, "A1"); (NoLocation, "A1");
     (NotInAceNet, "A1")].
Proof. vm_compute. reflexivity. Qed.

(** *** [idx] and [restart_count] over one pass *)

Lemma ends_incr_bind {A B} (m : M A) (k : A -> M B) :
  plain m -> (forall a, ends_incr (k a)) -> ends_incr (bind m k).
Proof.
  intros Hm Hk s. unfold bind. specialize (Hm s).
  destruct (m s) as [[a| | |e] s1]; simpl in *; try tauto.
  destruct Hm as (E1 & E2 & _). specialize (Hk a s1).
  rewrite <- E1, <- E2. exact Hk.
Qed.

Lemma ends_incr_incr_idx : ends_incr incr_idx.
Proof. intros s. simpl. auto. Qed.

Lemma independent_rules_vars part sw c r :
  ends_incr (independent_rules part sw c r).
Proof.
  unfold independent_rules, switch_to_main.
  repeat (apply ends_incr_bind; [plain_tac | intro]).
  apply ends_incr_incr_idx.
Qed.

Lemma process_vars part total r s sig s' :
  process part total r s = (sig, s') -> pass_post s sig s'.
Proof.
  unfold process, extract_fields, bind.
  pose proof (navigate_vars part total r s) as V.
  destruct (navigate part total r s) as [[sw| | |e] s1]; simpl in V;
    try (intros [= <- <-]; exact V).
  destruct V as [E1 E2].
  pose proof (check_cancelled_vars part sw r s1) as V.
  destruct (check_cancelled part sw r s1) as [[c| | |e] s2]; simpl in V;
    try (intros [= <- <-]; simpl; rewrite <- E1, <- E2; exact V).
  destruct V as [E3 E4].
  pose proof (independent_rules_vars part sw c r s2) as V.
  destruct (independent_rules part sw c r s2) as [[[]| | |e] s3];
    simpl in V; try tauto; destruct V; intros [= <- <-]; simpl;
    split; try left; congruence.
Qed.

Lemma recover_vars part r s :
  match fst (recover part r s) with
  | LoopContinue =>
      idx (snd (recover part r s)) = S (idx s) /\
      restart_count (snd (recover part r s)) = S (restart_count s) /\
      S (restart_count s) <= max_restarts
  | LoopBreak =>
      idx (snd (recover part r s)) = idx s /\
      restart_count (snd (recover part r s)) = S (restart_count s)
  | _ => False
  end.
Proof.
  unfold recover, bind, append_to_excel, attempt, incr_restart_count, gets,
    try_except, call. simpl.
  destruct (max_restarts <? S (restart_count s)) eqn:E; simpl; [auto|].
  apply Nat.ltb_ge in E.
  destruct (relogin_fault r); simpl; auto.
Qed.

(** The health check: the count stays, or goes up by one; when the
    check falls through after a restart the count is within the
    ceiling. *)
Lemma health_check_vars r s :
  idx (snd (health_check r s)) = idx s /\
  fst (health_check r s) <> LoopContinue /\
  (restart_count (snd (health_check r s)) = restart_count s \/
   (title r = Raises WebDriverException /\
    restart_count (snd (health_check r s)) = S (restart_count s) /\
    match fst (health_check r s) with
    | Normal _ | Raised _ => S (restart_count s) <= max_restarts
    | LoopContinue => False
    | LoopBreak => True
    end)).
Proof.
  unfold health_check, is_driver_alive, bind, call, attempt,
    incr_restart_count, gets, break_, set_driver, ret.
  destruct (title r) as [t|[]]; simpl;
    try (split; [reflexivity|split; [discriminate|auto]]).
  destruct (max_restarts <? S (restart_count s)) eqn:E; simpl;
    try (split; [reflexivity|split; [discriminate|auto]]).
  apply Nat.ltb_ge in E.
  destruct (relogin_health r); simpl;
    split; try reflexivity; split; try discriminate; auto.
Qed.

Lemma iteration_vars part total r s sig s' :
  iteration part total r s = (sig, s') -> iteration_post s sig s'.
Proof.
  unfold iteration, bind.
  pose proof (health_check_vars r s) as (Hi & Hn & Hc).
  destruct (health_check r s) as [[[]| | |e0] s0]; simpl in Hi, Hn, Hc.
  - (* the try block and its handler *)
    unfold try_except.
    destruct (process part total r s0) as [sig1 s1] eqn:Ep.
    apply process_vars in Ep.
    destruct sig1 as [[]| | |e]; simpl in Ep.
    + intros [= <- <-]. unfold iteration_post. repeat split; lia.
    + intros [= <- <-]. unfold iteration_post. repeat split; lia.
    + intros [= <- <-]. unfold iteration_post. repeat split; lia.
    + pose proof (recover_vars part r s1) as R. intros Er.
      rewrite Er in R. simpl in R.
      destruct sig as [[]| | |e']; try tauto; unfold iteration_post;
        repeat split; lia.
  - now destruct Hn.
  - intros [= <- <-]. unfold iteration_post. repeat split; lia.
  - intros [= <- <-]. unfold iteration_post. repeat split; lia.
Qed.

(** C2, as the code has it: a fault while one part number is processed
    (the driver alive, the try block raising) is answered by a "Not in
    AceNet" row and a restart of the browser at once: [restart_count]
    goes up by one for this single fault.  The loop goes on with the
    next part number when the count is within [max_restarts] and the
    new login succeeds, and stops when the count exceeds it. *)
Theorem fault_consumes_restart part total r s t e s1 :
  title r = Returns t ->
  process part total r (record GetTitle s) = (Raised e, s1) ->
  restart_count (snd (iteration part total r s)) = S (restart_count s) /\
  In (NotInAceNet, part) (rows_of_pass part total r s) /\
  (exists tr,
     trace (snd (iteration part total r s)) = trace s1 ++ DriverQuit :: tr) /\
  (forall h,
     S (restart_count s) <= max_restarts ->
     relogin_fault r = Returns h ->
     fst (iteration part total r s) = LoopContinue /\
     idx (snd (iteration part total r s)) = S (idx s) /\
     main_window (snd (iteration part total r s)) = h /\
     trace (snd (iteration part total r s)) =
     trace s1 ++ [DriverQuit; StartBrowserAndLogin]) /\
  (max_restarts < S (restart_count s) ->
   fst (iteration part total r s) = LoopBreak).
Proof.
  intros Ht Ep.
  assert (health_check r s = (Normal tt, record GetTitle s)) as H0.
  { unfold health_check, is_driver_alive, bind, call. now rewrite Ht. }
  pose proof (iteration_settle part total r s _ H0) as E.
  pose proof (process_vars _ _ _ _ _ _ Ep) as P.
  rewrite Ep in E. simpl in P, E. destruct P as [Pi Pc].
  pose proof (fault_rows _ _ _ _ _ _ _ H0 Ep) as Rows.
  rewrite E.
  unfold recover, bind, append_to_excel, attempt, incr_restart_count, gets,
    try_except, call. simpl. rewrite Pc.
  destruct (max_restarts <? S (restart_count s)) eqn:El; simpl.
  - apply Nat.ltb_lt in El.
    split; [reflexivity|]. split; [|split; [|split]].
    + rewrite Rows, in_app_iff. right. now left.
    + now exists [].
    + intros h Hl. lia.
    + reflexivity.
  - apply Nat.ltb_ge in El.
    destruct (relogin_fault r) as [h|e'] eqn:Er; simpl.
    + split; [reflexivity|]. split; [|split; [|split]].
      * rewrite Rows, in_app_iff. right. now left.
      * exists [StartBrowserAndLogin]. now rewrite <- app_assoc.
      * intros h' _ [= <-]. split; [reflexivity|].
        split; [congruence|]. split; [reflexivity|].
        now rewrite <- app_assoc.
      * intros Hl. lia.
    + split; [reflexivity|]. split; [|split; [|split]].
      * rewrite Rows, in_app_iff. right. now left.
      * exists [StartBrowserAndLogin]. now rewrite <- app_assoc.
      * intros h' _ [=].
      * intros Hl. lia.
Qed.

Lemma fault_consumes_restart_witness :
  restart_count
    (snd (iteration "A1" 1
            (item_page [371] absent absent absent absent absent)
            (initial_state "main")))
  = 1.
Proof.
  refine (proj1 (fault_consumes_restart "A1" 1 _ (initial_state "main")
                   "AceNet" WebDriverException _ _ _)).
  - reflexivity.
  - vm_compute; reflexivity.
Defined.

(** C2 as it is stated fails: one part number, the driver alive, and a
    single fault (the switch to the main window of line 371 raises).
    The browser is restarted and [restart_count] is 1 at the end of
    the run. *)
Lemma fault_consumes_restart_counterexample :
  title (item_page [371] absent absent absent absent absent)
  = Returns "AceNet" /\
  fst (automate_search ["A1"] (Returns "main")
         (fun _ => item_page [371] absent absent absent absent absent))
  = AllProcessed /\
  restart_count
    (snd (automate_search ["A1"] (Returns "main")
            (fun _ => item_page [371] absent absent absent absent absent)))
  = 1 /\
  driver
    (snd (automate_search ["A1"] (Returns "main")
            (fun _ => item_page [371] absent absent absent absent absent)))
  = 1 /\
  sheet
    (snd (automate_search ["A1"] (Returns "main")
            (fun _ => item_page [371] absent absent absent absent absent)))
  = [(NotInAceNet, "A1")].
Proof. vm_compute. repeat split. Qed.

Lemma not_in_acenet_alone_witness :
  rows_of_pass "A1" 3
    (scenario [] "https://acenet.aceservices.com/search/product?q=A1"
              ["main"] absent absent absent absent absent)
    (initial_state "main")
  = [(NotInAceNet, "A1")].
Proof.
  refine (proj1 (not_in_acenet_alone "A1" 3 _ (initial_state "main")) _ _).
  - intros s0 e s1 H0. vm_compute in H0. injection H0 as <-.
    vm_compute. discriminate.
  - vm_compute. now left.
Defined.

(** *** The liveness probe and the restart *)

Lemma visit_windows_spec handles s :
  visit_windows handles s
  = (Normal tt, extend (map SwitchToWindow handles) s).
Proof.
  revert s. induction handles as [|h rest IH]; intros s; simpl.
  - now rewrite extend_nil.
  - unfold bind, attempt. rewrite IH. f_equal.
    unfold extend. simpl. now rewrite <- app_assoc.
Qed.

Lemma list_windows_same_browser part r handles :
  handles_debug r = Returns handles ->
  preserves same_browser (list_windows part r).
Proof.
  intros H s. unfold list_windows, try_except, bind, call.
  rewrite H. rewrite visit_windows_spec. unfold same_browser. simpl. auto.
Qed.

(** With the window listing of line 411 returning, no restart takes
    place inside the try block. *)
Lemma process_same_browser part total r handles :
  handles_debug r = Returns handles ->
  preserves same_browser (process part total r).
Proof.
  intros H. pose proof (list_windows_same_browser part r handles H) as L.
  unfold process, navigate, submit_part_number, locate_search_box,
    check_redirect, switch_to_popup, enter_iframe, extract_fields,
    check_cancelled, independent_rules, check_discovery, check_asterisk,
    check_on_order, check_location.
  preserve.
Qed.

(** C6, as the code has it: [is_driver_alive] returns false when the
    read of the title raises a [WebDriverException], and raises when
    the read raises anything else.  In the first case, before the part
    number at position [idx], with the count still within
    [max_restarts] after this restart and the new login succeeding, one
    browser is started and the same pass goes on to process the part
    number at that very position in the new browser; when nothing
    fails further in that pass (the window listing returns and the try
    block does not raise), the pass ends with exactly one restart
    counted, every row it wrote is a row of that part number, and the
    loop goes on at the next position.  In the second case the
    exception leaves the loop: the run ends there, with nothing
    written for the part number and no restart. *)
Theorem liveness_restart_resumes part_numbers world fuel s :
  idx s < length part_numbers ->
  (title (world (idx s)) = Raises WebDriverException ->
   is_driver_alive (title (world (idx s))) s
   = (Normal false, record GetTitle s) /\
   forall h handles sig s1,
     S (restart_count s) <= max_restarts ->
     relogin_health (world (idx s)) = Returns h ->
     handles_debug (world (idx s)) = Returns handles ->
     process (nth (idx s) part_numbers "") (length part_numbers)
             (world (idx s)) (restarted h s) = (sig, s1) ->
     (forall e, sig <> Raised e) ->
     health_check (world (idx s)) s = (Normal tt, restarted h s) /\
     iteration (nth (idx s) part_numbers "") (length part_numbers)
               (world (idx s)) s = (sig, s1) /\
     restart_count s1 = S (restart_count s) /\
     driver s1 = S (driver s) /\
     idx s1 = S (idx s) /\
     (exists rows,
        sheet s1 = sheet s ++ rows /\
        Forall (fun row => snd row = nth (idx s) part_numbers "") rows) /\
     while_loop (S fuel) part_numbers world s
     = while_loop fuel part_numbers world s1)
  /\
  (title (world (idx s)) = Raises OtherException ->
   is_driver_alive (title (world (idx s))) s
   = (Raised OtherException, record GetTitle s) /\
   while_loop (S fuel) part_numbers world s
   = (UnexpectedError OtherException, record GetTitle s)).
Proof.
  intros Hl.
  set (r := world (idx s)) in *.
  set (part := nth (idx s) part_numbers "") in *.
  split.
  - intros Ht.
    assert (is_driver_alive (title r) s = (Normal false, record GetTitle s))
      as Ha.
    { unfold is_driver_alive, call. now rewrite Ht. }
    split; [exact Ha|].
    intros h handles sig s1 Hc Hr Hh Ep Hn.
    assert (health_check r s = (Normal tt, restarted h s)) as H0.
    { unfold health_check. rewrite (bind_normal _ _ _ _ _ Ha).
      unfold bind, attempt, incr_restart_count, gets, call, set_driver.
      simpl. apply Nat.ltb_ge in Hc. rewrite Hc, Hr. simpl.
      unfold restarted. simpl. now rewrite <- !app_assoc. }
    assert (iteration part (length part_numbers) r s = (sig, s1)) as Ei.
    { rewrite (iteration_settle _ _ _ _ _ H0), Ep.
      destruct sig as [[]| | |e]; try reflexivity. now destruct (Hn e). }
    pose proof (process_same_browser part (length part_numbers) r handles Hh
                  (restarted h s)) as (B1 & B2 & _).
    rewrite Ep in B1, B2. simpl in B1, B2.
    pose proof (process_vars _ _ _ _ _ _ Ep) as P.
    assert (idx s1 = S (idx s) /\ (sig = Normal tt \/ sig = LoopContinue))
      as [Hi Hs].
    { destruct sig as [[]| | |e]; simpl in P.
      - split; [tauto | now left].
      - split; [tauto | now right].
      - lia.
      - now destruct (Hn e). }
    repeat split; auto.
    + pose proof (iteration_appended part (length part_numbers) r s)
        as (rows & Er & Fr).
      rewrite Ei in Er. simpl in Er. exists rows. split; [exact Er|].
      eapply Forall_impl; [|exact Fr]. intros row [_ Hrow]. exact Hrow.
    + simpl. apply Nat.ltb_lt in Hl. rewrite Hl.
      fold part. fold r. rewrite Ei.
      destruct Hs as [-> | ->]; reflexivity.
  - intros Ht.
    assert (is_driver_alive (title r) s
            = (Raised OtherException, record GetTitle s)) as Ha.
    { unfold is_driver_alive, call. now rewrite Ht. }
    split; [exact Ha|].
    simpl. apply Nat.ltb_lt in Hl. rewrite Hl. fold r.
    unfold iteration, health_check, bind. now rewrite Ha.
Qed.

(** The probe fails before the second of three part numbers. *)
Lemma liveness_restart_resumes_witness :
  let s := snd (iteration "A1" 3 (probe_world 0) (initial_state "main")) in
  idx s = 1 /\
  exists s1,
    iteration "B2" 3 (probe_world 1) s = (Normal tt, s1) /\
    restart_count s1 = 1 /\ driver s1 = 1 /\ idx s1 = 2 /\
    while_loop 2 ["A1"; "B2"; "C3"] probe_world s
    = while_loop 1 ["A1"; "B2"; "C3"] probe_world s1.
Proof.
  cbv zeta. split; [vm_compute; reflexivity|].
  pose proof (liveness_restart_resumes ["A1"; "B2"; "C3"] probe_world 1
                (snd (iteration "A1" 3 (probe_world 0)
                                (initial_state "main")))) as H.
  destruct H as [H _]; [vm_compute; lia|].
  destruct H as [_ H]; [vm_compute; reflexivity|].
  edestruct (H "main" ["main"; "popup"]) as (_ & Ei & Rc & Dr & Ix & _ & W).
  - vm_compute. lia.
  - vm_compute. reflexivity.
  - vm_compute. reflexivity.
  - vm_compute. reflexivity.
  - intros e. discriminate.
  - eexists. split; [exact Ei|].
    split; [exact Rc|]. split; [exact Dr|]. split; [exact Ix | exact W].
Defined.

(** C6 as it is stated fails: the read of the title raises an
    exception that is not a [WebDriverException]; the probe raises and
    the run ends before the first part number, without a restart. *)
Lemma liveness_restart_resumes_counterexample :
  let r := with_title (Raises OtherException)
             (item_page [] (Returns "Active") (Returns "Garden hose")
                        (Returns "Details*") (Returns "0")
                        (Returns "Aisle 4")) in
  is_driver_alive (title r) (initial_state "main")
  = (Raised OtherException, record GetTitle (initial_state "main")) /\
  automate_search ["A1"; "B2"] (Returns "main") (fun _ => r)
  = (UnexpectedError OtherException, record GetTitle (initial_state "main")).
Proof. vm_compute. split; reflexivity. Qed.

(** *** The restart budget *)

(** A pass with a session failure has counted at least one restart,
    however it ends. *)
Lemma failure_counts part total r s sig s' :
  session_failure part total r s ->
  iteration part total r s = (sig, s') ->
  S (restart_count s) <= restart_count s'.
Proof.
  intros [Ht|(s0 & e & s1 & H0 & Ep)] Ei.
  - (* the driver is dead *)
    revert Ei. unfold iteration. unfold bind at 1.
    destruct (health_check r s) as [sig0 s0] eqn:H0.
    assert (restart_count s0 = S (restart_count s)) as Hc.
    { revert H0. unfold health_check, is_driver_alive, bind, call, attempt,
        incr_restart_count, gets, break_, set_driver.
      rewrite Ht. simpl.
      destruct (max_restarts <? S (restart_count s)); simpl.
      - now intros [= <- <-].
      - destruct (relogin_health r); simpl; now intros [= <- <-]. }
    destruct sig0 as [[]| | |e0].
    + unfold try_except.
      destruct (process part total r s0) as [sig1 s1] eqn:Ep.
      pose proof (process_vars _ _ _ _ _ _ Ep) as P.
      destruct sig1 as [[]| | |e]; simpl in P.
      * intros [= <- <-]. lia.
      * intros [= <- <-]. lia.
      * intros [= <- <-]. lia.
      * intros Er. pose proof (recover_vars part r s1) as R.
        rewrite Er in R. simpl in R.
        destruct sig as [[]| | |e']; try tauto; lia.
    + intros [= <- <-]. lia.
    + intros [= <- <-]. lia.
    + intros [= <- <-]. lia.
  - (* the try block raises *)
    rewrite (iteration_settle _ _ _ _ _ H0), Ep in Ei. simpl in Ei.
    pose proof (health_check_vars r s) as (_ & _ & Hc).
    rewrite H0 in Hc. simpl in Hc.
    pose proof (process_vars _ _ _ _ _ _ Ep) as P. simpl in P.
    pose proof (recover_vars part r s1) as R. rewrite Ei in R. simpl in R.
    destruct sig as [[]| | |e']; try tauto; lia.
Qed.

(** A pass that leaves the count above [max_restarts] ends in
    [break]. *)
Lemma exceeds_breaks part total r s sig s' :
  iteration part total r s = (sig, s') ->
  restart_count s <= max_restarts ->
  max_restarts < restart_count s' ->
  sig = LoopBreak.
Proof.
  intros Ei Hc Hx. pose proof (iteration_vars _ _ _ _ _ _ Ei) as (_ & _ & P).
  destruct sig as [[]| | |e]; simpl in P; try reflexivity; lia.
Qed.

(** With as much fuel as part numbers left, the loop runs to its end. *)
Lemma while_loop_total part_numbers world fuel :
  forall s,
    length part_numbers - idx s <= fuel ->
    fst (while_loop fuel part_numbers world s) <> OutOfFuel.
Proof.
  induction fuel as [|fuel IH]; intros s Hf; simpl.
  - destruct (idx s <? length part_numbers) eqn:E; [|discriminate].
    apply Nat.ltb_lt in E. lia.
  - destruct (idx s <? length part_numbers) eqn:E; [|discriminate].
    apply Nat.ltb_lt in E.
    destruct (iteration _ _ _ s) as [sig s1] eqn:Ei.
    pose proof (iteration_vars _ _ _ _ _ _ Ei) as (_ & _ & P).
    destruct sig as [[]| | |e]; simpl in *; try discriminate;
      apply IH; lia.
Qed.

(** A streak of [n] passes with a session failure each, long enough
    for the count to pass [max_restarts], ends the loop within the
    streak. *)
Lemma streak_halts part_numbers world n :
  forall fuel s,
    restart_count s <= max_restarts ->
    max_restarts < restart_count s + n ->
    idx s + n <= length part_numbers ->
    length part_numbers - idx s <= fuel ->
    (forall i s',
       idx s <= i < idx s + n -> idx s' = i ->
       session_failure (nth i part_numbers "") (length part_numbers)
                       (world i) s') ->
    exists end_ s',
      while_loop fuel part_numbers world s = (end_, s') /\
      (end_ = Aborted \/ exists e, end_ = UnexpectedError e) /\
      idx s <= idx s' < idx s + n /\
      restart_count s' <= S max_restarts /\
      exists rows,
        sheet s' = sheet s ++ rows /\
        Forall (fun row =>
                  exists i, idx s <= i <= idx s' /\
                            snd row = nth i part_numbers "") rows.
Proof.
  induction n as [|n IH]; intros fuel s Hc Hn Hl Hf Hs; [lia|].
  destruct fuel as [|fuel]; [lia|].
  simpl. assert ((idx s <? length part_numbers) = true) as ->
    by (apply Nat.ltb_lt; lia).
  destruct (iteration (nth (idx s) part_numbers "") (length part_numbers)
                      (world (idx s)) s) as [sig s1] eqn:Ei.
  pose proof (iteration_vars _ _ _ _ _ _ Ei) as (P1 & P2 & P3).
  pose proof (iteration_appended (nth (idx s) part_numbers "")
                (length part_numbers) (world (idx s)) s) as (rows1 & E1 & F1).
  rewrite Ei in E1. simpl in E1.
  assert (Forall (fun row : column * string =>
                    exists i, idx s <= i <= idx s1 /\
                              snd row = nth i part_numbers "") rows1) as F1'.
  { eapply Forall_impl; [|exact F1]. intros row [_ Hrow].
    exists (idx s). split; [|exact Hrow].
    destruct sig as [[]| | |e]; simpl in P3; lia. }
  assert (sig = Normal tt \/ sig = LoopContinue ->
          exists end_ s',
            while_loop fuel part_numbers world s1 = (end_, s') /\
            (end_ = Aborted \/ exists e, end_ = UnexpectedError e) /\
            idx s <= idx s' < idx s + S n /\
            restart_count s' <= S max_restarts /\
            exists rows,
              sheet s' = sheet s ++ rows /\
              Forall (fun row =>
                        exists i, idx s <= i <= idx s' /\
                                  snd row = nth i part_numbers "") rows)
    as Go.
  { intros Hsig.
    assert (idx s1 = S (idx s) /\ restart_count s1 <= max_restarts)
      as [Hi Hc1].
    { destruct Hsig as [-> | ->]; simpl in P3; split; tauto. }
    pose proof (failure_counts _ _ _ _ _ _
                  (Hs (idx s) s ltac:(lia) eq_refl) Ei) as Hup.
    destruct (IH fuel s1) as (end_ & s' & Ew & He & Hi' & Hc' & rows & Er & Fr);
      try lia.
    { intros i s2 Hr Hi2. apply Hs; [lia | exact Hi2]. }
    exists end_, s'. split; [exact Ew|]. split; [exact He|].
    split; [lia|]. split; [exact Hc'|].
    exists (rows1 ++ rows). split.
    - rewrite Er, E1. now rewrite app_assoc.
    - apply Forall_app. split.
      + eapply Forall_impl; [|exact F1']. intros row (i & Hr & Hrow).
        exists i. split; [lia | exact Hrow].
      + eapply Forall_impl; [|exact Fr]. intros row (i & Hr & Hrow).
        exists i. split; [lia | exact Hrow]. }
  destruct sig as [[]| | |e].
  - apply Go. now left.
  - apply Go. now right.
  - exists Aborted, s1. simpl in P3. split; [reflexivity|].
    split; [now left|]. split; [lia|]. split; [auto|].
    exists rows1. now split.
  - exists (UnexpectedError e), s1. simpl in P3. split; [reflexivity|].
    split; [right; now exists e|]. split; [lia|]. split; [auto|].
    exists rows1. now split.
Qed.

(** C5: from any state of the loop whose count is within
    [max_restarts], a streak of [max_restarts + 1] passes with a
    session failure each (the liveness probe finds the driver dead, or
    the try block raises) ends the loop within the streak.  Each pass
    of the streak adds at least one to [restart_count], and a pass
    that leaves the count above [max_restarts] ends in [break].  The
    loop stops, by [break] or by an exception out of the loop, at a
    part number of the streak; the count never exceeds
    [max_restarts + 1]; the rows written before the streak are still
    there, in place, and every row added since belongs to a part
    number up to the one the loop stopped at, none to a later one. *)
Theorem restart_budget_exhaustion part_numbers world fuel s :
  restart_count s <= max_restarts ->
  idx s + S max_restarts <= length part_numbers ->
  length part_numbers - idx s <= fuel ->
  (forall i s',
     idx s <= i < idx s + S max_restarts -> idx s' = i ->
     session_failure (nth i part_numbers "") (length part_numbers)
                     (world i) s') ->
  (forall i s0 sig s1,
     idx s <= i < idx s + S max_restarts -> idx s0 = i ->
     iteration (nth i part_numbers "") (length part_numbers) (world i) s0
     = (sig, s1) ->
     S (restart_count s0) <= restart_count s1 /\
     (restart_count s0 <= max_restarts ->
      max_restarts < restart_count s1 -> sig = LoopBreak))
  /\
  exists end_ s',
    while_loop fuel part_numbers world s = (end_, s') /\
    (end_ = Aborted \/ exists e, end_ = UnexpectedError e) /\
    idx s <= idx s' < idx s + S max_restarts /\
    restart_count s' <= S max_restarts /\
    exists rows,
      sheet s' = sheet s ++ rows /\
      Forall (fun row =>
                exists i, idx s <= i <= idx s' /\
                          snd row = nth i part_numbers "") rows.
Proof.
  intros Hc Hl Hf Hs. split.
  - intros i s0 sig s1 Hi Hi0 Ei. split.
    + eapply failure_counts; [|exact Ei]. now apply Hs.
    + intros Hc0 Hx. eapply exceeds_breaks; eauto.
  - apply streak_halts; auto. lia.
Qed.

Lemma restart_budget_exhaustion_witness :
  exists end_ s',
    while_loop 51 (repeat "A1" 51)
      (fun _ => item_page [297] absent absent absent absent absent)
      (initial_state "main") = (end_, s') /\
    (end_ = Aborted \/ exists e, end_ = UnexpectedError e) /\
    idx (initial_state "main") <= idx s'
      < idx (initial_state "main") + S max_restarts /\
    restart_count s' <= S max_restarts /\
    exists rows,
      sheet s' = sheet (initial_state "main") ++ rows /\
      Forall (fun row =>
                exists i, idx (initial_state "main") <= i <= idx s' /\
                          snd row = nth i (repeat "A1" 51) "") rows.
Proof.
  refine (proj2 (restart_budget_exhaustion (repeat "A1" 51)
            (fun _ => item_page [297] absent absent absent absent absent)
            51 (initial_state "main") _ _ _ _)).
  - unfold max_restarts. simpl. lia.
  - unfold max_restarts. simpl. lia.
  - simpl. lia.
  - intros i s' _ _. left. reflexivity.
Defined.

(** ** Whole runs *)

(** Three part numbers: A1 is sent to the search results, A2 has a
    blank discovery text and a link text without an asterisk, A3 is
    cancelled with no replacement. *)
Example three_part_numbers :
  let world i :=
    match i with
    | 0 => scenario []
             "https://acenet.aceservices.com/search/product?q=A1"
             ["main"] absent absent absent absent absent
    | 1 => item_page [] (Returns "Active") (Returns "  ")
             (Returns "Details") (Returns "0") (Returns "Aisle 4")
    | _ => item_page [] (Returns "Cancelled by vendor") (Returns "Hose")
             (Returns "Hose*") (Returns "3") (Returns "")
    end in
  fst (automate_search ["A1"; "A2"; "A3"] (Returns "main") world)
  = AllProcessed /\
  sheet (snd (automate_search ["A1"; "A2"; "A3"] (Returns "main") world))
  = [(NotInAceNet, "A1"); (NoDiscovery, "A2"); (NoAsterisk, "A2");
     (Cancelled, "A3")] /\
  restart_count
    (snd (automate_search ["A1"; "A2"; "A3"] (Returns "main") world))
  = 0.
Proof. vm_compute. repeat split. Qed.

(** Fifty-two part numbers and a driver found dead before each: the
    fifty-first restart is one too many, and the loop stops at the
    fifty-first part number with nothing written. *)
Example dead_driver_run :
  let world := fun _ : nat =>
    item_page [297] (Returns "Cancelled") absent absent absent absent in
  fst (automate_search (repeat "A1" 52) (Returns "main") world) = Aborted /\
  idx (snd (automate_search (repeat "A1" 52) (Returns "main") world)) = 50 /\
  restart_count
    (snd (automate_search (repeat "A1" 52) (Returns "main") world)) = 51 /\
  sheet (snd (automate_search (repeat "A1" 52) (Returns "main") world))
  = repeat (Cancelled, "A1") 50.
Proof. vm_compute. repeat split. Qed.

(** [automate_search] always comes to an end. *)
Lemma automate_search_total part_numbers login world :
  fst (automate_search part_numbers login world) <> OutOfFuel.
Proof.
  unfold automate_search. destruct part_numbers as [|p rest];
    [discriminate|].
  destruct login as [main|e]; [|discriminate].
  apply while_loop_total. simpl. lia.
Qed.

(** What the script does when the way back to the main window fails
    after a status rule fired.  After "Not in RSC" the two commands of
    lines 537-538 stand inside the try block of the status step, whose
    handler passes the exception over: the later rules are then tried.
    After "Cancelled" the commands of lines 553-554 stand outside it:
    the exception reaches the handler of the loop body. *)
Example status_rule_then_fault :
  rows_of_pass "A1" 1
    (item_page [537] (Returns "Not carried in your RSC") absent absent
               (Returns "3.5") absent)
    (initial_state "main")
  = [(NotInRSC, "A1"); (NoDiscovery, "A1"); (OnOrder, "A1");
     (NoLocation, "A1")] /\
  rows_of_pass "A1" 1
    (item_page [553] (Returns "Cancelled") absent absent
               (Returns "3.5") absent)
    (initial_state "main")
  = [(Cancelled, "A1"); (NotInAceNet, "A1")].
Proof. vm_compute. split; reflexivity. Qed.

(** ** Every run *)

(** *** The rows follow the input *)

Lemma sorted_repeat_app i n ks :
  StronglySorted le ks -> Forall (fun k => i <= k) ks ->
  StronglySorted le (repeat i n ++ ks).
Proof.
  intros Hs Hf. induction n as [|n IH]; simpl; [exact Hs|].
  constructor; [exact IH|].
  apply Forall_app. split; [|exact Hf].
  apply Forall_forall. intros k Hk. apply repeat_spec in Hk. lia.
Qed.

Lemma at_positions_pass part_numbers i rows rows' ks :
  i < length part_numbers ->
  Forall (fun row : column * string => snd row = nth i part_numbers "") rows ->
  at_positions part_numbers (S i) rows' ks ->
  at_positions part_numbers i (rows ++ rows')
               (repeat i (length rows) ++ ks).
Proof.
  intros Hi Hr (Hm & Hs & Hf). split; [|split].
  - rewrite !map_app, Hm. f_equal.
    induction Hr as [|row rows E _ IH]; simpl; [reflexivity|].
    now rewrite E, IH.
  - apply sorted_repeat_app; [exact Hs|].
    eapply Forall_impl; [|exact Hf]. simpl. intros k Hk. lia.
  - apply Forall_app. split.
    + apply Forall_forall. intros k Hk. apply repeat_spec in Hk. lia.
    + eapply Forall_impl; [|exact Hf]. simpl. intros k Hk. lia.
Qed.

Lemma at_positions_nil part_numbers lo : at_positions part_numbers lo [] [].
Proof. split; [reflexivity|]. split; constructor. Qed.

Lemma iteration_rows part total r s :
  exists rows,
    sheet (snd (iteration part total r s)) = sheet s ++ rows /\
    Forall (fun row : column * string => snd row = part) rows.
Proof.
  destruct (iteration_appended part total r s) as (rows & E & F).
  exists rows. split; [exact E|].
  eapply Forall_impl; [|exact F]. now intros row [_ H].
Qed.

Lemma while_loop_rows part_numbers world fuel :
  forall s,
    exists rows ks,
      sheet (snd (while_loop fuel part_numbers world s)) = sheet s ++ rows /\
      at_positions part_numbers (idx s) rows ks.
Proof.
  induction fuel as [|fuel IH]; intros s; simpl.
  - exists [], []. split; [|apply at_positions_nil].
    destruct (idx s <? length part_numbers); simpl; now rewrite app_nil_r.
  - destruct (idx s <? length part_numbers) eqn:E.
    2:{ exists [], []. simpl. rewrite app_nil_r.
        split; [reflexivity | apply at_positions_nil]. }
    apply Nat.ltb_lt in E.
    destruct (iteration_rows (nth (idx s) part_numbers "")
                (length part_numbers) (world (idx s)) s) as (rows & Er & Fr).
    destruct (iteration _ _ _ s) as [sig s1] eqn:Ei.
    pose proof (iteration_vars _ _ _ _ _ _ Ei) as (_ & _ & P).
    simpl in Er.
    assert (Hstop : exists rows0 ks,
               sheet s1 = sheet s ++ rows0 /\
               at_positions part_numbers (idx s) rows0 ks).
    { exists rows, (repeat (idx s) (length rows) ++ []). split; [exact Er|].
      rewrite <- (app_nil_r rows) at 1.
      apply at_positions_pass; auto. apply at_positions_nil. }
    assert (Hgo : idx s1 = S (idx s) ->
               exists rows0 ks,
                 sheet (snd (while_loop fuel part_numbers world s1))
                 = sheet s ++ rows0 /\
                 at_positions part_numbers (idx s) rows0 ks).
    { intros Hi. destruct (IH s1) as (rows' & ks & E' & A').
      exists (rows ++ rows'), (repeat (idx s) (length rows) ++ ks). split.
      - now rewrite E', Er, app_assoc.
      - apply at_positions_pass; auto. now rewrite <- Hi. }
    destruct sig as [[]| | |e]; simpl in *; auto; apply Hgo; tauto.
Qed.

(** X1.  The rows of a run follow the input: read in the order in
    which they were written, the part numbers on the sheet are part
    numbers of the input, taken at positions that never go back.  So
    nothing is written that was not read from the workbook, and every
    column lists its part numbers in the order of the input. *)
Theorem rows_follow_input part_numbers login world :
  exists ks,
    at_positions part_numbers 0
      (sheet (snd (automate_search part_numbers login world))) ks.
Proof.
  unfold automate_search. destruct part_numbers as [|p rest].
  - exists []. apply at_positions_nil.
  - destruct login as [main|e].
    + destruct (while_loop_rows (p :: rest) world (length (p :: rest))
                  (initial_state main)) as (rows & ks & E & A).
      exists ks. now rewrite E.
    + exists []. apply at_positions_nil.
Qed.

(** *** Where the run stops *)

Lemma while_loop_position part_numbers world fuel :
  forall s,
    length part_numbers - idx s <= fuel ->
    idx s <= length part_numbers ->
    match fst (while_loop fuel part_numbers world s) with
    | NoPartNumbers | AllProcessed =>
        idx (snd (while_loop fuel part_numbers world s))
        = length part_numbers
    | Aborted | UnexpectedError _ =>
        idx (snd (while_loop fuel part_numbers world s))
        < length part_numbers
    | OutOfFuel => False
    end.
Proof.
  induction fuel as [|fuel IH]; intros s Hf Hi; simpl.
  - destruct (idx s <? length part_numbers) eqn:E; simpl.
    + apply Nat.ltb_lt in E. lia.
    + apply Nat.ltb_ge in E. lia.
  - destruct (idx s <? length part_numbers) eqn:E; simpl.
    2:{ apply Nat.ltb_ge in E. lia. }
    apply Nat.ltb_lt in E.
    destruct (iteration _ _ _ s) as [sig s1] eqn:Ei.
    pose proof (iteration_vars _ _ _ _ _ _ Ei) as (_ & _ & P).
    destruct sig as [[]| | |e]; simpl in *; try lia; apply IH; lia.
Qed.

(** X2.  Where a run stops.  When it ends because there was no part
    number or because every part number was handled, [idx] is the
    length of the input; when it ends by a [break] or by an exception
    that leaves the loop, [idx] is the position of the part number at
    which it stopped, inside the input.  The loop never needs more
    passes than there are part numbers. *)
Theorem run_end_position part_numbers login world :
  match fst (automate_search part_numbers login world) with
  | NoPartNumbers | AllProcessed =>
      idx (snd (automate_search part_numbers login world))
      = length part_numbers
  | Aborted | UnexpectedError _ =>
      idx (snd (automate_search part_numbers login world))
      < length part_numbers
  | OutOfFuel => False
  end.
Proof.
  unfold automate_search. destruct part_numbers as [|p rest];
    [reflexivity|].
  destruct login as [main|e]; [|simpl; lia].
  apply while_loop_position; simpl; lia.
Qed.

(** *** The restart budget *)

#[export] Instance within_budget_rel : StateRel within_budget.
Proof.
  split; unfold within_budget.
  - intros s. lia.
  - intros a b c H1 H2. lia.
  - intros c s. cbn [record restart_count driver]. lia.
Qed.

Lemma append_budget c part : preserves within_budget (append_to_excel c part).
Proof.
  intros s. unfold within_budget.
  cbv [append_to_excel incr_idx set_popup_window snd restart_count driver].
  lia.
Qed.

Lemma incr_idx_budget : preserves within_budget incr_idx.
Proof.
  intros s. unfold within_budget.
  cbv [append_to_excel incr_idx set_popup_window snd restart_count driver].
  lia.
Qed.

Lemma set_popup_window_budget h :
  preserves within_budget (set_popup_window h).
Proof.
  intros s. unfold within_budget.
  cbv [append_to_excel incr_idx set_popup_window snd restart_count driver].
  lia.
Qed.

Lemma counted_restart_budget {A} (m : M A) :
  one_browser m ->
  preserves within_budget
    (incr_restart_count ;;
     count <- gets restart_count ;;
     if max_restarts <? count then break_ else m).
Proof.
  intros Hm s. unfold bind, incr_restart_count, gets.
  cbn [restart_count].
  destruct (max_restarts <? S (restart_count s)) eqn:E.
  - unfold break_, within_budget. cbn [snd restart_count driver]. lia.
  - apply Nat.ltb_ge in E.
    match goal with |- within_budget _ (snd (m ?s1)) =>
      destruct (Hm s1) as (H1 & H2) end.
    cbn [restart_count driver] in H1, H2. unfold within_budget. lia.
Qed.

Lemma relogin_one_browser o :
  one_browser (h <- call StartBrowserAndLogin o ;; set_driver h).
Proof.
  intros s. destruct o as [h|e];
    cbv [bind try_except call set_driver record break_ incr_idx continue_
         snd restart_count driver]; lia.
Qed.

Lemma relogin_or_break_one_browser o :
  one_browser (A := unit)
    (try_except (h <- call StartBrowserAndLogin o ;; set_driver h)
                (fun _ => break_) ;;
     incr_idx ;;
     continue_).
Proof.
  intros s. destruct o as [h|e];
    cbv [bind try_except call set_driver record break_ incr_idx continue_
         snd restart_count driver]; lia.
Qed.

#[export] Hint Resolve append_budget incr_idx_budget set_popup_window_budget
  : preserve.

Lemma health_check_budget r : preserves within_budget (health_check r).
Proof.
  unfold health_check.
  apply (@preserves_bind _ _); [preserve | intros [|]; [preserve|]].
  apply (@preserves_bind _ _); [preserve | intro].
  apply counted_restart_budget, relogin_one_browser.
Qed.

Lemma recover_budget part r : preserves within_budget (recover part r).
Proof.
  unfold recover.
  do 2 (apply (@preserves_bind _ _); [preserve | intro]).
  apply counted_restart_budget, relogin_or_break_one_browser.
Qed.

Lemma list_windows_budget part r : preserves within_budget (list_windows part r).
Proof.
  unfold list_windows.
  apply (@preserves_try _ _); [preserve | intro].
  do 4 (apply (@preserves_bind _ _); [preserve | intro]).
  apply counted_restart_budget, relogin_or_break_one_browser.
Qed.

#[export] Hint Resolve health_check_budget recover_budget list_windows_budget
  : preserve.

Lemma iteration_budget part total r :
  preserves within_budget (iteration part total r).
Proof.
  unfold iteration, process, navigate, submit_part_number, locate_search_box,
    check_redirect, switch_to_popup, enter_iframe, extract_fields,
    check_cancelled, independent_rules, check_discovery, check_asterisk,
    check_on_order, check_location.
  preserve.
Qed.

Lemma while_loop_budget part_numbers world fuel :
  forall s, within_budget s (snd (while_loop fuel part_numbers world s)).
Proof.
  induction fuel as [|fuel IH]; intros s; simpl.
  - destruct (idx s <? length part_numbers); apply rel_refl.
  - destruct (idx s <? length part_numbers); [|apply rel_refl].
    pose proof (iteration_budget (nth (idx s) part_numbers "")
                  (length part_numbers) (world (idx s)) s) as H.
    destruct (iteration _ _ _ s) as [sig s1].
    cbn [snd] in H.
    destruct sig as [[]| | |e]; cbn [snd]; auto;
      (eapply rel_trans; [exact H | apply IH]).
Qed.

Lemma while_loop_count part_numbers world fuel :
  forall s,
    restart_count s <= max_restarts ->
    restart_count (snd (while_loop fuel part_numbers world s))
    <= S max_restarts /\
    (fst (while_loop fuel part_numbers world s) = AllProcessed ->
     restart_count (snd (while_loop fuel part_numbers world s))
     <= max_restarts).
Proof.
  induction fuel as [|fuel IH]; intros s Hs; simpl.
  - destruct (idx s <? length part_numbers); cbn [fst snd];
      (split; [lia|]); [discriminate | intros _; lia].
  - destruct (idx s <? length part_numbers); cbn [fst snd].
    2:{ split; [lia | intros _; lia]. }
    destruct (iteration _ _ _ s) as [sig s1] eqn:Ei.
    pose proof (iteration_vars _ _ _ _ _ _ Ei) as (_ & P1 & P2).
    destruct sig as [[]| | |e]; cbn [fst snd] in *;
      try (apply IH; tauto); (split; [tauto | discriminate]).
Qed.

(** X3.  The restart budget holds in every run, whatever the browser
    does: at most [max_restarts] browsers are started after the first
    one, each of them paid for by a counted restart; the count ends at
    most one above [max_restarts], and within it when the run handled
    every part number. *)
Theorem restarts_within_budget part_numbers login world :
  driver (snd (automate_search part_numbers login world)) <= max_restarts /\
  driver (snd (automate_search part_numbers login world))
  <= restart_count (snd (automate_search part_numbers login world)) /\
  restart_count (snd (automate_search part_numbers login world))
  <= S max_restarts /\
  (fst (automate_search part_numbers login world) = AllProcessed ->
   restart_count (snd (automate_search part_numbers login world))
   <= max_restarts).
Proof.
  unfold automate_search. destruct part_numbers as [|p rest].
  - cbn. repeat split; lia.
  - destruct login as [main|e].
    2:{ cbn. repeat split; lia. }
    pose proof (while_loop_budget (p :: rest) world (length (p :: rest))
                  (initial_state main)) as (B1 & B2 & B3).
    pose proof (while_loop_count (p :: rest) world (length (p :: rest))
                  (initial_state main)) as C.
    cbn [initial_state restart_count driver] in B1, B2, B3, C.
    destruct C as (C1 & C2); [lia|].
    repeat split; try assumption; lia.
Qed.

(** *** An error of another kind in the liveness probe *)

(** X4.  [is_driver_alive] catches a [WebDriverException] only, and
    the health check stands outside the try block of the loop body.
    So when the read of the title raises an exception of another kind
    the run ends at once with that exception: nothing is written for
    the part number, no restart is counted, the driver is not quit. *)
Theorem probe_error_ends_run part_numbers world fuel s :
  idx s < length part_numbers ->
  title (world (idx s)) = Raises OtherException ->
  while_loop (S fuel) part_numbers world s
  = (UnexpectedError OtherException, record GetTitle s).
Proof.
  intros Hi Ht. simpl.
  apply Nat.ltb_lt in Hi. rewrite Hi.
  unfold iteration, health_check, bind, is_driver_alive, call.
  now rewrite Ht.
Qed.

(** ** The clean-up loop *)

Lemma extend_extend a b s : extend b (extend a s) = extend (a ++ b) s.
Proof. unfold extend. simpl. now rewrite app_assoc. Qed.

Lemma record_extend c s : record c s = extend [c] s.
Proof. reflexivity. Qed.

Lemma record_record c d s : record d (record c s) = extend [c; d] s.
Proof. unfold record, extend. simpl. now rewrite <- app_assoc. Qed.

Lemma cleanup_commands_blocks sw main handles :
  forall i,
    exists blocks,
      cleanup_commands sw main i handles = concat blocks /\
      length blocks = length handles /\
      forall j h,
        nth_error handles j = Some h ->
        nth j blocks [] = cleanup_block main h (sw (i + j)).
Proof.
  induction handles as [|h rest IH]; intros i.
  - exists []. split; [reflexivity|]. split; [reflexivity|].
    intros [|j] h'; discriminate.
  - destruct (IH (S i)) as (blocks & E & L & B).
    exists (cleanup_block main h (sw i) :: blocks). split; [|split].
    + simpl. now rewrite E.
    + simpl. now rewrite L.
    + intros [|j] h' Hj; simpl in Hj.
      * injection Hj as <-. simpl. now rewrite Nat.add_0_r.
      * simpl. rewrite (B j h' Hj). f_equal. f_equal. lia.
Qed.

(** X5.  The clean-up loop of lines 392-398 and 458-464 never fails,
    whatever the switches and the closes answer.  What it issues is
    one block per handle, in the order of the handles: nothing for the
    main window; for any other handle the switch to it, followed by
    the close exactly when the switch returned.  So every handle other
    than the main window is switched to, and no command switches to
    the main window. *)
Theorem close_popups_spares_main sw cl i handles s :
  exists blocks,
    close_popups sw cl i handles s = (Normal tt, extend (concat blocks) s) /\
    length blocks = length handles /\
    (forall j h,
       nth_error handles j = Some h ->
       nth j blocks [] = cleanup_block (main_window s) h (sw (i + j))) /\
    (forall h,
       In h handles -> h <> main_window s ->
       In (SwitchToWindow h) (concat blocks)) /\
    ~ In (SwitchToWindow (main_window s)) (concat blocks).
Proof.
  destruct (cleanup_commands_blocks sw (main_window s) handles i)
    as (blocks & E & L & B).
  exists blocks. rewrite close_popups_commands, E.
  split; [reflexivity|]. split; [exact L|]. split; [exact B|]. split.
  - intros h Hin Hne. apply In_nth_error in Hin. destruct Hin as (j & Hj).
    apply in_concat. exists (nth j blocks []). split.
    + apply nth_In. rewrite L. apply nth_error_Some. congruence.
    + rewrite (B j h Hj). unfold cleanup_block.
      apply String.eqb_neq in Hne. rewrite Hne.
      destruct (sw (i + j)); now left.
  - intros Hin. apply in_concat in Hin. destruct Hin as (block & Hb & Hin).
    apply (In_nth _ _ []) in Hb. destruct Hb as (j & Hj & <-).
    destruct (nth_error handles j) as [h|] eqn:En.
    2:{ apply nth_error_None in En. lia. }
    rewrite (B j h En) in Hin. unfold cleanup_block in Hin.
    destruct (h =? main_window s)%string eqn:Eh; [destruct Hin|].
    apply String.eqb_neq in Eh.
    destruct (sw (i + j)); simpl in Hin;
      intuition (try discriminate; congruence).
Qed.

(** ** The search for the frame *)

Lemma not_frame_holds_switch r i e :
  frame_switch r i = Raises e -> ~ frame_holds r i.
Proof. intros E [H _]. congruence. Qed.

Lemma not_frame_holds_probe r i e :
  frame_probe r i = Raises e -> ~ frame_holds r i.
Proof. intros E [_ H]. congruence. Qed.

(** X6.  The search for the frame (lines 493-510).  When it ends with
    [iframe_switched] true, the frame entered is the first one whose
    switch and whose probe for the discovery element both return; the
    last two commands are that switch and that probe, and no later
    frame was switched to.  When it ends with [iframe_switched] false,
    no frame holds the element, and if there was a frame at all the
    last command is the return to the default content. *)
Theorem try_iframes_first r n :
  forall i s b s',
    try_iframes r i n s = (Normal b, s') ->
    if b then
      exists k tr,
        k < n /\ frame_holds r (i + k) /\
        (forall j, j < k -> ~ frame_holds r (i + j)) /\
        s' = extend (tr ++ [SwitchToFrame (i + k); FindDiscovery]) s /\
        Forall (fun c => forall j, c = SwitchToFrame j -> j < i + k) tr
    else
      (forall j, j < n -> ~ frame_holds r (i + j)) /\
      (0 < n ->
       exists tr, s' = extend (tr ++ [SwitchToDefaultContent]) s).
Proof.
  induction n as [|n IH]; intros i s b s' H.
  - simpl in H. injection H as <- <-. split; intros; lia.
  - assert (Hrec : forall pre,
               (exists pre', pre = pre' ++ [SwitchToDefaultContent]) ->
               Forall (fun c => forall j, c = SwitchToFrame j -> j = i) pre ->
               ~ frame_holds r i ->
               try_iframes r (S i) n (extend pre s) = (Normal b, s') ->
               if b then
                 exists k tr,
                   k < S n /\ frame_holds r (i + k) /\
                   (forall j, j < k -> ~ frame_holds r (i + j)) /\
                   s' = extend (tr ++ [SwitchToFrame (i + k); FindDiscovery])
                               s /\
                   Forall (fun c => forall j, c = SwitchToFrame j -> j < i + k)
                          tr
               else
                 (forall j, j < S n -> ~ frame_holds r (i + j)) /\
                 (0 < S n ->
                  exists tr, s' = extend (tr ++ [SwitchToDefaultContent]) s)).
    { intros pre (pre' & Hpre) Fpre Hno Hrest.
      specialize (IH (S i) (extend pre s) b s' Hrest).
      destruct b.
      - destruct IH as (k & tr & Hk & Hh & Hb & -> & Ft).
        exists (S k), (pre ++ tr).
        rewrite Nat.add_succ_r. split; [lia|]. split; [exact Hh|].
        split; [|split].
        + intros [|j] Hj; [now rewrite Nat.add_0_r|].
          rewrite Nat.add_succ_r. apply Hb. lia.
        + now rewrite extend_extend, app_assoc.
        + apply Forall_app. split.
          * eapply Forall_impl; [|exact Fpre]. simpl.
            intros c Hc j Ej. specialize (Hc j Ej). lia.
          * eapply Forall_impl; [|exact Ft]. simpl.
            intros c Hc j Ej. specialize (Hc j Ej). lia.
      - destruct IH as (Hall & Hlast). split.
        + intros [|j] Hj; [now rewrite Nat.add_0_r|].
          rewrite Nat.add_succ_r. apply Hall. lia.
        + intros _. destruct n as [|n].
          * simpl in Hrest. unfold ret in Hrest.
            assert (Es' : s' = extend pre s) by congruence.
            exists pre'. now rewrite Es', Hpre.
          * destruct Hlast as (tr & ->); [lia|].
            exists (pre ++ tr). now rewrite extend_extend, app_assoc. }
    simpl in H. unfold bind at 1, try_except at 1 in H.
    unfold bind at 1, call at 1 in H.
    destruct (frame_switch r i) as [[]|e1] eqn:Es.
    + unfold try_except at 1, bind at 1, call at 1 in H.
      destruct (frame_probe r i) as [[]|e2] eqn:Ep.
      * simpl in H. injection H as <- <-.
        exists 0, []. rewrite Nat.add_0_r. split; [lia|].
        split; [now split|]. split; [intros; lia|]. split.
        -- now rewrite record_record.
        -- constructor.
      * pose proof (not_frame_holds_probe r i e2 Ep) as Hno.
        unfold bind at 1, call at 1 in H.
        destruct (frame_page_source r i) as [[]|e3].
        -- unfold bind at 1, call at 1 in H.
           destruct (frame_default_inner r i) as [[]|e4].
           ++ simpl in H. rewrite !record_extend, !extend_extend in H.
              simpl app in H. revert H. apply Hrec; auto.
              ** eexists [_; _; _]. reflexivity.
              ** repeat constructor; intros j Ej; congruence.
           ++ unfold bind at 1, call at 1 in H.
              destruct (frame_default_outer r i) as [[]|e5];
                [|discriminate].
              simpl in H. rewrite !record_extend, !extend_extend in H.
              simpl app in H. revert H. apply Hrec; auto.
              ** eexists [_; _; _; _]. reflexivity.
              ** repeat constructor; intros j Ej; congruence.
        -- unfold bind at 1, call at 1 in H.
           destruct (frame_default_outer r i) as [[]|e5]; [|discriminate].
           simpl in H. rewrite !record_extend, !extend_extend in H.
           simpl app in H. revert H. apply Hrec; auto.
           ++ eexists [_; _; _]. reflexivity.
           ++ repeat constructor; intros j Ej; congruence.
    + pose proof (not_frame_holds_switch r i e1 Es) as Hno.
      unfold bind at 1, call at 1 in H.
      destruct (frame_default_outer r i) as [[]|e5]; [|discriminate].
      simpl in H. rewrite !record_extend, !extend_extend in H.
      simpl app in H. revert H. apply Hrec; auto.
      * eexists [_]. reflexivity.
      * repeat constructor; intros j Ej; congruence.
Qed.

(** ** Texts and their trimming *)

Lemma contains_char c x :
  Py.contains (String c "") x = true <-> In c (list_ascii_of_string x).
Proof.
  induction x as [|a t IH]; simpl.
  - split; [discriminate | tauto].
  - destruct (ascii_dec c a) as [->|Hn].
    + destruct t; simpl; split; auto.
    + simpl. rewrite IH. split; [now right|].
      intros [E|H]; [congruence | exact H].
Qed.

Lemma lstrip_in (space : ascii -> bool) c x :
  space c = false ->
  In c (list_ascii_of_string (Py.lstrip_by space x)) <->
  In c (list_ascii_of_string x).
Proof.
  intros Hc. induction x as [|a t IH]; simpl; [tauto|].
  destruct (space a) eqn:Ea; simpl; [|tauto].
  rewrite IH. split; [now right|].
  intros [E|H]; [congruence | exact H].
Qed.

Lemma rstrip_in (space : ascii -> bool) c x :
  space c = false ->
  In c (list_ascii_of_string (Py.rstrip_by space x)) <->
  In c (list_ascii_of_string x).
Proof.
  intros Hc. induction x as [|a t IH]; simpl; [tauto|].
  destruct (Py.rstrip_by space t) as [|b t'] eqn:Er.
  - simpl in IH. destruct (space a) eqn:Ea; simpl.
    + split; [tauto|]. intros [E|H]; [congruence | tauto].
    + tauto.
  - simpl. simpl in IH. tauto.
Qed.

Lemma strip_in c x :
  Py.isspace c = false ->
  In c (list_ascii_of_string (Py.strip x)) <-> In c (list_ascii_of_string x).
Proof.
  intros Hc. unfold Py.strip, Py.strip_by.
  now rewrite rstrip_in, lstrip_in.
Qed.

(** A text is empty once trimmed unless it has a character that is
    not white space. *)
Lemma strip_truthy_visible x : Py.truthy (Py.strip x) = true <-> visible x.
Proof.
  unfold visible. split.
  - intros H. destruct (strip_head x) as [E|(c & t & E & S)].
    + rewrite E in H. discriminate.
    + exists c. split; [|exact S].
      apply (strip_in c x S). rewrite E. now left.
  - intros (c & Hin & S). apply (strip_in c x S) in Hin.
    destruct (Py.strip x); [contradiction | reflexivity].
Qed.

Lemma strip_contains_star x :
  Py.contains "*" (Py.strip x) = Py.contains "*" x.
Proof.
  apply eq_true_iff_eq. rewrite !contains_char. now apply strip_in.
Qed.

(** ** The asterisk rule and the location rule *)

(** X7.  The asterisk rule (lines 582-593).  The step always falls
    through and leaves [idx] alone.  It writes the part number under
    "No Asterisk(*)" when the link element is found and its text has a
    character that is not white space and no asterisk; in every other
    case (no element, a blank text, a text with an asterisk) it writes
    nothing. *)
Theorem no_asterisk_rule part r s :
  exists s',
    check_asterisk part r s = (Normal tt, s') /\
    idx s' = idx s /\
    ((exists raw,
        link_element r = Returns raw /\ visible raw /\
        ~ In "*"%char (list_ascii_of_string raw)) ->
     sheet s' = sheet s ++ [(NoAsterisk, part)]) /\
    (~ (exists raw,
          link_element r = Returns raw /\ visible raw /\
          ~ In "*"%char (list_ascii_of_string raw)) ->
     sheet s' = sheet s).
Proof.
  unfold check_asterisk, try_except, bind, call.
  destruct (link_element r) as [raw|e] eqn:El.
  - rewrite strip_contains_star.
    destruct (Py.truthy (Py.strip raw)) eqn:Et.
    + destruct (Py.contains "*" raw) eqn:Ec; simpl.
      * eexists. split; [reflexivity|]. split; [reflexivity|]. split.
        -- intros (raw' & E & _ & Hn). exfalso. apply Hn.
           apply contains_char. congruence.
        -- reflexivity.
      * eexists. split; [reflexivity|]. split; [reflexivity|]. split.
        -- reflexivity.
        -- intros Hn. exfalso. apply Hn. exists raw. split; [reflexivity|].
           split; [now apply strip_truthy_visible|].
           intros Hin. apply contains_char in Hin. congruence.
    + simpl. eexists. split; [reflexivity|]. split; [reflexivity|]. split.
      * intros (raw' & E & Hv & _). exfalso.
        apply strip_truthy_visible in Hv. congruence.
      * reflexivity.
  - simpl. eexists. split; [reflexivity|]. split; [reflexivity|]. split.
    + intros (raw' & E & _). discriminate.
    + reflexivity.
Qed.

(** X8.  The location rule (lines 612-627).  The step always falls
    through and leaves [idx] alone.  It writes the part number under
    "No Location" when the location element is not found or its text
    is all white space, and writes nothing when the text has a
    character that is not white space. *)
Theorem no_location_rule part r s :
  exists s',
    check_location part r s = (Normal tt, s') /\
    idx s' = idx s /\
    ((forall raw, location_element r = Returns raw -> ~ visible raw) ->
     sheet s' = sheet s ++ [(NoLocation, part)]) /\
    ((exists raw, location_element r = Returns raw /\ visible raw) ->
     sheet s' = sheet s).
Proof.
  unfold check_location, try_except, bind, call.
  destruct (location_element r) as [raw|e] eqn:El.
  - destruct (Py.truthy (Py.strip raw)) eqn:Et; simpl.
    + eexists. split; [reflexivity|]. split; [reflexivity|]. split.
      * intros Hn. exfalso. apply (Hn raw eq_refl).
        now apply strip_truthy_visible.
      * reflexivity.
    + eexists. split; [reflexivity|]. split; [reflexivity|]. split.
      * reflexivity.
      * intros (raw' & E & Hv). exfalso.
        apply strip_truthy_visible in Hv. congruence.
  - simpl. eexists. split; [reflexivity|]. split; [reflexivity|]. split.
    + reflexivity.
    + intros (raw' & E & _). discriminate.
Qed.

(** ** The order of the rows of one pass *)

Lemma subsequence_refl {A} (l : list A) : subsequence l l.
Proof. induction l; [apply SubNil | now apply SubTake]. Qed.

Lemma subsequence_nil {A} (l : list A) : subsequence [] l.
Proof. induction l; [apply SubNil | now apply SubSkip]. Qed.

Lemma subsequence_app {A} (l1 m1 l2 m2 : list A) :
  subsequence l1 m1 -> subsequence l2 m2 ->
  subsequence (l1 ++ l2) (m1 ++ m2).
Proof.
  intros H1 H2. induction H1; simpl;
    [assumption | now apply SubSkip | now apply SubTake].
Qed.

Lemma subsequence_trans {A} (l m n : list A) :
  subsequence l m -> subsequence m n -> subsequence l n.
Proof.
  intros H1 H2. revert l H1.
  induction H2 as [|x m n H2 IH|x m n H2 IH]; intros l H1.
  - exact H1.
  - constructor. now apply IH.
  - inversion H1; subst.
    + apply SubSkip. now apply IH.
    + apply SubTake. now apply IH.
Qed.

Lemma wrote_same cols part s s' : sheet s' = sheet s -> wrote cols part s s'.
Proof.
  intros E. exists []. split; [apply subsequence_nil|].
  simpl. now rewrite app_nil_r.
Qed.

Lemma wrote_one c part s s' :
  sheet s' = sheet s ++ [(c, part)] -> wrote [c] part s s'.
Proof. intros E. exists [c]. split; [apply subsequence_refl | exact E]. Qed.

Lemma wrote_app c1 c2 part s s1 s2 :
  wrote c1 part s s1 -> wrote c2 part s1 s2 -> wrote (c1 ++ c2) part s s2.
Proof.
  intros (u1 & S1 & E1) (u2 & S2 & E2). exists (u1 ++ u2). split.
  - now apply subsequence_app.
  - now rewrite E2, E1, map_app, app_assoc.
Qed.

Lemma wrote_weaken c1 c2 part s s' :
  subsequence c1 c2 -> wrote c1 part s s' -> wrote c2 part s s'.
Proof.
  intros H (u & S & E). exists u. split; [|exact E].
  eapply subsequence_trans; eassumption.
Qed.

(** A piece that leaves the sheet as it is. *)
Lemma silent_sheet {A} (m : M A) s :
  preserves same_sheet m -> sheet (snd (m s)) = sheet s.
Proof. intros H. apply H. Qed.

Ltac subseq := solve [ eauto 12 using @SubNil, @SubSkip, @SubTake ].

Lemma check_discovery_wrote part c r s :
  wrote [NoDiscovery] part s (snd (check_discovery part c r s)).
Proof.
  unfold check_discovery. unfold bind at 1, gets. unfold bind.
  pose proof (probe_discovery_preserves same_sheet r
                (max_attempts (idx s)) (max_attempts (idx s)) 0 s) as Hp.
  destruct (probe_discovery _ _ _ _ s) as [[[found text]| | |e] s1];
    unfold same_sheet in Hp; cbn [snd] in Hp |- *;
    try (now apply wrote_same).
  destruct ((negb found || negb (Py.truthy (Py.strip text))) && negb c).
  - apply wrote_one. cbn. now rewrite Hp.
  - now apply wrote_same.
Qed.

Lemma check_asterisk_wrote part r s :
  wrote [NoAsterisk] part s (snd (check_asterisk part r s)).
Proof.
  unfold check_asterisk, try_except, bind, call.
  destruct (link_element r) as [raw|e]; [|now apply wrote_same].
  destruct (_ && _); [now apply wrote_one | now apply wrote_same].
Qed.

Lemma check_on_order_wrote part r s :
  wrote [OnOrder] part s (snd (check_on_order part r s)).
Proof.
  unfold check_on_order, try_except, bind, call.
  destruct (order_span r) as [raw|e]; [|now apply wrote_same].
  destruct (Py.float _) as [v|]; [|now apply wrote_same].
  destruct (Py.gt_zero v); [now apply wrote_one | now apply wrote_same].
Qed.

Lemma check_location_wrote part r s :
  wrote [NoLocation] part s (snd (check_location part r s)).
Proof.
  unfold check_location, try_except, bind, call.
  destruct (location_element r) as [raw|e]; [|now apply wrote_one].
  destruct (negb _); [now apply wrote_one | now apply wrote_same].
Qed.

Lemma writes_silent part {A} (m : M A) :
  preserves same_sheet m -> writes [] part m.
Proof. intros H s. apply wrote_same, H. Qed.

Lemma writes_weaken c1 c2 part {A} (m : M A) :
  subsequence c1 c2 -> writes c1 part m -> writes c2 part m.
Proof. intros H Hm s. eapply wrote_weaken; [exact H | apply Hm]. Qed.

Lemma writes_append c part : writes [c] part (append_to_excel c part).
Proof. intros s. now apply wrote_one. Qed.

Lemma subsequence_app_l {A} (l m : list A) : subsequence l (l ++ m).
Proof.
  rewrite <- (app_nil_r l) at 1.
  apply subsequence_app; [apply subsequence_refl | apply subsequence_nil].
Qed.

Lemma writes_bind c1 c2 part {A B} (m : M A) (k : A -> M B) :
  writes c1 part m -> (forall a, writes c2 part (k a)) ->
  writes (c1 ++ c2) part (bind m k).
Proof.
  intros Hm Hk s. unfold bind. specialize (Hm s).
  destruct (m s) as [[a| | |e] s1]; cbn [snd] in *;
    try (eapply wrote_weaken; [apply subsequence_app_l | exact Hm]).
  eapply wrote_app; [exact Hm | apply Hk].
Qed.

Lemma writes_try c1 c2 part {A} (m : M A) (h : exn -> M A) :
  writes c1 part m -> (forall e, writes c2 part (h e)) ->
  writes (c1 ++ c2) part (try_except m h).
Proof.
  intros Hm Hh s. unfold try_except. specialize (Hm s).
  destruct (m s) as [[a| | |e] s1]; cbn [snd] in *;
    try (eapply wrote_weaken; [apply subsequence_app_l | exact Hm]).
  eapply wrote_app; [exact Hm | apply Hh].
Qed.

Ltac silent := apply writes_silent; preserve.

Lemma independent_rules_writes part sw c r :
  writes [NoDiscovery; NoAsterisk; OnOrder; NoLocation] part
         (independent_rules part sw c r).
Proof.
  unfold independent_rules.
  apply (writes_bind [NoDiscovery] [NoAsterisk; OnOrder; NoLocation]);
    [intro; apply check_discovery_wrote | intro].
  apply (writes_bind [NoAsterisk] [OnOrder; NoLocation]);
    [intro; apply check_asterisk_wrote | intro].
  apply (writes_bind [OnOrder] [NoLocation]);
    [intro; apply check_on_order_wrote | intro].
  apply (writes_bind [NoLocation] []);
    [intro; apply check_location_wrote | intro].
  silent.
Qed.

Lemma check_cancelled_writes part sw r :
  writes [NotInRSC; Cancelled] part (check_cancelled part sw r).
Proof.
  unfold check_cancelled.
  apply (writes_bind [NotInRSC; Cancelled] []); [|intros [|]; silent].
  apply (writes_try [NotInRSC; Cancelled] []); [|intro; silent].
  apply (writes_bind [] [NotInRSC; Cancelled]); [silent | intro raw].
  cbv zeta.
  apply (writes_bind [NotInRSC] [Cancelled]).
  - destruct (_ && _).
    + apply (writes_bind [NotInRSC] []); [apply writes_append | intro].
      silent.
    + apply (writes_weaken []); [subseq | silent].
  - intros [|].
    + apply (writes_weaken []); [subseq | silent].
    + destruct (_ && _).
      * apply (writes_bind [Cancelled] []); [apply writes_append | intro].
        silent.
      * apply (writes_weaken []); [subseq | silent].
Qed.

Lemma extract_fields_writes part sw r :
  writes [NotInRSC; Cancelled; NoDiscovery; NoAsterisk; OnOrder; NoLocation]
         part (extract_fields part sw r).
Proof.
  unfold extract_fields.
  apply (writes_bind [NotInRSC; Cancelled]
                     [NoDiscovery; NoAsterisk; OnOrder; NoLocation]).
  - apply check_cancelled_writes.
  - intro. apply independent_rules_writes.
Qed.

Lemma process_writes part total r :
  writes [NotInAceNet; NotInRSC; Cancelled; NoDiscovery; NoAsterisk; OnOrder;
          NoLocation] part (process part total r).
Proof.
  intros s. unfold process, bind.
  pose proof (navigate_nav part total r s) as Hn.
  destruct (navigate part total r s) as [[sw| | |e] s1];
    cbn [fst snd nav_post] in Hn |- *.
  - destruct (extract_fields_writes part sw r s1) as (used & Hs & E).
    exists used. split; [now apply SubSkip|]. rewrite <- Hn. exact E.
  - destruct Hn as [Hn|Hn];
      [now apply wrote_same|].
    eapply wrote_weaken; [|apply wrote_one; exact Hn]. subseq.
  - destruct Hn as [Hn|Hn];
      [now apply wrote_same|].
    eapply wrote_weaken; [|apply wrote_one; exact Hn]. subseq.
  - destruct Hn as [Hn|Hn];
      [now apply wrote_same|].
    eapply wrote_weaken; [|apply wrote_one; exact Hn]. subseq.
Qed.

Lemma recover_writes part r : writes [NotInAceNet] part (recover part r).
Proof.
  unfold recover.
  apply (writes_bind [NotInAceNet] []); [apply writes_append | intro].
  silent.
Qed.

(** X9.  One pass of the loop writes its rows in a fixed order, each
    at most once: "Not in AceNet" from the navigation, then "Not in
    RSC", "Cancelled", "No Discovery", "No Asterisk(*)", "On Order",
    "No Location", then "Not in AceNet" from the fault handler.  So a
    part number is written at most once per pass under each column but
    "Not in AceNet", and at most twice under that one. *)
Theorem pass_rows_in_order part total r s :
  wrote pass_order part s (snd (iteration part total r s)).
Proof.
  revert s. change (writes pass_order part (iteration part total r)).
  unfold iteration.
  apply (writes_bind [] pass_order);
    [apply writes_silent, health_check_same_sheet | intro].
  apply (writes_try [NotInAceNet; NotInRSC; Cancelled; NoDiscovery;
                     NoAsterisk; OnOrder; NoLocation] [NotInAceNet]).
  - apply process_writes.
  - intro. apply recover_writes.
Qed.

(** ** The output workbook *)

Lemma nth_update_eq n f l :
  nth n (Excel.update n f l) Excel.blank = f (nth n l Excel.blank).
Proof.
  revert l. induction n as [|n IH]; intros [|c t]; simpl; auto.
  - rewrite IH. now destruct n.
Qed.

Lemma nth_update_neq n m f l :
  n <> m -> nth m (Excel.update n f l) Excel.blank = nth m l Excel.blank.
Proof.
  revert m l. induction n as [|n IH]; intros [|m] [|c t] H; simpl;
    try reflexivity; try lia.
  - now destruct m.
  - rewrite IH by lia. now destruct m.
  - apply IH. lia.
Qed.

Lemma cell_at_set_cell_eq ws col row f :
  Excel.cell_at (Excel.set_cell ws col row f) col row
  = f (Excel.cell_at ws col row).
Proof.
  unfold Excel.cell_at, Excel.set_cell. simpl.
  rewrite String.eqb_refl. apply nth_update_eq.
Qed.

Lemma cell_at_set_cell_neq ws col row f c r :
  1 <= row -> 1 <= r -> (c, r) <> (col, row) ->
  Excel.cell_at (Excel.set_cell ws col row f) c r = Excel.cell_at ws c r.
Proof.
  intros Hrow Hr Hn. unfold Excel.cell_at, Excel.set_cell. simpl.
  destruct (String.eqb_spec c col) as [->|Hc]; [|reflexivity].
  apply nth_update_neq. intros E. apply Hn. f_equal. lia.
Qed.

Lemma cell_at_set_width ws col w c r :
  Excel.cell_at (Excel.set_width ws col w) c r = Excel.cell_at ws c r.
Proof. reflexivity. Qed.

(** The search for the first empty row stops at an empty cell, below
    cells that are all filled. *)
Lemma first_empty_spec cs :
  forall row,
    row <= Excel.first_empty cs row /\
    (forall j, j < Excel.first_empty cs row - row ->
               Excel.truthy (Excel.cell_value (nth j cs Excel.blank)) = true) /\
    Excel.truthy
      (Excel.cell_value (nth (Excel.first_empty cs row - row) cs Excel.blank))
    = false.
Proof.
  induction cs as [|c t IH]; intros row; simpl.
  - rewrite Nat.sub_diag. split; [lia|]. split; [intros; lia | reflexivity].
  - destruct (Excel.truthy (Excel.cell_value c)) eqn:Ec.
    + destruct (IH (S row)) as (H1 & H2 & H3). split; [lia|].
      replace (Excel.first_empty t (S row) - row)
        with (S (Excel.first_empty t (S row) - S row)) by lia.
      split; [|exact H3].
      intros [|j] Hj; [exact Ec | apply H2; lia].
    + rewrite Nat.sub_diag. split; [lia|]. split; [intros; lia | exact Ec].
Qed.

Lemma nth_skipn_1 {A} (l : list A) j d : nth j (skipn 1 l) d = nth (S j) l d.
Proof. destruct l as [|a t]; simpl; [now destruct j | reflexivity]. Qed.

Lemma current_row_spec ws col :
  let row := Excel.first_empty (skipn 1 (Excel.ws_cells ws col)) 2 in
  2 <= row /\
  (forall r, 2 <= r < row ->
             Excel.truthy (Excel.cell_value (Excel.cell_at ws col r)) = true) /\
  Excel.truthy (Excel.cell_value (Excel.cell_at ws col row)) = false.
Proof.
  intros row. subst row.
  destruct (first_empty_spec (skipn 1 (Excel.ws_cells ws col)) 2)
    as (H1 & H2 & H3).
  split; [exact H1|]. unfold Excel.cell_at. split.
  - intros r Hr. specialize (H2 (r - 2)). rewrite nth_skipn_1 in H2.
    replace (S (r - 2)) with (r - 1) in H2 by lia. apply H2. lia.
  - rewrite nth_skipn_1 in H3.
    replace (S (Excel.first_empty (skipn 1 (Excel.ws_cells ws col)) 2 - 2))
      with (Excel.first_empty (skipn 1 (Excel.ws_cells ws col)) 2 - 1)
      in H3 by lia.
    exact H3.
Qed.

(** What one successful attempt does to the sheet. *)
Lemma append_to_sheet_spec ws col part_number :
  let row := fst (Excel.append_to_sheet ws col part_number) in
  let ws' := snd (Excel.append_to_sheet ws col part_number) in
  2 <= row /\
  (forall r, 2 <= r < row ->
             Excel.truthy (Excel.cell_value (Excel.cell_at ws col r)) = true) /\
  Excel.truthy (Excel.cell_value (Excel.cell_at ws col row)) = false /\
  Excel.cell_at ws' col row
  = {| Excel.cell_value := Some part_number;
       Excel.cell_font := Excel.cell_font (Excel.cell_at ws col row) |} /\
  (forall c r, 1 <= r -> (c, r) <> (col, row) ->
               Excel.cell_at ws' c r = Excel.cell_at ws c r) /\
  Excel.ws_title ws' = Excel.ws_title ws.
Proof.
  intros row ws'. subst row ws'. unfold Excel.append_to_sheet. cbn [fst snd].
  destruct (current_row_spec ws col) as (H1 & H2 & H3).
  split; [exact H1|]. split; [exact H2|]. split; [exact H3|].
  split; [|split].
  - rewrite cell_at_set_width. unfold Excel.set_value.
    now rewrite cell_at_set_cell_eq.
  - intros c r Hr Hn. rewrite cell_at_set_width. unfold Excel.set_value.
    apply cell_at_set_cell_neq; auto. lia.
  - reflexivity.
Qed.

Lemma load_some answer f sheet_name ws :
  Excel.load answer f sheet_name = Some ws ->
  f = Some ws /\ Excel.can_load answer = true /\
  Excel.ws_title ws = sheet_name.
Proof.
  unfold Excel.load. destruct f as [ws0|]; [|discriminate].
  destruct (Excel.can_load answer); [|discriminate].
  destruct (String.eqb_spec (Excel.ws_title ws0) sheet_name);
    [|discriminate].
  simpl. intros E. injection E as <-. auto.
Qed.

(** The attempts end with the sheet of the first one the disk allows,
    or with nothing done. *)
Lemma append_attempts_spec disk f sheet_name col part_number n :
  forall attempt,
    (exists a ws,
       attempt <= a < attempt + n /\
       Excel.load (disk a) f sheet_name = Some ws /\
       Excel.can_save (disk a) = true /\
       (forall b, attempt <= b < a ->
                  Excel.load (disk b) f sheet_name = None \/
                  Excel.can_save (disk b) = false) /\
       Excel.append_attempts n attempt disk f sheet_name col part_number
       = (Some (fst (Excel.append_to_sheet ws col part_number)),
          Some (snd (Excel.append_to_sheet ws col part_number)))) \/
    ((forall b, attempt <= b < attempt + n ->
                Excel.load (disk b) f sheet_name = None \/
                Excel.can_save (disk b) = false) /\
     Excel.append_attempts n attempt disk f sheet_name col part_number
     = (None, f)).
Proof.
  induction n as [|n IH]; intros attempt; cbn [Excel.append_attempts].
  - right. split; [intros; lia | reflexivity].
  - assert (Hnext :
      Excel.load (disk attempt) f sheet_name = None \/
      Excel.can_save (disk attempt) = false ->
      (exists a ws,
         attempt <= a < attempt + S n /\
         Excel.load (disk a) f sheet_name = Some ws /\
         Excel.can_save (disk a) = true /\
         (forall b, attempt <= b < a ->
                    Excel.load (disk b) f sheet_name = None \/
                    Excel.can_save (disk b) = false) /\
         Excel.append_attempts n (S attempt) disk f sheet_name col part_number
         = (Some (fst (Excel.append_to_sheet ws col part_number)),
            Some (snd (Excel.append_to_sheet ws col part_number)))) \/
      ((forall b, attempt <= b < attempt + S n ->
                  Excel.load (disk b) f sheet_name = None \/
                  Excel.can_save (disk b) = false) /\
       Excel.append_attempts n (S attempt) disk f sheet_name col part_number
       = (None, f))).
    { intros Hfail. destruct (IH (S attempt)) as [(a & ws & Ha & R)|(Hall & E)].
      - left. exists a, ws. split; [lia|].
        destruct R as (R1 & R2 & R3 & R4). repeat split; auto.
        intros b Hb. destruct (Nat.eq_dec b attempt) as [->|Hne];
          [exact Hfail | apply R3; lia].
      - right. split; [|exact E].
        intros b Hb. destruct (Nat.eq_dec b attempt) as [->|Hne];
          [exact Hfail | apply Hall; lia]. }
    destruct (Excel.load (disk attempt) f sheet_name) as [ws|] eqn:El.
    + destruct (Excel.append_to_sheet ws col part_number) as [row ws'] eqn:Ea.
      destruct (Excel.can_save (disk attempt)) eqn:Es.
      * left. exists attempt, ws. split; [lia|]. rewrite Ea.
        repeat split; auto. intros; lia.
      * apply Hnext. now right.
    + apply Hnext. now left.
Qed.

(** X10.  When [append_to_excel] returns a row, the column name was
    one of the seven of [column_map], the row is the first one from
    row 2 down whose cell in that column was empty, that cell now holds
    the part number with its font unchanged, and every other cell of
    the sheet is as it was: nothing is overwritten and nothing is
    moved. *)
Theorem append_to_excel_cell disk f sheet_name column part_number row f' :
  Excel.append_to_excel disk f sheet_name column part_number
  = (Some row, f') ->
  exists col ws ws',
    Excel.get Excel.column_map column = Some col /\
    f = Some ws /\ f' = Some ws' /\
    2 <= row /\
    (forall r, 2 <= r < row ->
               Excel.truthy (Excel.cell_value (Excel.cell_at ws col r))
               = true) /\
    Excel.truthy (Excel.cell_value (Excel.cell_at ws col row)) = false /\
    Excel.cell_at ws' col row
    = {| Excel.cell_value := Some part_number;
         Excel.cell_font := Excel.cell_font (Excel.cell_at ws col row) |} /\
    (forall c r, 1 <= r -> (c, r) <> (col, row) ->
                 Excel.cell_at ws' c r = Excel.cell_at ws c r).
Proof.
  unfold Excel.append_to_excel.
  destruct (Excel.get Excel.column_map column) as [col|]; [|discriminate].
  destruct (append_attempts_spec disk f sheet_name col part_number 5 0)
    as [(a & ws & _ & El & _ & _ & ->)|(_ & ->)]; [|discriminate].
  intros E. injection E as <- <-.
  apply load_some in El. destruct El as (-> & _ & _).
  destruct (append_to_sheet_spec ws col part_number)
    as (H1 & H2 & H3 & H4 & H5 & _).
  exists col, ws, (snd (Excel.append_to_sheet ws col part_number)).
  repeat split; auto.
Qed.

(** X11.  [append_to_excel] returns [None] exactly when the column
    name is not a key of [column_map] or none of the five attempts
    gets the file loaded (with the sheet in it) and saved; the file is
    then as it was.  It never raises. *)
Theorem append_to_excel_gives_up disk f sheet_name column part_number :
  (fst (Excel.append_to_excel disk f sheet_name column part_number) = None
   <->
   Excel.get Excel.column_map column = None \/
   forall a, a < 5 ->
             Excel.load (disk a) f sheet_name = None \/
             Excel.can_save (disk a) = false) /\
  (fst (Excel.append_to_excel disk f sheet_name column part_number) = None ->
   snd (Excel.append_to_excel disk f sheet_name column part_number) = f).
Proof.
  unfold Excel.append_to_excel.
  destruct (Excel.get Excel.column_map column) as [col|].
  2:{ split; [|reflexivity]. split; auto. }
  destruct (append_attempts_spec disk f sheet_name col part_number 5 0)
    as [(a & ws & Ha & El & Es & _ & ->)|(Hall & ->)]; cbn [fst snd].
  - split; [|discriminate]. split; [discriminate|].
    intros [H|H]; [discriminate|].
    destruct (H a) as [H'|H']; [lia | congruence | congruence].
  - split; [|reflexivity]. split; [|reflexivity].
    intros _. right. intros a Ha. apply Hall. lia.
Qed.

(** *** The width of the column *)

Lemma fold_max_spec (P : nat -> bool) (g : nat -> nat) l :
  forall init,
    let m := fold_left (fun m r => if P r then Nat.max m (g r) else m)
                       l init in
    init <= m /\
    (forall r, In r l -> P r = true -> g r <= m) /\
    (m = init \/ exists r, In r l /\ P r = true /\ m = g r).
Proof.
  induction l as [|a l IH]; intros init; simpl.
  - split; [lia|]. split; [tauto | now left].
  - destruct (IH (if P a then Nat.max init (g a) else init))
      as (H1 & H2 & H3).
    destruct (P a) eqn:Ea.
    + split; [lia|]. split.
      * intros r [<-|Hr] Hp; [lia | now apply H2].
      * destruct H3 as [H3|(r & Hr & Hp & H3)].
        -- destruct (Nat.max_spec init (g a)) as [[_ E]|[_ E]].
           ++ right. exists a. split; [now left|]. split; [exact Ea|]. lia.
           ++ left. lia.
        -- right. exists r. auto.
    + split; [lia|]. split.
      * intros r [<-|Hr] Hp; [congruence | now apply H2].
      * destruct H3 as [H3|(r & Hr & Hp & H3)]; [now left|].
        right. exists r. auto.
Qed.

(** X12.  After [append_to_excel] the width of the column is 1.2
    times the length of the longest text in it, the header included:
    it is [Scaled m] where [m] is the greatest length of [str] of the
    cells of rows 1 to the row written. *)
Theorem append_to_excel_width disk f sheet_name column part_number row ws' :
  Excel.append_to_excel disk f sheet_name column part_number
  = (Some row, Some ws') ->
  exists col m,
    Excel.get Excel.column_map column = Some col /\
    Excel.ws_widths ws' col = Excel.Scaled m /\
    (forall r, 1 <= r <= row ->
       String.length (Excel.str (Excel.cell_value (Excel.cell_at ws' col r)))
       <= m) /\
    (exists r, 1 <= r <= row /\
       String.length (Excel.str (Excel.cell_value (Excel.cell_at ws' col r)))
       = m).
Proof.
  unfold Excel.append_to_excel.
  destruct (Excel.get Excel.column_map column) as [col|]; [|discriminate].
  destruct (append_attempts_spec disk f sheet_name col part_number 5 0)
    as [(a & ws & _ & El & _ & _ & ->)|(_ & ->)]; [|discriminate].
  intros E. injection E as <- <-.
  destruct (append_to_sheet_spec ws col part_number)
    as (H1 & H2 & H3 & H4 & H5 & _).
  exists col.
  set (row := Excel.first_empty (skipn 1 (Excel.ws_cells ws col)) 2).
  set (ws1 := Excel.set_value ws col row (Some part_number)).
  change (fst (Excel.append_to_sheet ws col part_number)) with row in *.
  change (snd (Excel.append_to_sheet ws col part_number))
    with (Excel.set_width ws1 col
            (Excel.Scaled (Excel.max_length ws1 col part_number row))) in *.
  rewrite cell_at_set_width in H4.
  assert (Hcell : forall r,
             Excel.cell_at
               (Excel.set_width ws1 col
                  (Excel.Scaled (Excel.max_length ws1 col part_number row)))
               col r = Excel.cell_at ws1 col r) by reflexivity.
  exists (Excel.max_length ws1 col part_number row).
  split; [reflexivity|]. split.
  { cbn [Excel.set_width Excel.ws_widths]. now rewrite String.eqb_refl. }
  unfold Excel.max_length.
  destruct (fold_max_spec
              (fun r => Excel.truthy (Excel.cell_value (Excel.cell_at ws1 col r)))
              (fun r => String.length
                          (Excel.str (Excel.cell_value (Excel.cell_at ws1 col r))))
              (seq 2 (row - 1))
              (Nat.max
                 (String.length
                    (Excel.str (Excel.cell_value (Excel.cell_at ws1 col 1))))
                 (String.length part_number)))
    as (M1 & M2 & M3).
  cbv zeta in M1, M2, M3.
  set (m := fold_left _ _ _) in *.
  assert (Hrow : Excel.str (Excel.cell_value (Excel.cell_at ws1 col row))
                 = part_number) by now rewrite H4.
  split.
  - intros r Hr. change (1 <= r <= row) in Hr. rewrite Hcell.
    destruct (Nat.eq_dec r 1) as [->|N1]; [lia|].
    destruct (Nat.eq_dec r row) as [->|Nr]; [rewrite Hrow; lia|].
    apply M2.
    + apply in_seq. lia.
    + specialize (H5 col r). rewrite cell_at_set_width in H5.
      rewrite H5; [apply H2; lia | lia | intros E; injection E; lia].
  - destruct M3 as [M3|(r & Hr & _ & M3)].
    + destruct (Nat.max_spec
                  (String.length
                     (Excel.str (Excel.cell_value (Excel.cell_at ws1 col 1))))
                  (String.length part_number)) as [[_ E]|[_ E]];
        rewrite E in M3.
      * exists row. split; [change (1 <= row <= row); lia|].
        rewrite Hcell, Hrow. lia.
      * exists 1. split; [change (1 <= 1 <= row); lia|]. rewrite Hcell. lia.
    + apply in_seq in Hr. exists r. split; [change (1 <= r <= row); lia|].
      rewrite Hcell. lia.
Qed.

(** *** The rows of a run in the workbook *)

Lemma first_empty_filled cs :
  forall row,
    Forall (fun c => Excel.truthy (Excel.cell_value c) = true) cs ->
    Excel.first_empty cs row = row + length cs.
Proof.
  induction cs as [|c t IH]; intros row H; simpl; [lia|].
  inversion H as [|c' t' Hc Ht]; subst. rewrite Hc, IH by exact Ht. lia.
Qed.

Lemma update_end f l :
  Excel.update (length l) f l = l ++ [f Excel.blank].
Proof. induction l as [|c t IH]; simpl; [reflexivity | now rewrite IH]. Qed.

Lemma column_eqb_spec a b : reflect (a = b) (column_eqb a b).
Proof. destruct a, b; constructor; congruence. Qed.

Lemma under_app c rows rows' : under c (rows ++ rows') = under c rows ++ under c rows'.
Proof. unfold under. now rewrite filter_app, map_app. Qed.

Lemma under_same c p : under c [(c, p)] = [p].
Proof.
  unfold under. cbn [filter fst].
  destruct (column_eqb_spec c c) as [_|N]; [reflexivity | congruence].
Qed.

Lemma under_other c c' p : c <> c' -> under c' [(c, p)] = [].
Proof.
  intros H. unfold under. cbn [filter fst].
  destruct (column_eqb_spec c c') as [E|_]; [congruence | reflexivity].
Qed.

Lemma column_letter c :
  exists col, Excel.get Excel.column_map (column_name c) = Some col.
Proof. destruct c; eexists; reflexivity. Qed.

Lemma column_letter_inj c c' col :
  Excel.get Excel.column_map (column_name c) = Some col ->
  Excel.get Excel.column_map (column_name c') = Some col ->
  c = c'.
Proof. destruct c, c'; cbn; intros E E'; congruence. Qed.

Lemma initialize_sheet_holds sheet_name :
  holds (Excel.initialize_sheet sheet_name) [].
Proof.
  intros c col E. destruct c; cbn in E; injection E as <-; reflexivity.
Qed.

Lemma append_to_sheet_holds ws rows c col part_number :
  holds ws rows ->
  Forall (fun row : column * string => snd row <> "") rows ->
  part_number <> "" ->
  Excel.get Excel.column_map (column_name c) = Some col ->
  holds (snd (Excel.append_to_sheet ws col part_number))
        (rows ++ [(c, part_number)]).
Proof.
  intros Hh Hrows Hp Ec c' col' Ec'. rewrite under_app.
  unfold Excel.append_to_sheet. cbn [snd Excel.set_width Excel.ws_cells
    Excel.set_value Excel.set_cell].
  destruct (String.eqb_spec col' col) as [->|Hn].
  - assert (c' = c) as -> by (eapply column_letter_inj; eassumption).
    pose proof (Hh c col Ec) as Hc.
    destruct (Excel.ws_cells ws col) as [|h body] eqn:Eb; [discriminate|].
    cbn [map] in Hc. injection Hc as Hh1 Hbody.
    cbn [skipn].
    assert (Hfilled : Forall (fun c => Excel.truthy (Excel.cell_value c) = true)
                             body).
    { apply Forall_forall. intros x Hx.
      apply (in_map Excel.cell_value) in Hx. rewrite Hbody in Hx.
      apply in_map_iff in Hx. destruct Hx as (p & <- & Hp').
      unfold under in Hp'. apply in_map_iff in Hp'.
      destruct Hp' as (row & <- & Hrow). apply filter_In in Hrow.
      rewrite Forall_forall in Hrows. specialize (Hrows row (proj1 Hrow)).
      cbn. destruct (snd row); [congruence | reflexivity]. }
    rewrite (first_empty_filled body 2 Hfilled).
    replace (2 + length body - 1) with (S (length body)) by lia.
    cbn [Excel.update]. rewrite update_end.
    rewrite under_same, !map_app.
    cbn [map]. rewrite map_app, Hh1, Hbody. reflexivity.
  - rewrite (Hh c' col' Ec'), under_other, app_nil_r; [reflexivity|].
    intros ->. apply Hn. congruence.
Qed.

Lemma save_rows_holds sheet_name rows :
  forall ws done,
    Excel.ws_title ws = sheet_name ->
    holds ws done ->
    Forall (fun row : column * string => snd row <> "") done ->
    Forall (fun row : column * string => snd row <> "") rows ->
    exists ws',
      save_rows Excel.reliable sheet_name rows (Some ws) = Some ws' /\
      Excel.ws_title ws' = sheet_name /\
      holds ws' (done ++ rows).
Proof.
  induction rows as [|[c p] rows IH]; intros ws done Ht Hh Hd Hr.
  - exists ws. rewrite app_nil_r. auto.
  - inversion Hr as [|row rows' Hp Hr']; subst. cbn [snd] in Hp.
    destruct (column_letter c) as (col & Ec).
    unfold save_rows. cbn [fold_left fst snd].
    unfold Excel.append_to_excel at 2. rewrite Ec.
    cbn [Excel.append_attempts Excel.load Excel.reliable Excel.can_load
         Excel.can_save andb].
    rewrite String.eqb_refl.
    destruct (Excel.append_to_sheet ws col p) as [row ws1] eqn:Ea.
    cbn [snd].
    destruct (IH ws1 (done ++ [(c, p)])) as (ws' & E & T & H).
    + replace ws1 with (snd (Excel.append_to_sheet ws col p))
        by now rewrite Ea.
      reflexivity.
    + replace ws1 with (snd (Excel.append_to_sheet ws col p))
        by now rewrite Ea.
      now apply append_to_sheet_holds.
    + apply Forall_app. split; [exact Hd|]. now constructor.
    + exact Hr'.
    + exists ws'. split; [exact E|]. split; [exact T|].
      now rewrite <- app_assoc in H.
Qed.

(** X13.  The rows of the sheet as the statements about the loop
    have them are what the workbook holds: when the disk lets every
    load and every save through and no part number is the empty text,
    writing the rows one after the other to the file made by
    [initialize_excel_output] leaves, in the column of each of the
    seven headers, the header followed by the part numbers the rows
    have under it, in their order, and nothing else. *)
Theorem rows_in_workbook f sheet_name rows :
  Forall (fun row : column * string => snd row <> "") rows ->
  exists ws,
    save_rows Excel.reliable sheet_name rows
      (snd (Excel.initialize_excel_output Excel.reliable f sheet_name))
    = Some ws /\
    forall c col,
      Excel.get Excel.column_map (column_name c) = Some col ->
      map Excel.cell_value (Excel.ws_cells ws col)
      = Some (column_name c) :: map Some (under c rows).
Proof.
  intros Hr.
  destruct (save_rows_holds sheet_name rows
              (Excel.initialize_sheet sheet_name) [])
    as (ws & E & _ & H); auto.
  - apply initialize_sheet_holds.
  - exists ws. split; [exact E | exact H].
Qed.

(** ** The colour code *)

(** *** Painting *)

Lemma set_font_value ws col row f c r :
  Excel.cell_value (Excel.cell_at (Excel.set_font ws col row f) c r)
  = Excel.cell_value (Excel.cell_at ws c r).
Proof.
  unfold Excel.cell_at, Excel.set_font, Excel.set_cell. simpl.
  destruct (String.eqb c col); [|reflexivity].
  destruct (Nat.eq_dec (row - 1) (r - 1)) as [<-|N].
  - now rewrite nth_update_eq.
  - now rewrite nth_update_neq.
Qed.

Lemma set_font_here ws col row f :
  Excel.cell_font (Excel.cell_at (Excel.set_font ws col row f) col row) = f.
Proof.
  unfold Excel.cell_at, Excel.set_font, Excel.set_cell. simpl.
  now rewrite String.eqb_refl, nth_update_eq.
Qed.

Lemma set_font_elsewhere ws col row f c r :
  2 <= row -> (c, r) <> (col, row) ->
  Excel.cell_at (Excel.set_font ws col row f) c r = Excel.cell_at ws c r.
Proof.
  intros Hrow Hn. unfold Excel.cell_at, Excel.set_font, Excel.set_cell. simpl.
  destruct (String.eqb_spec c col) as [->|Hc]; [|reflexivity].
  apply nth_update_neq. intros E. apply Hn. f_equal. lia.
Qed.

Lemma location_dec (a b : Excel.location) : {a = b} + {a <> b}.
Proof. decide equality; [apply Nat.eq_dec | apply string_dec]. Qed.

Lemma paint_spec locs :
  forall ws c r,
    Forall (fun loc : Excel.location => 2 <= snd loc) locs ->
    Excel.cell_value (Excel.cell_at (Excel.paint ws locs) c r)
    = Excel.cell_value (Excel.cell_at ws c r) /\
    (In (c, r) locs ->
     Excel.cell_font (Excel.cell_at (Excel.paint ws locs) c r)
     = Excel.red_font) /\
    (~ In (c, r) locs ->
     Excel.cell_at (Excel.paint ws locs) c r = Excel.cell_at ws c r).
Proof.
  unfold Excel.paint.
  induction locs as [|[col row] locs IH]; intros ws c r H; simpl.
  - repeat split; tauto.
  - inversion H as [|x l Hrow Hl]; subst. cbn [snd] in Hrow.
    destruct (IH (Excel.set_font ws col row Excel.red_font) c r Hl)
      as (V & R & S).
    split; [|split].
    + now rewrite V, set_font_value.
    + intros Hin. destruct (in_dec location_dec (c, r) locs) as [Hi|Hi].
      * now apply R.
      * destruct Hin as [E|Hin]; [|contradiction].
        injection E as -> ->. rewrite (S Hi). apply set_font_here.
    + intros Hn. rewrite S by tauto.
      apply set_font_elsewhere; [exact Hrow|].
      intros E. apply Hn. left. now symmetry.
Qed.

Lemma classic_items (d : list (string * list Excel.location)) c r :
  (exists item, In item d /\ 1 < length (snd item) /\ In (c, r) (snd item))
  \/
  ~ (exists item,
       In item d /\ 1 < length (snd item) /\ In (c, r) (snd item)).
Proof.
  induction d as [|item d IH].
  - right. intros (i & [] & _).
  - destruct IH as [(i & Hi & H)|Hn]; [left; exists i; split; [now right|auto]|].
    destruct (lt_dec 1 (length (snd item))) as [Hl|Hl].
    + destruct (in_dec location_dec (c, r) (snd item)) as [Hin|Hin].
      * left. exists item. split; [now left | auto].
      * right. intros (i & [<-|Hi] & H); [tauto|]. apply Hn. now exists i.
    + right. intros (i & [<-|Hi] & H); [tauto|]. apply Hn. now exists i.
Qed.

(** The loop over the dictionary. *)
Lemma color_fold_spec d :
  forall ws c r,
    Forall (fun item : string * list Excel.location =>
              Forall (fun loc : Excel.location => 2 <= snd loc) (snd item)) d ->
    let ws' :=
      fold_left
        (fun ws' item =>
           if 1 <? length (snd item) then Excel.paint ws' (snd item) else ws')
        d ws in
    Excel.cell_value (Excel.cell_at ws' c r)
    = Excel.cell_value (Excel.cell_at ws c r) /\
    ((exists item, In item d /\ 1 < length (snd item) /\ In (c, r) (snd item))
     -> Excel.cell_font (Excel.cell_at ws' c r) = Excel.red_font) /\
    (~ (exists item,
          In item d /\ 1 < length (snd item) /\ In (c, r) (snd item))
     -> Excel.cell_at ws' c r = Excel.cell_at ws c r).
Proof.
  induction d as [|[k locs] d IH]; intros ws c r H; simpl.
  - split; [reflexivity|]. split; [intros (i & [] & _) | reflexivity].
  - inversion H as [|x l Hlocs Hd]; subst. cbn [snd] in Hlocs.
    set (ws1 := if 1 <? length locs then Excel.paint ws locs else ws).
    destruct (IH ws1 c r Hd) as (V & R & S).
    destruct (paint_spec locs ws c r Hlocs) as (PV & PR & PS).
    assert (V1 : Excel.cell_value (Excel.cell_at ws1 c r)
                 = Excel.cell_value (Excel.cell_at ws c r)).
    { unfold ws1. now destruct (1 <? length locs). }
    split; [now rewrite V|]. split.
    + intros (item & Hin & Hlen & Hloc).
      destruct (classic_items d c r) as [Hex|Hnex]; [now apply R|].
      rewrite (S Hnex). destruct Hin as [<-|Hin].
      * cbn [snd] in Hlen, Hloc. unfold ws1.
        apply Nat.ltb_lt in Hlen. rewrite Hlen. now apply PR.
      * exfalso. apply Hnex. now exists item.
    + intros Hn. rewrite S.
      * unfold ws1. destruct (1 <? length locs) eqn:El; [|reflexivity].
        apply PS. intros Hin. apply Hn. exists (k, locs).
        apply Nat.ltb_lt in El. auto.
      * intros (item & Hin & Hlen & Hloc). apply Hn. exists item. auto.
Qed.

(** *** The dictionary *)

Lemma lookup_add d k loc k' :
  lookup (Excel.add d k loc) k'
  = if String.eqb k k' then lookup d k ++ [loc] else lookup d k'.
Proof.
  induction d as [|[k0 locs] d IH]; simpl.
  - destruct (String.eqb k k'); reflexivity.
  - destruct (String.eqb_spec k0 k) as [->|N0]; simpl.
    + destruct (String.eqb_spec k k'); reflexivity.
    + rewrite IH. destruct (String.eqb_spec k0 k') as [->|N1].
      * destruct (String.eqb_spec k k'); [congruence | reflexivity].
      * reflexivity.
Qed.

Lemma add_keys d k loc :
  map fst (Excel.add d k loc) = map fst d \/
  (~ In k (map fst d) /\ map fst (Excel.add d k loc) = map fst d ++ [k]).
Proof.
  induction d as [|[k0 locs] d IH]; simpl.
  - right. split; [tauto | reflexivity].
  - destruct (String.eqb_spec k0 k) as [->|N0]; simpl; [now left|].
    destruct IH as [E|[Hn E]]; rewrite E; [now left|].
    right. split; [|reflexivity]. intros [H|H]; [congruence | tauto].
Qed.

Lemma add_nodup d k loc :
  NoDup (map fst d) -> NoDup (map fst (Excel.add d k loc)).
Proof.
  intros H. destruct (add_keys d k loc) as [E|[Hn E]]; rewrite E; [exact H|].
  apply NoDup_app; [exact H | repeat constructor; tauto |].
  intros x Hx [<-|[]]. contradiction.
Qed.

Lemma places_app k es es' : places k (es ++ es') = places k es ++ places k es'.
Proof. unfold places. now rewrite filter_app, map_app. Qed.

Lemma places_one k loc k' :
  places k' [(k, loc)] = if String.eqb k k' then [loc] else [].
Proof. unfold places. cbn. now destruct (String.eqb k k'). Qed.

Lemma dictionary_spec es :
  forall d done,
    NoDup (map fst d) ->
    (forall k, lookup d k = places k done) ->
    NoDup (map fst (fold_left (fun d e => Excel.add d (fst e) (snd e)) es d))
    /\
    forall k,
      lookup (fold_left (fun d e => Excel.add d (fst e) (snd e)) es d) k
      = places k (done ++ es).
Proof.
  induction es as [|[k loc] es IH]; intros d done Hn Hl; simpl.
  - rewrite app_nil_r. auto.
  - destruct (IH (Excel.add d k loc) (done ++ [(k, loc)])) as (H1 & H2).
    + now apply add_nodup.
    + intros k'. rewrite lookup_add, places_app, places_one, !Hl.
      destruct (String.eqb_spec k k') as [->|N]; [reflexivity|].
      now rewrite app_nil_r.
    + split; [exact H1|]. intros k'. now rewrite H2, <- app_assoc.
Qed.

(** *** What is read from the sheet *)

Lemma scan_in cs col :
  forall base v c r,
    In (v, (c, r)) (Excel.scan cs col base) <->
    c = col /\ base <= r /\
    (forall j, j <= r - base ->
               Excel.truthy (Excel.cell_value (nth j cs Excel.blank)) = true) /\
    Excel.str (Excel.cell_value (nth (r - base) cs Excel.blank)) = v.
Proof.
  induction cs as [|c0 t IH]; intros base v c r; simpl.
  - split; [intros []|]. intros (_ & _ & H & _). specialize (H 0).
    cbn in H. discriminate H. lia.
  - destruct (Excel.truthy (Excel.cell_value c0)) eqn:E0.
    + simpl. rewrite IH. split.
      * intros [E|(-> & Hb & Hj & Hv)].
        -- injection E as <- <- <-. rewrite Nat.sub_diag.
           repeat split; auto. intros j Hj.
           assert (j = 0) as -> by lia. exact E0.
        -- split; [reflexivity|]. split; [lia|].
           replace (r - base) with (S (r - S base)) by lia.
           split; [|exact Hv].
           intros [|j] Hj'; [exact E0 | apply Hj; lia].
      * intros (-> & Hb & Hj & Hv).
        destruct (Nat.eq_dec r base) as [->|N].
        -- left. rewrite Nat.sub_diag in Hv. now rewrite <- Hv.
        -- right. split; [reflexivity|]. split; [lia|].
           replace (r - base) with (S (r - S base)) in Hv, Hj by lia.
           split; [|exact Hv].
           intros j Hj'. apply (Hj (S j)). lia.
    + split; [intros []|]. intros (_ & _ & H & _). specialize (H 0).
      cbn in H. rewrite E0 in H. discriminate H. lia.
Qed.

Lemma scan_nodup cs col :
  forall base, NoDup (map snd (Excel.scan cs col base)).
Proof.
  induction cs as [|c0 t IH]; intros base; simpl; [constructor|].
  destruct (Excel.truthy (Excel.cell_value c0)); [|constructor].
  simpl. constructor; [|apply IH].
  intros Hin. apply in_map_iff in Hin. destruct Hin as ([v loc] & E & Hin).
  cbn in E. subst loc. apply scan_in in Hin. lia.
Qed.

Lemma entries_in ws v c r :
  In (v, (c, r)) (Excel.entries ws) <->
  listed ws c r /\
  Excel.str (Excel.cell_value (Excel.cell_at ws c r)) = v.
Proof.
  unfold Excel.entries, listed, Excel.cell_at. rewrite in_flat_map. split.
  - intros (col & Hc & Hin). apply scan_in in Hin.
    destruct Hin as (-> & Hb & Hj & Hv). rewrite nth_skipn_1 in Hv.
    replace (S (r - 2)) with (r - 1) in Hv by lia.
    split; [|exact Hv]. split; [exact Hc|]. split; [exact Hb|].
    intros r' Hr'. specialize (Hj (r' - 2)). rewrite nth_skipn_1 in Hj.
    replace (S (r' - 2)) with (r' - 1) in Hj by lia. apply Hj. lia.
  - intros ((Hc & Hb & Hj) & Hv). exists c. split; [exact Hc|].
    apply scan_in. split; [reflexivity|]. split; [exact Hb|].
    rewrite nth_skipn_1. replace (S (r - 2)) with (r - 1) by lia.
    split; [|exact Hv].
    intros j Hj'. rewrite nth_skipn_1.
    replace (S j) with (j + 2 - 1) by lia. apply Hj. lia.
Qed.

Lemma flat_scan_nodup (cells : string -> list Excel.cell) cols :
  NoDup cols ->
  NoDup (map snd (flat_map (fun col => Excel.scan (cells col) col 2) cols)).
Proof.
  induction cols as [|col cols IH]; intros Hn; simpl; [constructor|].
  inversion Hn as [|x l Hx Hl]; subst.
  rewrite map_app. apply NoDup_app; [apply scan_nodup | now apply IH |].
  intros [c r] H1 H2.
  apply in_map_iff in H1. destruct H1 as ([v1 loc1] & E1 & H1).
  apply in_map_iff in H2. destruct H2 as ([v2 loc2] & E2 & H2).
  cbn in E1, E2. subst loc1 loc2.
  apply scan_in in H1. destruct H1 as (-> & _).
  apply in_flat_map in H2. destruct H2 as (col' & Hc' & H2).
  apply scan_in in H2. destruct H2 as (-> & _). contradiction.
Qed.

Lemma entries_nodup ws : NoDup (map snd (Excel.entries ws)).
Proof.
  unfold Excel.entries.
  apply (flat_scan_nodup (fun col => skipn 1 (Excel.ws_cells ws col))).
  unfold Excel.scanned_columns.
  repeat constructor; simpl; intuition discriminate.
Qed.

Lemma places_in k es loc : In loc (places k es) <-> In (k, loc) es.
Proof.
  unfold places. rewrite in_map_iff. split.
  - intros ([k' loc'] & E & Hin). cbn in E. subst loc'.
    apply filter_In in Hin. destruct Hin as (Hin & Ek). cbn in Ek.
    apply String.eqb_eq in Ek. now subst k'.
  - intros Hin. exists (k, loc). split; [reflexivity|].
    apply filter_In. split; [exact Hin|]. cbn. apply String.eqb_refl.
Qed.

Lemma places_nodup k es : NoDup (map snd es) -> NoDup (places k es).
Proof.
  unfold places. induction es as [|e es IH]; simpl; intros H; [constructor|].
  inversion H as [|x l Hx Hl]; subst.
  destruct (String.eqb (fst e) k); simpl; [|now apply IH].
  constructor; [|now apply IH].
  intros Hin. apply Hx. apply in_map_iff in Hin.
  destruct Hin as (e' & E & Hin). apply filter_In in Hin.
  apply in_map_iff. exists e'. tauto.
Qed.

Lemma another_place (l : list Excel.location) x :
  NoDup l -> In x l ->
  (1 < length l <-> exists y, y <> x /\ In y l).
Proof.
  intros Hn Hx. split.
  - intros Hl. destruct l as [|a [|b l]]; simpl in Hl; try lia.
    inversion Hn as [|? ? Ha _]; subst.
    destruct (location_dec a x) as [->|Na].
    + exists b. split; [|simpl; auto].
      intros ->. apply Ha. now left.
    + exists a. split; [exact Na | now left].
  - intros (y & Hy & Hin).
    destruct l as [|a [|b l]]; simpl in *; try lia; intuition congruence.
Qed.

Lemma lookup_in d k locs :
  NoDup (map fst d) -> In (k, locs) d -> lookup d k = locs.
Proof.
  induction d as [|[k0 l0] d IH]; simpl; intros Hn Hin; [contradiction|].
  inversion Hn as [|? ? Hk Hd]; subst.
  destruct Hin as [E|Hin].
  - injection E as -> ->. now rewrite String.eqb_refl.
  - destruct (String.eqb_spec k0 k) as [->|N]; [|now apply IH].
    exfalso. apply Hk. apply in_map_iff. now exists (k, locs).
Qed.

Lemma lookup_found d k : lookup d k <> [] -> In (k, lookup d k) d.
Proof.
  induction d as [|[k0 l0] d IH]; simpl; intros H; [congruence|].
  destruct (String.eqb_spec k0 k) as [->|N]; [now left | right; auto].
Qed.

Lemma part_number_columns_spec ws :
  NoDup (map fst (Excel.part_number_columns ws)) /\
  forall k,
    lookup (Excel.part_number_columns ws) k = places k (Excel.entries ws).
Proof.
  unfold Excel.part_number_columns.
  apply (dictionary_spec (Excel.entries ws) [] []); [constructor|].
  reflexivity.
Qed.

(** The cells the loop of lines 171-175 paints are the repeated ones. *)
Lemma painted_repeated ws c r :
  (exists item,
     In item (Excel.part_number_columns ws) /\
     1 < length (snd item) /\ In (c, r) (snd item))
  <-> repeated ws c r.
Proof.
  destruct (part_number_columns_spec ws) as (Hn & Hl).
  pose proof (entries_nodup ws) as He.
  split.
  - intros ([k locs] & Hin & Hlen & Hloc). cbn [snd] in *.
    apply (lookup_in _ _ _ Hn) in Hin. rewrite Hl in Hin. subst locs.
    apply (another_place _ (c, r) (places_nodup k _ He) Hloc) in Hlen.
    destruct Hlen as ([c' r'] & Hne & Hin').
    apply places_in, entries_in in Hloc. apply places_in, entries_in in Hin'.
    destruct Hloc as (L & V), Hin' as (L' & V').
    split; [exact L|]. exists c', r'. split; [exact Hne|].
    split; [exact L'|].
    destruct L as (_ & Hr & T), L' as (_ & Hr' & T').
    specialize (T r). specialize (T' r').
    destruct (Excel.cell_value (Excel.cell_at ws c r)) as [x|];
      [|cbn in T; discriminate T; lia].
    destruct (Excel.cell_value (Excel.cell_at ws c' r')) as [x'|];
      [|cbn in T'; discriminate T'; lia].
    cbn in V, V'. congruence.
  - intros (L & c' & r' & Hne & L' & V).
    set (k := Excel.str (Excel.cell_value (Excel.cell_at ws c r))).
    assert (H1 : In (c, r) (places k (Excel.entries ws))).
    { apply places_in, entries_in. now split. }
    assert (H2 : In (c', r') (places k (Excel.entries ws))).
    { apply places_in, entries_in. split; [exact L'|]. unfold k.
      now rewrite V. }
    exists (k, places k (Excel.entries ws)). cbn [snd].
    split; [|split; [|exact H1]].
    + rewrite <- Hl. apply lookup_found. rewrite Hl.
      intros E. rewrite E in H1. contradiction.
    + apply (another_place _ (c, r) (places_nodup k _ He) H1).
      now exists (c', r').
Qed.

Lemma part_number_columns_rows ws :
  Forall (fun item : string * list Excel.location =>
            Forall (fun loc : Excel.location => 2 <= snd loc) (snd item))
         (Excel.part_number_columns ws).
Proof.
  destruct (part_number_columns_spec ws) as (Hn & Hl).
  apply Forall_forall. intros [k locs] Hin. cbn [snd].
  apply (lookup_in _ _ _ Hn) in Hin. rewrite Hl in Hin. subst locs.
  apply Forall_forall. intros [c r] Hloc.
  apply places_in, entries_in in Hloc. destruct Hloc as ((_ & H & _) & _).
  exact H.
Qed.

(** X14.  What [color_code_multi_column_entries] does to a sheet it
    could load and save.  No value changes.  A cell is listed when it
    stands in column A, C, E, G or I from row 2 down with no empty cell
    above it; a listed cell is painted red when another listed cell
    has the same value, also when that other cell stands in the same
    column; every other cell keeps its font.  Columns K and M are not
    read. *)
Theorem color_sheet_spec ws c r :
  Excel.cell_value (Excel.cell_at (Excel.color_sheet ws) c r)
  = Excel.cell_value (Excel.cell_at ws c r) /\
  (repeated ws c r ->
   Excel.cell_font (Excel.cell_at (Excel.color_sheet ws) c r)
   = Excel.red_font) /\
  (~ repeated ws c r ->
   Excel.cell_at (Excel.color_sheet ws) c r = Excel.cell_at ws c r).
Proof.
  unfold Excel.color_sheet.
  destruct (color_fold_spec (Excel.part_number_columns ws) ws c r
              (part_number_columns_rows ws)) as (V & R & S).
  split; [exact V|]. split.
  - intros H. apply R. now apply painted_repeated.
  - intros H. apply S. intros H'. apply H. now apply painted_repeated.
Qed.

(** The attempts of the colour code: the first one that gets the file
    loaded and saved decides, and when there is none the file stays as
    it is. *)
Lemma color_attempts_spec disk f sheet_name n :
  forall attempt,
    (exists a ws,
       attempt <= a < attempt + n /\
       f = Some ws /\
       Excel.load (disk a) f sheet_name = Some ws /\
       Excel.can_save (disk a) = true /\
       Excel.color_attempts n attempt disk f sheet_name
       = Some (Excel.color_sheet ws)) \/
    ((forall b, attempt <= b < attempt + n ->
                Excel.load (disk b) f sheet_name = None \/
                Excel.can_save (disk b) = false) /\
     Excel.color_attempts n attempt disk f sheet_name = f).
Proof.
  induction n as [|n IH]; intros attempt; cbn [Excel.color_attempts].
  - right. split; [intros; lia | reflexivity].
  - assert (Hnext :
      Excel.load (disk attempt) f sheet_name = None \/
      Excel.can_save (disk attempt) = false ->
      (exists a ws,
         attempt <= a < attempt + S n /\
         f = Some ws /\
         Excel.load (disk a) f sheet_name = Some ws /\
         Excel.can_save (disk a) = true /\
         Excel.color_attempts n (S attempt) disk f sheet_name
         = Some (Excel.color_sheet ws)) \/
      ((forall b, attempt <= b < attempt + S n ->
                  Excel.load (disk b) f sheet_name = None \/
                  Excel.can_save (disk b) = false) /\
       Excel.color_attempts n (S attempt) disk f sheet_name = f)).
    { intros Hfail. destruct (IH (S attempt)) as [(a & ws & Ha & R)|(Hall & E)].
      - left. exists a, ws. split; [lia | exact R].
      - right. split; [|exact E]. intros b Hb.
        destruct (Nat.eq_dec b attempt) as [->|Nb]; [exact Hfail|].
        apply Hall. lia. }
    destruct (Excel.load (disk attempt) f sheet_name) as [ws|] eqn:El;
      [|apply Hnext; now left].
    destruct (Excel.can_save (disk attempt)) eqn:Es;
      [|apply Hnext; now right].
    left. exists attempt, ws. split; [lia|].
    split; [|repeat split; assumption].
    unfold Excel.load in El. destruct f as [ws0|]; [|discriminate].
    destruct (_ && _); [|discriminate]. now injection El as ->.
Qed.

(** X15.  [color_code_multi_column_entries] leaves the file as it was
    when none of its five attempts gets it loaded (with the sheet in
    it) and saved.  When one does, the file holds the sheet with the
    colours applied: it has the values of the old one, and its cells
    outside columns A, C, E, G, I and its cells of row 1 (the headers)
    are the old ones, font included. *)
Theorem color_code_keeps disk f sheet_name :
  ((forall a, a < 5 ->
              Excel.load (disk a) f sheet_name = None \/
              Excel.can_save (disk a) = false) ->
   Excel.color_code_multi_column_entries disk f sheet_name = f) /\
  ((exists a, a < 5 /\
              Excel.load (disk a) f sheet_name <> None /\
              Excel.can_save (disk a) = true) ->
   exists ws,
     f = Some ws /\
     Excel.color_code_multi_column_entries disk f sheet_name
     = Some (Excel.color_sheet ws) /\
     forall c r,
       Excel.cell_value (Excel.cell_at (Excel.color_sheet ws) c r)
       = Excel.cell_value (Excel.cell_at ws c r) /\
       (~ In c Excel.scanned_columns \/ r < 2 ->
        Excel.cell_at (Excel.color_sheet ws) c r = Excel.cell_at ws c r)).
Proof.
  unfold Excel.color_code_multi_column_entries.
  destruct (color_attempts_spec disk f sheet_name 5 0)
    as [(a & ws & Ha & Ef & El & Es & E)|(Hall & E)].
  - split.
    + intros H. destruct (H a) as [H'|H']; [lia | congruence | congruence].
    + intros _. exists ws. split; [exact Ef|]. split; [exact E|].
      intros c r. unfold Excel.color_sheet.
      destruct (color_fold_spec (Excel.part_number_columns ws) ws c r
                  (part_number_columns_rows ws)) as (V & _ & S).
      split; [exact V|]. intros H. apply S. intros H'.
      apply painted_repeated in H'. destruct H' as ((Hc & Hr & _) & _).
      destruct H as [H|H]; [contradiction | lia].
  - split; [intros _; exact E|].
    intros (a & Ha & Hl & Hs).
    destruct (Hall a) as [H|H]; [lia | contradiction | congruence].
Qed.


(** ** Instances of the statements above that carry a hypothesis *)

Lemma probe_error_ends_run_witness :
  while_loop 1 ["A1"]
    (fun _ => with_title (Raises OtherException)
                (item_page [] absent absent absent absent absent))
    (initial_state "main")
  = (UnexpectedError OtherException, record GetTitle (initial_state "main")).
Proof.
  apply (probe_error_ends_run ["A1"] _ 0 (initial_state "main")).
  - simpl. lia.
  - reflexivity.
Defined.

Lemma try_iframes_first_witness :
  exists k tr,
    k < 1 /\
    frame_holds (item_page [] absent absent absent absent absent) (0 + k) /\
    (forall j,
       j < k ->
       ~ frame_holds (item_page [] absent absent absent absent absent)
                     (0 + j)) /\
    snd (try_iframes (item_page [] absent absent absent absent absent) 0 1
                     (initial_state "main"))
    = extend (tr ++ [SwitchToFrame (0 + k); FindDiscovery])
             (initial_state "main") /\
    Forall (fun c => forall j, c = SwitchToFrame j -> j < 0 + k) tr.
Proof.
  exact (try_iframes_first
           (item_page [] absent absent absent absent absent) 1 0
           (initial_state "main") true _ eq_refl).
Defined.

Lemma append_to_excel_cell_witness :
  exists row f' col ws ws',
    Excel.append_to_excel Excel.reliable
      (Some (Excel.initialize_sheet "Check")) "Check" "Cancelled" "A1"
    = (Some row, f') /\
    Excel.get Excel.column_map "Cancelled" = Some col /\
    f' = Some ws' /\
    Excel.cell_at ws' col row
    = {| Excel.cell_value := Some "A1";
         Excel.cell_font := Excel.cell_font (Excel.cell_at ws col row) |}.
Proof.
  destruct (Excel.append_to_excel Excel.reliable
              (Some (Excel.initialize_sheet "Check")) "Check" "Cancelled"
              "A1") as [[row|] f'] eqn:E.
  - destruct (append_to_excel_cell _ _ _ _ _ _ _ E)
      as (col & ws & ws' & H1 & _ & H3 & _ & _ & _ & H4 & _).
    exists row, f', col, ws, ws'. repeat split; assumption.
  - apply (f_equal fst) in E. discriminate E.
Defined.

Lemma append_to_excel_width_witness :
  exists row ws' col m,
    Excel.append_to_excel Excel.reliable
      (Some (Excel.initialize_sheet "Check")) "Check" "Cancelled"
      "A1234567890"
    = (Some row, Some ws') /\
    Excel.get Excel.column_map "Cancelled" = Some col /\
    Excel.ws_widths ws' col = Excel.Scaled m /\
    (exists r,
       1 <= r <= row /\
       String.length
         (Excel.str (Excel.cell_value (Excel.cell_at ws' col r)))
       = m).
Proof.
  destruct (Excel.append_to_excel Excel.reliable
              (Some (Excel.initialize_sheet "Check")) "Check" "Cancelled"
              "A1234567890") as [[row|] [ws'|]] eqn:E.
  - destruct (append_to_excel_width _ _ _ _ _ _ _ E)
      as (col & m & H1 & H2 & _ & H3).
    exists row, ws', col, m. repeat split; assumption.
  - apply (f_equal snd) in E. discriminate E.
  - apply (f_equal fst) in E. discriminate E.
  - apply (f_equal fst) in E. discriminate E.
Defined.

Lemma rows_in_workbook_witness :
  exists ws,
    save_rows Excel.reliable "Check"
      [(Cancelled, "A1"); (NoLocation, "B2"); (Cancelled, "C3")]
      (snd (Excel.initialize_excel_output Excel.reliable None "Check"))
    = Some ws /\
    forall c col,
      Excel.get Excel.column_map (column_name c) = Some col ->
      map Excel.cell_value (Excel.ws_cells ws col)
      = Some (column_name c)
        :: map Some
             (under c [(Cancelled, "A1"); (NoLocation, "B2");
                       (Cancelled, "C3")]).
Proof.
  apply rows_in_workbook.
  repeat (constructor; [discriminate|]). constructor.
Defined.
